(** * python-zod-openapi: a shallow embedding of the schema compiler

    The development follows the package layout of
    [packages/python-zod-openapi/src/python_zod_openapi]: one Rocq module per
    Python module, with the Python names kept.

    Conventions of the embedding.
    - Python [str] is [string]; the character-level library functions
      ([upper], [capitalize], [isalnum], [repr], ...) are given for ASCII
      text, other bytes are passed through unchanged.
    - JSON documents are values of [json].  A Python [dict] is an
      association list in insertion order ([dict V]); Python keeps the keys
      of a dict distinct, which the theorems that need it assume as [NoDup].
    - A Python [float] is carried by the text of its [repr]; the code only
      ever prints floats or tests their type.
    - Code that can raise returns [Result]; [Raise e] is the exception.
      [OutOfFuel] is no Python exception: it marks the bound of a loop or
      of a recursion of the embedding, and is shown never to be reached
      ([openapi_to_pydantic_code_in_fuel]).
    - The process-wide format registry and the per-compilation fingerprint
      registry are passed explicitly.
    - A Python [set] has no defined iteration order: every function that
      iterates one takes the order as a parameter ([set_order]). *)

From Stdlib Require Import Ascii String ZArith Lia Permutation Sorted.
From stdpp Require Import base option list strings gmap pretty.

Set Warnings "-register-all".

Open Scope string_scope.
Open Scope list_scope.

(** ** Exceptions *)

Inductive PyError : Type :=
| TypeError
| AttributeError
| KeyError
| IndexError
| ValueError (msg : string)
| OutOfFuel.

Inductive Result (A : Type) : Type :=
| Ok (a : A)
| Raise (e : PyError).
Arguments Ok {A} a.
Arguments Raise {A} e.

#[global] Instance result_ret : MRet Result := fun A a => Ok a.
#[global] Instance result_bind : MBind Result := fun A B k m =>
  match m with
  | Ok a => k a
  | Raise e => Raise e
  end.

Definition is_ok {A} (m : Result A) : bool :=
  match m with Ok _ => true | Raise _ => false end.

(** [for x in l: acc = f(acc, x)] where the body can raise. *)
Fixpoint rfold {A B} (f : B -> A -> Result B) (l : list A) (acc : B) : Result B :=
  match l with
  | [] => Ok acc
  | x :: r => acc' ← f acc x; rfold f r acc'
  end.

(** [[f(x) for x in l]] where [f] can raise. *)
Fixpoint rmap {A B} (f : A -> Result B) (l : list A) : Result (list B) :=
  match l with
  | [] => Ok []
  | x :: r => y ← f x; ys ← rmap f r; Ok (y :: ys)
  end.

(** ** Python string primitives (ASCII) *)

Module Py.

Definition chars (s : string) : list ascii := list_ascii_of_string s.
Definition str_of (l : list ascii) : string := string_of_list_ascii l.
Definition code (c : ascii) : N := N_of_ascii c.

Definition between (lo hi : N) (c : ascii) : bool :=
  (lo <=? code c)%N && (code c <=? hi)%N.

Definition is_upper_char (c : ascii) : bool := between 65 90 c.
Definition is_lower_char (c : ascii) : bool := between 97 122 c.
Definition is_digit_char (c : ascii) : bool := between 48 57 c.
Definition is_alpha_char (c : ascii) : bool := is_upper_char c || is_lower_char c.
Definition is_alnum_char (c : ascii) : bool := is_alpha_char c || is_digit_char c.
(** [str.isspace] on one character: tab..carriage return, the four
    separators 0x1c..0x1f and the space. *)
Definition is_space_char (c : ascii) : bool :=
  between 9 13 c || between 28 31 c || (code c =? 32)%N.

Definition upper_char (c : ascii) : ascii :=
  if is_lower_char c then ascii_of_N (code c - 32) else c.
Definition lower_char (c : ascii) : ascii :=
  if is_upper_char c then ascii_of_N (code c + 32) else c.

Definition map_chars (f : ascii -> ascii) (s : string) : string :=
  str_of (map f (chars s)).

Definition upper (s : string) : string := map_chars upper_char s.
Definition lower (s : string) : string := map_chars lower_char s.

(** [s[:1]] and [s[1:]]. *)
Definition head1 (s : string) : string :=
  match s with EmptyString => "" | String c _ => String c "" end.
Definition tail1 (s : string) : string :=
  match s with EmptyString => "" | String _ r => r end.

(** [s.capitalize()]: first character upper-cased, the rest lower-cased. *)
Definition capitalize (s : string) : string := upper (head1 s) +:+ lower (tail1 s).

(** [s.isupper()], [s.islower()]: at least one cased character and no
    cased character of the other case. *)
Definition isupper (s : string) : bool :=
  existsb is_upper_char (chars s) && negb (existsb is_lower_char (chars s)).
Definition islower (s : string) : bool :=
  existsb is_lower_char (chars s) && negb (existsb is_upper_char (chars s)).
Definition isdigit (s : string) : bool :=
  negb (String.eqb s "") && forallb is_digit_char (chars s).

Definition startswith (s p : string) : bool := String.prefix p s.
Definition endswith (s p : string) : bool :=
  String.prefix (str_of (rev (chars p))) (str_of (rev (chars s))).

(** [sep.join(l)]. *)
Definition join (sep : string) (l : list string) : string := String.concat sep l.

(** [s.split(sep)] for a non-empty separator: [skip] counts the characters
    of a separator that was just matched and are still to be dropped, [cur]
    holds the current piece reversed. *)
Fixpoint split_go (sep : string) (skip : nat) (cur : list ascii) (s : string)
  : list string :=
  match s with
  | EmptyString => [str_of (rev cur)]
  | String c s' =>
      match skip with
      | S k => split_go sep k cur s'
      | O =>
          if String.prefix sep s
          then str_of (rev cur) :: split_go sep (String.length sep - 1) [] s'
          else split_go sep 0 (c :: cur) s'
      end
  end.

Definition split (s sep : string) : list string := split_go sep 0 [] s.

(** [s.split()]: pieces between runs of white space, no empty piece. *)
Fixpoint split_ws_go (cur : list ascii) (s : string) : list string :=
  match s with
  | EmptyString => match cur with [] => [] | _ => [str_of (rev cur)] end
  | String c s' =>
      if is_space_char c
      then match cur with
           | [] => split_ws_go [] s'
           | _ => str_of (rev cur) :: split_ws_go [] s'
           end
      else split_ws_go (c :: cur) s'
  end.

Definition split_ws (s : string) : list string := split_ws_go [] s.

(** [s.replace(old, new)] for a non-empty [old]. *)
Definition replace (s old new : string) : string := join new (split s old).

Definition char_in (c : ascii) (set : string) : bool :=
  existsb (Ascii.eqb c) (chars set).

Fixpoint lstrip_chars (set : string) (l : list ascii) : list ascii :=
  match l with
  | c :: r => if char_in c set then lstrip_chars set r else l
  | [] => []
  end.

(** [s.strip(set)]. *)
Definition strip (s set : string) : string :=
  str_of (rev (lstrip_chars set (rev (lstrip_chars set (chars s))))).

(** [s[1:-1]]. *)
Definition slice_1_m1 (s : string) : string :=
  str_of (rev (tl (rev (tl (chars s))))).

Definition squote : ascii := "039"%char.
Definition dquote : ascii := "034"%char.
Definition backslash : ascii := "092"%char.

Definition hex_digit (n : N) : ascii :=
  if (n <? 10)%N then ascii_of_N (48 + n) else ascii_of_N (87 + n).

Definition hex2 (c : ascii) : string :=
  String (hex_digit (code c / 16)) (String (hex_digit (code c mod 16)) "").

(** [repr] of a [str]: single quotes unless the text holds a single quote
    and no double quote; backslash, the chosen quote, tab, newline and
    carriage return are escaped, other control characters are written
    [\xNN]. *)
Definition repr_char (quote : ascii) (c : ascii) : string :=
  if Ascii.eqb c backslash then String backslash (String backslash "")
  else if Ascii.eqb c quote then String backslash (String c "")
  else if (code c =? 9)%N then String backslash "t"
  else if (code c =? 10)%N then String backslash "n"
  else if (code c =? 13)%N then String backslash "r"
  else if (code c <? 32)%N || (code c =? 127)%N then String backslash "x" +:+ hex2 c
  else String c "".

Definition repr_str (s : string) : string :=
  let quote :=
    if char_in squote s && negb (char_in dquote s) then dquote else squote in
  String quote (String.concat "" (map (repr_char quote) (chars s)))
    +:+ String quote "".

Definition hex_value (c : ascii) : option N :=
  if is_digit_char c then Some (code c - 48)%N
  else if between 97 102 c then Some (code c - 87)%N
  else if between 65 70 c then Some (code c - 55)%N
  else None.

(** [urllib.parse.unquote] on bytes: every [%XX] with two hexadecimal
    digits becomes the byte [XX]; anything else stays.  The bytes so
    written are the UTF-8 text Python decodes them to; bytes that are no
    UTF-8 text, which Python replaces by U+FFFD, are kept as they are. *)
Fixpoint unquote_go (skip : nat) (s : string) : list ascii :=
  match s with
  | EmptyString => []
  | String c s' =>
      match skip with
      | S k => unquote_go k s'
      | O =>
          match c, s' with
          | "%"%char, String h (String l _) =>
              match hex_value h, hex_value l with
              | Some a, Some b => ascii_of_N (16 * a + b) :: unquote_go 2 s'
              | _, _ => c :: unquote_go 0 s'
              end
          | _, _ => c :: unquote_go 0 s'
          end
      end
  end.

Definition unquote (s : string) : string := str_of (unquote_go 0 s).

(** [keyword.kwlist]. *)
Definition kwlist : list string :=
  ["False"; "None"; "True"; "and"; "as"; "assert"; "async"; "await"; "break";
   "class"; "continue"; "def"; "del"; "elif"; "else"; "except"; "finally";
   "for"; "from"; "global"; "if"; "import"; "in"; "is"; "lambda"; "nonlocal";
   "not"; "or"; "pass"; "raise"; "return"; "try"; "while"; "with"; "yield"].

Definition str_in (s : string) (l : list string) : bool := existsb (String.eqb s) l.

Definition iskeyword (s : string) : bool := str_in s kwlist.

End Py.

(** ** Insertion-ordered dictionaries *)

Abbreviation dict V := (list (string * V)).

(** [d.get(k)] as an option: [None] when the key is absent. *)
Fixpoint dget {V} (k : string) (d : dict V) : option V :=
  match d with
  | [] => None
  | (k', v) :: r => if String.eqb k k' then Some v else dget k r
  end.

(** [d[k] = v]: an existing key keeps its position, a new key goes last. *)
Fixpoint dset {V} (k : string) (v : V) (d : dict V) : dict V :=
  match d with
  | [] => [(k, v)]
  | (k', v') :: r =>
      if String.eqb k k' then (k, v) :: r else (k', v') :: dset k v r
  end.

Definition dkeys {V} (d : dict V) : list string := map fst d.
Definition dvalues {V} (d : dict V) : list V := map snd d.

(** [k in d]. *)
Definition dhas {V} (k : string) (d : dict V) : bool :=
  match dget k d with Some _ => true | None => false end.

(** [d.update(other)]. *)
Definition dupdate {V} (d other : dict V) : dict V :=
  fold_left (fun acc kv => dset (fst kv) (snd kv) acc) other d.

(** [{k: v for ...}] built from the pairs in order. *)
Definition dict_of_pairs {V} (l : list (string * V)) : dict V := dupdate [] l.

(** Insertion of an entry into a list of entries sorted by key
    ([sorted(d.keys())] on [str] keys compares code points, which is the
    byte order of ASCII text). *)
Fixpoint insert_by_key {V} (kv : string * V) (l : list (string * V))
  : list (string * V) :=
  match l with
  | [] => [kv]
  | kv' :: r =>
      if String.leb (fst kv) (fst kv') then kv :: l else kv' :: insert_by_key kv r
  end.

Definition sort_by_key {V} (l : list (string * V)) : list (string * V) :=
  fold_right insert_by_key [] l.

(** ** JSON values *)

Inductive json : Type :=
| JNull
| JBool (b : bool)
| JInt (z : Z)
| JFloat (repr : string)
| JStr (s : string)
| JList (items : list json)
| JDict (entries : list (string * json)).

Module Json.

(** [d.get(k)]: [None] (here [JNull]) when the key is absent. *)
Definition get (k : string) (d : dict json) : json :=
  match dget k d with Some v => v | None => JNull end.

(** [d.get(k, default)]. *)
Definition get_default (k : string) (d : dict json) (default : json) : json :=
  match dget k d with Some v => v | None => default end.

(** Truth value of an object: [bool(v)]. *)
Definition truthy (v : json) : bool :=
  match v with
  | JNull => false
  | JBool b => b
  | JInt z => negb (z =? 0)%Z
  | JFloat r => negb (Py.str_in r ["0.0"; "-0.0"])
  | JStr s => negb (String.eqb s "")
  | JList l => match l with [] => false | _ => true end
  | JDict d => match d with [] => false | _ => true end
  end.

(** [v is None], [v is True], [v is False]. *)
Definition is_None (v : json) : bool :=
  match v with JNull => true | _ => false end.
Definition is_True (v : json) : bool :=
  match v with JBool true => true | _ => false end.
Definition is_False (v : json) : bool :=
  match v with JBool false => true | _ => false end.

(** [v == s] for a string literal [s]. *)
Definition eq_str (v : json) (s : string) : bool :=
  match v with JStr s' => String.eqb s' s | _ => false end.

(** [isinstance(v, int)]: [bool] is a subclass of [int]. *)
Definition is_int (v : json) : bool :=
  match v with JInt _ | JBool _ => true | _ => false end.
(** [isinstance(v, (int, float))]. *)
Definition is_number (v : json) : bool :=
  match v with JInt _ | JBool _ | JFloat _ => true | _ => false end.

(** Objects that [hash] accepts: everything but lists and dicts. *)
Definition hashable (v : json) : bool :=
  match v with JList _ | JDict _ => false | _ => true end.

(** [v in {s1, s2, ...}] for a set of string literals: hashing [v] raises
    [TypeError] on a list or a dict. *)
Definition in_str_set (v : json) (set : list string) : Result bool :=
  match v with
  | JList _ | JDict _ => Raise TypeError
  | JStr s => Ok (Py.str_in s set)
  | _ => Ok false
  end.

(** [repr(v)]. *)
Fixpoint repr (v : json) : string :=
  match v with
  | JNull => "None"
  | JBool true => "True"
  | JBool false => "False"
  | JInt z => pretty z
  | JFloat r => r
  | JStr s => Py.repr_str s
  | JList l => "[" +:+ Py.join ", " (map repr l) +:+ "]"
  | JDict d =>
      "{" +:+ Py.join ", " (map (fun kv => Py.repr_str (fst kv) +:+ ": " +:+ repr (snd kv)) d)
        +:+ "}"
  end.

(** [str(v)], also what an f-string field [{v}] prints. *)
Definition str (v : json) : string :=
  match v with JStr s => s | _ => repr v end.

(** One character of a JSON string literal written by [json.dumps] (with
    [ensure_ascii]): what is not between the space and the tilde is
    escaped.  The bytes above 127, which stand for the text outside ASCII,
    are passed through, where [json.dumps] writes the code point of the
    character they encode. *)
Definition dumps_char (c : ascii) : string :=
  if Ascii.eqb c Py.dquote then String Py.backslash (String Py.dquote "")
  else if Ascii.eqb c Py.backslash then String Py.backslash (String Py.backslash "")
  else if (Py.code c =? 10)%N then String Py.backslash "n"
  else if (Py.code c =? 13)%N then String Py.backslash "r"
  else if (Py.code c =? 9)%N then String Py.backslash "t"
  else if (Py.code c =? 8)%N then String Py.backslash "b"
  else if (Py.code c =? 12)%N then String Py.backslash "f"
  else if (Py.code c <? 32)%N || (Py.code c =? 127)%N
       then String Py.backslash "u00" +:+ Py.hex2 c
  else String c "".

Definition dumps_str (s : string) : string :=
  String Py.dquote (String.concat "" (map dumps_char (Py.chars s)))
    +:+ String Py.dquote "".

Definition dumps_float (r : string) : string :=
  if String.eqb r "nan" then "NaN"
  else if String.eqb r "inf" then "Infinity"
  else if String.eqb r "-inf" then "-Infinity"
  else r.

(** [json.dumps(v, sort_keys=True)]. *)
Fixpoint dumps (v : json) : string :=
  match v with
  | JNull => "null"
  | JBool true => "true"
  | JBool false => "false"
  | JInt z => pretty z
  | JFloat r => dumps_float r
  | JStr s => dumps_str s
  | JList l => "[" +:+ Py.join ", " (map dumps l) +:+ "]"
  | JDict d =>
      "{" +:+ Py.join ", "
                (map (fun kv => dumps_str (fst kv) +:+ ": " +:+ snd kv)
                     (sort_by_key (map (fun kv => (fst kv, dumps (snd kv))) d)))
        +:+ "}"
  end.

(** Number of nested containers, the bound of every recursion over a
    document. *)
Fixpoint depth (v : json) : nat :=
  match v with
  | JList l => S (foldr (fun x acc => Nat.max (depth x) acc) 0 l)
  | JDict d => S (foldr (fun kv acc => Nat.max (depth (snd kv)) acc) 0 d)
  | _ => 0
  end.

(** [a == b] on documents.  Dicts compare as maps, [True == 1] and
    [False == 0]; floats compare by their text (an [int] is never equal to
    a [float] here). *)
Definition num_value (v : json) : option Z :=
  match v with
  | JInt z => Some z
  | JBool true => Some 1%Z
  | JBool false => Some 0%Z
  | _ => None
  end.

Fixpoint eqb (a b : json) : bool :=
  match a, b with
  | JNull, JNull => true
  | JFloat r, JFloat r' => String.eqb r r'
  | JStr s, JStr s' => String.eqb s s'
  | JList l, JList l' =>
      (fix go (l l' : list json) : bool :=
         match l, l' with
         | [], [] => true
         | x :: r, y :: r' => eqb x y && go r r'
         | _, _ => false
         end) l l'
  | JDict d, JDict d' =>
      Nat.eqb (length d) (length d')
      && forallb (fun kv =>
                    match dget (fst kv) d' with
                    | Some w => eqb (snd kv) w
                    | None => false
                    end) d
  | _, _ =>
      match num_value a, num_value b with
      | Some x, Some y => (x =? y)%Z
      | _, _ => false
      end
  end.

End Json.

(** ** schema_dedup.py *)

Module schema_dedup.

(** Keys are sorted after the values are: with distinct keys this is the
    dict the loop over [sorted(obj.keys())] builds. *)
Fixpoint _sort_object_deep (obj : json) : json :=
  match obj with
  | JList items => JList (map _sort_object_deep items)
  | JDict d => JDict (sort_by_key (map (fun kv => (fst kv, _sort_object_deep (snd kv))) d))
  | _ => obj
  end.

Definition get_schema_fingerprint (schema : json) : string :=
  Json.dumps (_sort_object_deep schema).

Record SchemaRegistry : Type := {
  fingerprint_to_name : gmap string string
}.

Definition create_schema_registry : SchemaRegistry :=
  {| fingerprint_to_name := ∅ |}.

Record RegisterSchemaResult : Type := {
  is_new : bool;
  canonical_name : string
}.

(** Truth value of [d.get(k)] for a dict of strings: [None] and the empty
    string are false. *)
Definition existing_truthy (existing : option string) : bool :=
  match existing with
  | Some s => negb (String.eqb s "")
  | None => false
  end.

Definition register_schema (registry : SchemaRegistry) (name : string) (schema : json)
  : SchemaRegistry * RegisterSchemaResult :=
  let fingerprint := get_schema_fingerprint schema in
  let existing := fingerprint_to_name registry !! fingerprint in
  if existing_truthy existing then
    (registry, {| is_new := false; canonical_name := default "" existing |})
  else
    ({| fingerprint_to_name := <[fingerprint := name]> (fingerprint_to_name registry) |},
     {| is_new := true; canonical_name := name |}).

Definition pre_register_schema (registry : SchemaRegistry) (name fingerprint : string)
  : SchemaRegistry :=
  {| fingerprint_to_name := <[fingerprint := name]> (fingerprint_to_name registry) |}.

(** [schema.get] raises [AttributeError] when [schema] is no dict. *)
Definition extract_error_code (schema : json) : Result (option string) :=
  match schema with
  | JDict d =>
      match Json.get "properties" d with
      | JDict props =>
          match Json.get "error" props with
          | JDict error_obj =>
              match Json.get "properties" error_obj with
              | JDict error_props =>
                  match Json.get "code" error_props with
                  | JDict code_schema =>
                      match Json.get "enum" code_schema with
                      | JList [code] => Ok (Some (Json.str code))
                      | _ => Ok None
                      end
                  | _ => Ok None
                  end
              | _ => Ok None
              end
          | _ => Ok None
          end
      | _ => Ok None
      end
  | _ => Raise AttributeError
  end.

Definition error_code_to_pascal_case (code : string) : string :=
  Py.join "" (map Py.capitalize (Py.split code "_")).

Definition generate_common_error_schema_name (error_code : string) : string :=
  error_code_to_pascal_case error_code +:+ "Error".

Record CommonSchema : Type := {
  name : string;
  schema : json;
  fingerprint : string;
  count : nat
}.

Record NamedSchema : Type := {
  ns_name : string;
  ns_schema : json
}.

(** One entry of the local [fingerprints] dict. *)
Record Group : Type := {
  g_schema : json;
  g_names : list string;
  g_error_code : option string
}.

(** Body of the first loop.  An entry of [fingerprints] is a dict of three
    keys, so [if existing:] tests presence. *)
Definition group_item (fingerprints : dict Group) (item : NamedSchema)
  : Result (dict Group) :=
  let fp := get_schema_fingerprint (ns_schema item) in
  match dget fp fingerprints with
  | Some existing =>
      Ok (dset fp {| g_schema := g_schema existing;
                     g_names := g_names existing ++ [ns_name item];
                     g_error_code := g_error_code existing |} fingerprints)
  | None =>
      error_code ← extract_error_code (ns_schema item);
      Ok (dset fp {| g_schema := ns_schema item;
                     g_names := [ns_name item];
                     g_error_code := error_code |} fingerprints)
  end.

(** Body of the second loop: the entry a group contributes, if any. *)
Definition common_of_group (min_count : nat) (entry : string * Group)
  : option CommonSchema :=
  let names := g_names (snd entry) in
  if (length names <? min_count)%nat then None
  else
    Some {| name := match g_error_code (snd entry) with
                    | Some error_code => generate_common_error_schema_name error_code
                    | None => hd "" names
                    end;
            schema := g_schema (snd entry);
            fingerprint := fst entry;
            count := length names |}.

(** [sorted(common, key=count, reverse=True)]: a stable sort, entries of
    equal count keep their order. *)
Fixpoint insert_by_count (x : CommonSchema) (l : list CommonSchema) : list CommonSchema :=
  match l with
  | [] => [x]
  | y :: r => if (count y <=? count x)%nat then x :: l else y :: insert_by_count x r
  end.

Definition sort_by_count_desc (l : list CommonSchema) : list CommonSchema :=
  fold_right insert_by_count [] l.

Definition find_common_schemas (schemas : list NamedSchema) (min_count : nat)
  : Result (list CommonSchema) :=
  fingerprints ← rfold group_item schemas [];
  Ok (sort_by_count_desc (omap (common_of_group min_count) fingerprints)).

End schema_dedup.

(** ** registry.py *)

Module registry.

Definition SUPPORTED_STRING_FORMATS : list string :=
  ["color-hex"; "date"; "date-time"; "email"; "iso-date"; "iso-date-time";
   "objectid"; "uri"; "url"; "uuid"].

(** A registration dict.  [type] and [schema_exported_variable_name] are
    read by subscript and typed [str]; [format] and [formats] are read with
    [get] and tested with [isinstance], so they are kept as documents
    ([JNull] when absent). *)
Record PydanticOpenApiRegistration : Type := {
  schema_exported_variable_name : string;
  type : string;
  format : json;
  formats : json;
  description : json
}.

(** Objects passed as [schema] count by their identity [id(schema)]. *)
Record PydanticSchemaRegistry : Type := {
  _string_format_to_name : gmap string string;
  _primitive_type_to_name : gmap string string;
  _schema_ids : gmap nat PydanticOpenApiRegistration
}.

Definition empty_registry : PydanticSchemaRegistry :=
  {| _string_format_to_name := ∅; _primitive_type_to_name := ∅; _schema_ids := ∅ |}.

(** [existing and existing != name]. *)
Definition conflicts (existing : option string) (name : string) : bool :=
  match existing with
  | Some e => negb (String.eqb e "") && negb (String.eqb e name)
  | None => false
  end.

(** A method that mutates the registry returns the registry it leaves
    behind, also when it raises. *)
Definition _register_string_format (self : PydanticSchemaRegistry) (fmt : string)
    (registration : PydanticOpenApiRegistration)
  : PydanticSchemaRegistry * Result unit :=
  if negb (Py.str_in fmt SUPPORTED_STRING_FORMATS) then
    (self, Raise (ValueError "unsupported string format registration"))
  else
    let name := schema_exported_variable_name registration in
    let existing := _string_format_to_name self !! fmt in
    if conflicts existing name then
      (self, Raise (ValueError "duplicate Pydantic OpenAPI registration for (type, format)"))
    else
      ({| _string_format_to_name := <[fmt := name]> (_string_format_to_name self);
          _primitive_type_to_name := _primitive_type_to_name self;
          _schema_ids := _schema_ids self |}, Ok tt).

Definition set_schema_id (self : PydanticSchemaRegistry) (schema_id : nat)
    (registration : PydanticOpenApiRegistration) : PydanticSchemaRegistry :=
  {| _string_format_to_name := _string_format_to_name self;
     _primitive_type_to_name := _primitive_type_to_name self;
     _schema_ids := <[schema_id := registration]> (_schema_ids self) |}.

(** [for format_item in format_values: if isinstance(format_item, str): ...]:
    the loop stops at the first registration that raises. *)
Fixpoint register_formats (self : PydanticSchemaRegistry) (format_values : list json)
    (registration : PydanticOpenApiRegistration)
  : PydanticSchemaRegistry * Result unit :=
  match format_values with
  | [] => (self, Ok tt)
  | JStr format_item :: rest =>
      match _register_string_format self format_item registration with
      | (self', Ok _) => register_formats self' rest registration
      | (self', Raise e) => (self', Raise e)
      end
  | _ :: rest => register_formats self rest registration
  end.

Definition register_primitive (self : PydanticSchemaRegistry) (schema_id : nat)
    (registration : PydanticOpenApiRegistration)
  : PydanticSchemaRegistry * Result unit :=
  let reg_type := type registration in
  if Py.str_in reg_type ["number"; "integer"; "boolean"] then
    let name := schema_exported_variable_name registration in
    let existing := _primitive_type_to_name self !! reg_type in
    if conflicts existing name then
      (self, Raise (ValueError "duplicate Pydantic OpenAPI registration for type"))
    else
      (set_schema_id
         {| _string_format_to_name := _string_format_to_name self;
            _primitive_type_to_name := <[reg_type := name]> (_primitive_type_to_name self);
            _schema_ids := _schema_ids self |} schema_id registration, Ok tt)
  else (self, Raise (ValueError "unsupported registration type")).

Definition register (self : PydanticSchemaRegistry) (schema_id : nat)
    (registration : PydanticOpenApiRegistration)
  : PydanticSchemaRegistry * Result unit :=
  if String.eqb (type registration) "string" then
    match format registration with
    | JStr format_value =>
        match _register_string_format self format_value registration with
        | (self', Ok _) => (set_schema_id self' schema_id registration, Ok tt)
        | (self', Raise e) => (self', Raise e)
        end
    | _ =>
        match formats registration with
        | JList format_values =>
            match register_formats self format_values registration with
            | (self', Ok _) => (set_schema_id self' schema_id registration, Ok tt)
            | (self', Raise e) => (self', Raise e)
            end
        | _ => register_primitive self schema_id registration
        end
    end
  else register_primitive self schema_id registration.

Definition clear (self : PydanticSchemaRegistry) : PydanticSchemaRegistry :=
  {| _string_format_to_name := ∅; _primitive_type_to_name := ∅; _schema_ids := ∅ |}.

Definition get_schema_exported_variable_name_for_string_format
    (self : PydanticSchemaRegistry) (format_value : string) : option string :=
  if negb (Py.str_in format_value SUPPORTED_STRING_FORMATS) then None
  else _string_format_to_name self !! format_value.

Definition get_schema_exported_variable_name_for_primitive_type
    (self : PydanticSchemaRegistry) (type_value : string) : option string :=
  _primitive_type_to_name self !! type_value.

Definition is_registered (self : PydanticSchemaRegistry) (schema_id : nat) : bool :=
  bool_decide (is_Some (_schema_ids self !! schema_id)).

End registry.

(** ** Iteration order of a Python set *)

(** [list(s)] for a set [s] that was filled by adding the elements of
    [added] in order: some list of the distinct elements. *)
Definition valid_set_order (set_order : list string -> list string) : Prop :=
  forall added, NoDup (set_order added) /\ forall x, x ∈ set_order added <-> x ∈ added.

(** One such order: first insertion first. *)
Definition insertion_order (added : list string) : list string :=
  rev (remove_dups (rev added)).

(** ** dependencies.py *)

Module dependencies.

Definition child_keys : list string :=
  ["items"; "oneOf"; "allOf"; "anyOf"; "not"; "if"; "then"; "else";
   "prefixItems"; "contains"; "propertyNames"; "dependentSchemas"].

(** The names [traverse] adds to [dependencies], in the order of the
    calls to [add].  [fuel] bounds the nesting: one unit per container.
    The [visited] set of the source keeps an object that occurs twice in
    the document from being walked twice; a second walk would add the same
    names again, so it is left out. *)
Fixpoint traverse (fuel : nat) (obj : json) : list string :=
  match fuel with
  | O => []
  | S fuel' =>
      match obj with
      | JList items => flat_map (traverse fuel') items
      | JDict d =>
          match Json.get "$ref" d with
          | JStr ref =>
              match Py.split ref "#/components/schemas/" with
              | [_; m1] => if String.eqb m1 "" then [] else [Py.unquote m1]
              | _ => []
              end
          | _ =>
              match Json.get "properties" d with
              | JDict props => flat_map (traverse fuel') (dvalues props)
              | _ => []
              end
              ++ flat_map (fun key => match dget key d with
                                      | Some v => traverse fuel' v
                                      | None => []
                                      end) child_keys
              ++ match Json.get "additionalProperties" d with
                 | JDict additional => traverse fuel' (JDict additional)
                 | _ => []
                 end
              ++ match Json.get "discriminator" d with
                 | JDict discriminator =>
                     match Json.get "mapping" discriminator with
                     | JDict mapping => flat_map (traverse fuel') (dvalues mapping)
                     | _ => []
                     end
                 | _ => []
                 end
          end
      | _ => []
      end
  end.

Definition extract_schema_dependencies (set_order : list string -> list string)
    (schema : json) : list string :=
  set_order (traverse (Json.depth schema) schema).

(** [dependents[dep].append(name)]. *)
Definition append_dependent (name : string) (dependents : dict (list string))
    (dep : string) : Result (dict (list string)) :=
  match dget dep dependents with
  | Some l => Ok (dset dep (l ++ [name]) dependents)
  | None => Raise KeyError
  end.

(** The local dependency edges of one schema: [valid_deps]. *)
Definition valid_deps (set_order : list string -> list string) (schemas : dict json)
    (schema : json) : list string :=
  filter (fun dep => dhas dep schemas) (extract_schema_dependencies set_order schema).

(** Body of the loop over [schemas.items()]; the state is
    [(dependencies, dependents)]. *)
Definition collect_step (set_order : list string -> list string) (schemas : dict json)
    (st : dict (list string) * dict (list string)) (item : string * json)
  : Result (dict (list string) * dict (list string)) :=
  let deps := valid_deps set_order schemas (snd item) in
  dependents ← rfold (append_dependent (fst item)) deps (snd st);
  Ok (dset (fst item) deps (fst st), dependents).

(** Body of [for dependent in dependents[current]]; the state is
    [(in_degree, queue)]. *)
Definition visit_dependent (st : dict Z * list string) (dependent : string)
  : Result (dict Z * list string) :=
  match dget dependent (fst st) with
  | None => Raise KeyError
  | Some degree =>
      let in_degree := dset dependent (degree - 1)%Z (fst st) in
      if (degree - 1 =? 0)%Z then Ok (in_degree, snd st ++ [dependent])
      else Ok (in_degree, snd st)
  end.

(** [while queue: ...]; [fuel] bounds the number of iterations. *)
Fixpoint kahn_loop (fuel : nat) (dependents : dict (list string)) (in_degree : dict Z)
    (queue sorted_names : list string) : Result (list string) :=
  match queue with
  | [] => Ok sorted_names
  | current :: queue' =>
      match fuel with
      | O => Raise OutOfFuel
      | S fuel' =>
          match dget current dependents with
          | None => Raise KeyError
          | Some ds =>
              st ← rfold visit_dependent ds (in_degree, queue');
              kahn_loop fuel' dependents (fst st) (snd st) (sorted_names ++ [current])
          end
      end
  end.

(** The fallback loop: [if name not in sorted_names: sorted_names.append(name)]. *)
Definition append_missing (sorted_names : list string) (name : string) : list string :=
  if bool_decide (name ∈ sorted_names) then sorted_names else sorted_names ++ [name].

(** The second loop: [in_degree[name] = len(deps)]. *)
Definition in_degree_of (schema_names : list string) (dependencies : dict (list string))
  : dict Z :=
  fold_left (fun acc entry => dset (fst entry) (Z.of_nat (length (snd entry))) acc)
            dependencies
            (dict_of_pairs (map (fun name => (name, 0%Z)) schema_names)).

(** The rest of the function, from the computation of [queue] on. *)
Definition sort_from (schema_names : list string) (dependents : dict (list string))
    (in_degree : dict Z) : Result (list string) :=
  let queue := map fst (filter (fun entry => (snd entry =? 0)%Z) in_degree) in
  sorted_names ← kahn_loop (length schema_names) dependents in_degree queue [];
  if negb (Nat.eqb (length sorted_names) (length schema_names))
  then Ok (fold_left append_missing schema_names sorted_names)
  else Ok sorted_names.

Definition topological_sort_schemas (set_order : list string -> list string)
    (schemas : dict json) : Result (list string) :=
  let schema_names := dkeys schemas in
  let dependencies0 : dict (list string) :=
    dict_of_pairs (map (fun name => (name, [])) schema_names) in
  let dependents0 : dict (list string) :=
    dict_of_pairs (map (fun name => (name, [])) schema_names) in
  st ← rfold (collect_step set_order schemas) schemas (dependencies0, dependents0);
  sort_from schema_names (snd st) (in_degree_of schema_names (fst st)).

End dependencies.

(** ** utils.py *)

Module utils.

(** [re.split(r"[^A-Za-z0-9]+", value)]: the pieces between maximal runs
    of other characters; a run at either end leaves an empty piece. *)
Fixpoint re_split_go (in_sep : bool) (cur : list ascii) (s : string) : list string :=
  match s with
  | EmptyString => [Py.str_of (rev cur)]
  | String c s' =>
      if Py.is_alnum_char c then re_split_go false (c :: cur) s'
      else if in_sep then re_split_go true cur s'
      else Py.str_of (rev cur) :: re_split_go true [] s'
  end.

Definition re_split_non_alnum (value : string) : list string :=
  re_split_go false [] value.

Definition nonempty (s : string) : bool := negb (String.eqb s "").

Definition to_pascal_case (value : string) : string :=
  Py.join "" (map (fun part => Py.upper (Py.head1 part) +:+ Py.tail1 part)
                  (filter (fun part => nonempty part) (re_split_non_alnum value))).

End utils.

(** ** type_render.py *)

Module type_render.

Definition wrap_annotated (base : string) (metadata : list string) : string :=
  match metadata with
  | [] => base
  | _ => "Annotated[" +:+ base +:+ ", " +:+ Py.join ", " metadata +:+ "]"
  end.

End type_render.

(** ** types/*.py *)

(** [_format_openapi_meta], defined alike in each module of [types]. *)
Definition _format_openapi_meta (meta : dict json) : string :=
  let ordered := fold_left (fun acc kv => dset (fst kv) (snd kv) acc) (sort_by_key meta) [] in
  "json_schema_extra={'openapi': " +:+ Json.repr (JDict ordered) +:+ "}".

(** [Field(...)] wrapped around [base] when there is an argument. *)
Definition with_field (base : string) (field_args : list string) : string :=
  match field_args with
  | [] => base
  | _ => type_render.wrap_annotated base ["Field(" +:+ Py.join ", " field_args +:+ ")"]
  end.

(** [", ".join(repr(value) for value in values)] inside [Literal[...]]. *)
Definition literal_of (values : list json) : string :=
  "Literal[" +:+ Py.join ", " (map Json.repr values) +:+ "]".

(** [if custom: return custom]: [None] and the empty string are false. *)
Definition custom_truthy (custom : option string) : option string :=
  match custom with
  | Some s => if String.eqb s "" then None else Some s
  | None => None
  end.

Module array.

Definition convert_openapi_array_to_pydantic (schema : dict json)
    (convert_schema : json -> Result string) : Result string :=
  let items := Json.get "items" schema in
  item_type ← match items with
               | JDict _ => convert_schema items
               | _ => Ok "Any"
               end;
  let base := "list[" +:+ item_type +:+ "]" in
  let min_items := Json.get "minItems" schema in
  let max_items := Json.get "maxItems" schema in
  let field_args :=
    (if Json.is_int min_items then ["min_length=" +:+ Json.str min_items] else [])
    ++ (if Json.is_int max_items then ["max_length=" +:+ Json.str max_items] else []) in
  let meta : dict json :=
    (if Json.is_int min_items then [("minItems", min_items)] else [])
    ++ (if Json.is_int max_items then [("maxItems", max_items)] else []) in
  let field_args :=
    field_args ++ match meta with [] => [] | _ => [_format_openapi_meta meta] end in
  Ok (with_field base field_args).

End array.

Module boolean.

Definition convert_openapi_boolean_to_pydantic (reg : registry.PydanticSchemaRegistry)
    (schema : dict json) : string :=
  match custom_truthy
          (registry.get_schema_exported_variable_name_for_primitive_type reg "boolean") with
  | Some custom => custom
  | None => type_render.wrap_annotated "bool" ["Field(strict=True)"]
  end.

End boolean.

Module intersection.

Definition is_dict (v : json) : bool :=
  match v with JDict _ => true | _ => false end.

Definition convert_openapi_intersection_to_pydantic (schema : dict json)
    (convert_schema : json -> Result string) : Result string :=
  match Json.get "allOf" schema with
  | JList items =>
      parts ← rmap convert_schema (filter (fun item => is_dict item) items);
      match parts with
      | [] => Ok "Any"
      | [part] => Ok part
      | _ => Ok ("all_of(" +:+ Py.join ", " parts +:+ ")")
      end
  | _ => Ok "Any"
  end.

End intersection.

Module number.

Definition convert_openapi_number_to_pydantic (reg : registry.PydanticSchemaRegistry)
    (schema : dict json) : Result string :=
  match Json.get "enum" schema with
  | JList values => Ok (literal_of values)
  | _ =>
      let schema_type := Json.get "type" schema in
      is_prim ← Json.in_str_set schema_type ["number"; "integer"; "boolean"];
      match (if (is_prim : bool)
             then custom_truthy
                    (registry.get_schema_exported_variable_name_for_primitive_type
                       reg (Json.str schema_type))
             else None) with
      | Some custom => Ok custom
      | None =>
          let base := if Json.eq_str (Json.get "type" schema) "integer" then "int" else "float" in
          let minimum := Json.get "minimum" schema in
          let maximum := Json.get "maximum" schema in
          let field_args :=
            ["strict=True"]
            ++ (if Json.is_number minimum then ["ge=" +:+ Json.str minimum] else [])
            ++ (if Json.is_number maximum then ["le=" +:+ Json.str maximum] else []) in
          let meta : dict json :=
            (if Json.is_number minimum then [("minimum", minimum)] else [])
            ++ (if Json.is_number maximum then [("maximum", maximum)] else []) in
          let field_args :=
            field_args ++ match meta with [] => [] | _ => [_format_openapi_meta meta] end in
          Ok (type_render.wrap_annotated base ["Field(" +:+ Py.join ", " field_args +:+ ")"])
      end
  end.

End number.

Module object.

Definition convert_openapi_object_to_pydantic (schema : dict json)
    (convert_schema : json -> Result string) : Result string :=
  let properties := Json.get "properties" schema in
  let additional := Json.get "additionalProperties" schema in
  if negb (Json.truthy properties) && negb (Json.truthy additional) then Ok "dict[str, Any]"
  else
    match additional with
    | JDict _ =>
        inner ← convert_schema additional;
        Ok ("dict[str, " +:+ inner +:+ "]")
    | _ => Ok "dict[str, Any]"
    end.

End object.

Module string.

Definition is_str (v : json) : bool :=
  match v with JStr _ => true | _ => false end.

Definition convert_openapi_string_to_pydantic (reg : registry.PydanticSchemaRegistry)
    (schema : dict json) : string :=
  match Json.get "enum" schema with
  | JList values => literal_of values
  | _ =>
      (* [fmt] after the first [if]/[else]: a non-empty string or [None] *)
      let fmt : option string :=
        match Json.get "format" schema with
        | JStr f => if String.eqb f "" then None else Some f
        | _ => None
        end in
      match (match fmt with
             | Some f =>
                 custom_truthy
                   (registry.get_schema_exported_variable_name_for_string_format reg f)
             | None => None
             end) with
      | Some custom_schema => custom_schema
      | None =>
          let base :=
            match fmt with
            | Some f =>
                if String.eqb f "email" then "EmailStr"
                else if Py.str_in f ["url"; "uri"] then "AnyUrl"
                else if String.eqb f "uuid" then "UUID"
                else "str"
            | None => "str"
            end in
          let min_length := Json.get "minLength" schema in
          let max_length := Json.get "maxLength" schema in
          let pattern0 := Json.get "pattern" schema in
          let pattern_is_explicit := is_str pattern0 in
          let pattern :=
            if (match fmt with Some f => String.eqb f "color-hex" | None => false end)
               && negb pattern_is_explicit
            then JStr "^[a-fA-F0-9]{6}$" else pattern0 in
          let field_args :=
            (if String.eqb base "str" then ["strict=True"] else [])
            ++ (if Json.is_int min_length then ["min_length=" +:+ Json.str min_length] else [])
            ++ (if Json.is_int max_length then ["max_length=" +:+ Json.str max_length] else [])
            ++ (if is_str pattern then ["pattern=" +:+ Json.repr pattern] else []) in
          let meta : dict json :=
            match fmt with Some f => [("format", JStr f)] | None => [] end
            ++ (if is_str pattern && pattern_is_explicit then [("pattern", pattern)] else [])
            ++ (if Json.is_int min_length then [("minLength", min_length)] else [])
            ++ (if Json.is_int max_length then [("maxLength", max_length)] else []) in
          let field_args :=
            field_args ++ match meta with [] => [] | _ => [_format_openapi_meta meta] end in
          with_field base field_args
      end
  end.

End string.

Module union.

Definition convert_openapi_union_to_pydantic (schema : dict json)
    (convert_schema : json -> Result string) : Result string :=
  match Json.get "oneOf" schema with
  | JList items =>
      item_types ← rmap convert_schema (filter (fun item => intersection.is_dict item) items);
      match item_types with
      | [] => Ok "Any"
      | _ =>
          let union_expr :=
            match item_types with
            | [item_type] => item_type
            | _ => "Union[" +:+ Py.join ", " item_types +:+ "]"
            end in
          let discriminator := Json.get "discriminator" schema in
          let with_discriminator : option string :=
            match discriminator with
            | JDict disc =>
                match Json.get "propertyName" disc with
                | JStr property_name =>
                    if String.eqb property_name "" then None else Some property_name
                | _ => None
                end
            | _ => None
            end in
          match with_discriminator with
          | Some property_name =>
              Ok (with_field union_expr
                    ["discriminator=" +:+ Py.repr_str property_name;
                     _format_openapi_meta [("discriminator", discriminator)]])
          | None => Ok union_expr
          end
      end
  | _ => Ok "Any"
  end.

End union.

(** ** routes.py *)

Module routes.

Record RouteParameter : Type := {
  name : string;
  location : string;
  required : bool;
  schema : json
}.

(** [request_body] is [JNull] for [None]. *)
Record RouteInfo : Type := {
  path : string;
  method : string;
  parameters : list RouteParameter;
  request_body : json;
  responses : dict json
}.

Record RouteSchemaNames : Type := {
  params_schema_name : option string;
  query_schema_name : option string;
  headers_schema_name : option string;
  body_schema_name : option string;
  response_schema_name : option string
}.

Definition _to_upper_method (method : string) : string :=
  let upper := Py.upper method in
  if Py.str_in upper ["GET"; "POST"; "PUT"; "PATCH"; "DELETE"; "HEAD"; "OPTIONS"]
  then upper else "GET".

(** [value] with every character that is not alphanumeric replaced by a
    space, split at white space. *)
Definition _to_pascal_case (value : string) : string :=
  let parts :=
    Py.split_ws (Py.map_chars (fun c => if Py.is_alnum_char c then c else " "%char) value) in
  Py.join "" (map (fun part => Py.upper (Py.head1 part) +:+ Py.lower (Py.tail1 part)) parts).

Definition _generate_route_schema_name (path method suffix : string) : string :=
  let path_parts :=
    map (fun part => if Py.startswith part "{" && Py.endswith part "}"
                     then Py.slice_1_m1 part else part)
        (filter (fun part => utils.nonempty part) (Py.split path "/")) in
  let path_parts := map _to_pascal_case path_parts in
  let method_prefix := Py.head1 method +:+ Py.lower (Py.tail1 method) in
  Py.join "" (method_prefix :: path_parts ++ [suffix]).

Definition methods : list string :=
  ["get"; "post"; "put"; "patch"; "delete"; "head"; "options"].

Definition is_dict (v : json) : bool :=
  match v with JDict _ => true | _ => false end.

(** The parameters one source ([path_item.get("parameters")] or
    [operation.get("parameters")]) contributes. *)
Definition parameters_of (params_src : json) : list RouteParameter :=
  match params_src with
  | JList params =>
      omap (fun param =>
              match param with
              | JDict p =>
                  Some {| name := Json.str (Json.get_default "name" p (JStr ""));
                          location := Json.str (Json.get_default "in" p (JStr "query"));
                          required := Json.truthy (Json.get "required" p);
                          schema := Json.get_default "schema" p (JDict []) |}
              | _ => None
              end) params
  | _ => []
  end.

(** [content["application/json"]] of a request body or a response, when
    both levels are dicts. *)
Definition json_content_of (holder : dict json) : option (dict json) :=
  match Json.get "content" holder with
  | JDict content =>
      match Json.get "application/json" content with
      | JDict json_content => Some json_content
      | _ => None
      end
  | _ => None
  end.

Definition request_body_of (operation : dict json) : json :=
  match Json.get "requestBody" operation with
  | JDict rb =>
      match json_content_of rb with
      | Some json_content => Json.get_default "schema" json_content (JDict [])
      | None => JNull
      end
  | _ => JNull
  end.

Definition add_response (responses : dict json) (entry : string * json) : dict json :=
  match snd entry with
  | JDict response =>
      match json_content_of response with
      | Some json_content =>
          match Json.get "schema" json_content with
          | JNull => responses
          | schema => dset (fst entry) schema responses
          end
      | None => responses
      end
  | _ => responses
  end.

Definition responses_of (operation : dict json) : dict json :=
  match Json.get "responses" operation with
  | JDict responses_obj => fold_left add_response responses_obj []
  | _ => []
  end.

(** Body of [for method in methods] for one path item. *)
Definition route_of (path : string) (path_item : dict json) (method : string)
  : option RouteInfo :=
  match Json.get method path_item with
  | JDict operation =>
      Some {| path := path;
              method := _to_upper_method method;
              parameters := parameters_of (Json.get "parameters" path_item)
                            ++ parameters_of (Json.get "parameters" operation);
              request_body := request_body_of operation;
              responses := responses_of operation |}
  | _ => None
  end.

Definition routes_of_path (entry : string * json) : list RouteInfo :=
  match snd entry with
  | JDict path_item => omap (route_of (fst entry) path_item) methods
  | _ => []
  end.

Definition parse_openapi_paths (openapi : dict json) : list RouteInfo :=
  match Json.get "paths" openapi with
  | JDict paths => flat_map routes_of_path paths
  | _ => []
  end.

Definition has_location (loc : string) (route : RouteInfo) : bool :=
  existsb (fun p => String.eqb (location p) loc) (parameters route).

Definition generate_route_schema_names (route : RouteInfo) : RouteSchemaNames :=
  let success_statuses :=
    filter (fun status => Py.startswith status "2") (dkeys (responses route)) in
  let named (present : bool) (suffix : string) : option string :=
    if present then Some (_generate_route_schema_name (path route) (method route) suffix)
    else None in
  {| response_schema_name := named (match success_statuses with [] => false | _ => true end)
                                   "Response";
     params_schema_name := named (has_location "path" route) "Params";
     query_schema_name := named (has_location "query" route) "Query";
     headers_schema_name := named (has_location "header" route) "Headers";
     body_schema_name := named (negb (Json.is_None (request_body route))) "Body" |}.

End routes.

(** ** to_python.py *)

Module to_python.

Import schema_dedup.

Definition _VALID_IDENTIFIER_CHARS : string :=
  "_abcdefghijklmnopqrstuvwxyzABCDEFGHIJKLMNOPQRSTUVWXYZ0123456789".

Definition ref_prefix : string := "#/components/schemas/".

(** [ref.split(prefix)[1]]: a text that starts with [prefix] splits into at
    least two pieces. *)
Definition _decode_ref_name (ref : string) : string :=
  if Py.startswith ref ref_prefix
  then Py.unquote (nth 1 (Py.split ref ref_prefix) "")
  else ref.

Definition _wrap_nullable (expr : string) (schema : dict json) : string :=
  if Json.is_True (Json.get "nullable" schema) then "Optional[" +:+ expr +:+ "]" else expr.

(** [_schema_to_type_expr]; the converters receive the function itself as
    [convert_schema], here with one unit of [fuel] less. *)
Fixpoint schema_to_type_expr_fuel (reg : registry.PydanticSchemaRegistry) (fuel : nat)
    (schema : json) : Result string :=
  match fuel with
  | O => Raise OutOfFuel
  | S fuel' =>
      let convert_schema := schema_to_type_expr_fuel reg fuel' in
      match schema with
      | JDict d =>
          match Json.get "$ref" d with
          | JStr ref =>
              if negb (Py.startswith ref ref_prefix) then Ok (_wrap_nullable "Any" d)
              else Ok (_wrap_nullable (_decode_ref_name ref) d)
          | _ =>
          match Json.get "oneOf" d with
          | JList _ =>
              expr ← union.convert_openapi_union_to_pydantic d convert_schema;
              Ok (_wrap_nullable expr d)
          | _ =>
          match Json.get "allOf" d with
          | JList _ =>
              expr ← intersection.convert_openapi_intersection_to_pydantic d convert_schema;
              Ok (_wrap_nullable expr d)
          | _ =>
          let schema_type := Json.get "type" d in
          if Json.eq_str schema_type "string" then
            Ok (_wrap_nullable (string.convert_openapi_string_to_pydantic reg d) d)
          else
            is_num ← Json.in_str_set schema_type ["number"; "integer"];
            if (is_num : bool) then
              expr ← number.convert_openapi_number_to_pydantic reg d;
              Ok (_wrap_nullable expr d)
            else if Json.eq_str schema_type "boolean" then
              Ok (_wrap_nullable (boolean.convert_openapi_boolean_to_pydantic reg d) d)
            else if Json.eq_str schema_type "array" then
              expr ← array.convert_openapi_array_to_pydantic d convert_schema;
              Ok (_wrap_nullable expr d)
            else if Json.eq_str schema_type "object" || dhas "properties" d then
              expr ← object.convert_openapi_object_to_pydantic d convert_schema;
              Ok (_wrap_nullable expr d)
            else
              match Json.get "enum" d with
              | JList values => Ok (_wrap_nullable (literal_of values) d)
              | _ => Ok (_wrap_nullable "Any" d)
              end
          end end end
      | _ => Ok "Any"
      end
  end.

Definition _schema_to_type_expr (reg : registry.PydanticSchemaRegistry) (schema : json)
  : Result string :=
  schema_to_type_expr_fuel reg (S (Json.depth schema)) schema.

Definition is_object_like (d : dict json) : bool :=
  Json.eq_str (Json.get "type" d) "object" || dhas "properties" d.

Definition _is_freeform_object (schema : json) : bool :=
  match schema with
  | JDict d =>
      if negb (is_object_like d) then false
      else negb (Json.truthy (Json.get "properties" d))
           && negb (Json.is_False (Json.get "additionalProperties" d))
  | _ => false
  end.

Definition _should_inline_object_model (schema : json) : bool :=
  match schema with
  | JDict d =>
      if Json.truthy (Json.get "$ref" d) || Json.truthy (Json.get "oneOf" d)
         || Json.truthy (Json.get "allOf" d) then false
      else if negb (is_object_like d) then false
      else if _is_freeform_object schema then false
      else true
  | _ => false
  end.

(** Body of the loop of [_extract_inline_object_models]; the state is
    [(nested_lines, updated_props)], [emit] is [_emit_schema_definition]. *)
Definition inline_property (emit : string -> json -> Result (list string))
    (parent_name : string) (st : list string * dict json) (prop : string * json)
  : Result (list string * dict json) :=
  if negb (_should_inline_object_model (snd prop)) then Ok st
  else
    let nested_name := parent_name +:+ utils.to_pascal_case (fst prop) in
    lines ← emit nested_name (snd prop);
    let ref_schema : dict json :=
      ("$ref", JStr (ref_prefix +:+ nested_name))
      :: match snd prop with
         | JDict p => if Json.is_True (Json.get "nullable" p)
                      then [("nullable", JBool true)] else []
         | _ => []
         end in
    Ok (fst st ++ lines, dset (fst prop) (JDict ref_schema) (snd st)).

Definition _extract_inline_object_models (emit : string -> json -> Result (list string))
    (parent_name : string) (schema : json) : Result (list string * json) :=
  match schema with
  | JDict d =>
      match Json.get "properties" d with
      | JDict properties =>
          st ← rfold (inline_property emit parent_name) properties ([], properties);
          if Json.eqb (JDict (snd st)) (JDict properties) then Ok (fst st, schema)
          else Ok (fst st, JDict (dset "properties" (JDict (snd st)) d))
      | _ => Ok ([], schema)
      end
  | _ => Ok ([], schema)
  end.

Definition _sanitize_identifier (name : string) : string :=
  let result :=
    Py.map_chars (fun ch => if Py.char_in ch _VALID_IDENTIFIER_CHARS then ch else "_"%char)
                 name in
  let result :=
    if utils.nonempty result && Py.isupper (Py.head1 result) && Py.islower (Py.tail1 result)
    then Py.lower (Py.head1 result) +:+ Py.tail1 result else result in
  let result :=
    if negb (utils.nonempty result) || Py.isdigit (Py.head1 result)
    then "_" +:+ result else result in
  if Py.iskeyword result then result +:+ "_" else result.

(** [while f"{name}_{index}" in used: index += 1]. *)
Fixpoint free_index (fuel : nat) (name : string) (used : list string) (index : nat)
  : Result nat :=
  if Py.str_in (name +:+ "_" +:+ pretty index) used then
    match fuel with
    | O => Raise OutOfFuel
    | S fuel' => free_index fuel' name used (S index)
    end
  else Ok index.

(** Returns the name and the updated set [used]. *)
Definition _dedupe_name (name : string) (used : list string) : Result (string * list string) :=
  if negb (Py.str_in name used) then Ok (name, name :: used)
  else
    index ← free_index (length used) name used 2;
    let deduped := name +:+ "_" +:+ pretty (index : nat) in
    Ok (deduped, deduped :: used).

(** [set(v)] followed only by tests [prop_name in required] on strings:
    the strings of the set.  [set] raises [TypeError] on what cannot be
    iterated and on elements that cannot be hashed. *)
Definition set_of_strings (v : json) : Result (list string) :=
  match v with
  | JList items =>
      if forallb Json.hashable items
      then Ok (omap (fun item => match item with JStr s => Some s | _ => None end) items)
      else Raise TypeError
  | JStr s => Ok (map (fun c => String c "") (Py.chars s))
  | JDict d => Ok (dkeys d)
  | _ => Raise TypeError
  end.

(** Body of the loop over [properties.items()]; the state is
    [(alias_used, field_lines, used_names)]. *)
Definition model_field (reg : registry.PydanticSchemaRegistry) (required : list string)
    (st : bool * list string * list string) (prop : string * json)
  : Result (bool * list string * list string) :=
  let '(alias_used, field_lines, used_names) := st in
  let prop_name := fst prop in
  deduped ← _dedupe_name (_sanitize_identifier prop_name) used_names;
  let attr_name := fst (deduped : string * list string) in
  (* [alias] is [prop_name] or [None]; [if alias:] also rejects the empty name *)
  let alias : bool := negb (String.eqb attr_name prop_name) && utils.nonempty prop_name in
  type_expr ← _schema_to_type_expr reg (snd prop);
  let is_required := Py.str_in prop_name required in
  let default_expr :=
    if is_required then
      if alias then " = Field(alias=" +:+ Py.repr_str prop_name +:+ ")" else ""
    else
      if alias then " = Field(default=None, alias=" +:+ Py.repr_str prop_name +:+ ")"
      else " = None" in
  Ok (alias_used || alias,
      field_lines ++ ["    " +:+ attr_name +:+ ": " +:+ type_expr +:+ default_expr],
      snd deduped).

(** [base_classes] is [[]] for [None]. *)
Definition _generate_model_lines (reg : registry.PydanticSchemaRegistry) (name : string)
    (schema : json) (base_classes : list string) : Result (list string) :=
  let properties := match schema with JDict d => Json.get "properties" d | _ => JNull end in
  required ← match schema with
              | JDict d => set_of_strings (Json.get_default "required" d (JList []))
              | _ => Ok []
              end;
  let additional :=
    match schema with JDict d => Json.get "additionalProperties" d | _ => JNull end in
  let bases := match base_classes with [] => ["BaseModel"] | _ => base_classes end in
  let lines := ["class " +:+ name +:+ "(" +:+ Py.join ", " bases +:+ "):"] in
  st ← match properties with
        | JDict props => rfold (model_field reg required) props (false, [], [])
        | _ => Ok (false, [], [])
        end;
  let '(alias_used, field_lines, _) := (st : bool * list string * list string) in
  let config_args :=
    (if alias_used then ["populate_by_name=True"] else [])
    ++ (if Json.is_False additional then ["extra='forbid'"] else []) in
  let lines :=
    lines ++ match config_args with
             | [] => []
             | _ => ["    model_config = ConfigDict(" +:+ Py.join ", " config_args +:+ ")"]
             end in
  Ok (lines ++ match field_lines with [] => ["    pass"] | _ => field_lines end).

(** State of the loop over [schema["allOf"]]. *)
Record AllOfParts : Type := {
  base_classes : list string;
  inline_properties : dict json;
  inline_required : list json;
  additional_properties_false : bool;
  non_object_part : bool
}.

Definition add_required (inline_required : list json) (item : json) : list json :=
  if existsb (Json.eqb item) inline_required then inline_required
  else inline_required ++ [item].

Definition all_of_part (st : AllOfParts) (part : json) : AllOfParts :=
  match part with
  | JDict p =>
      match Json.get "$ref" p with
      | JStr ref =>
          {| base_classes := base_classes st ++ [_decode_ref_name ref];
             inline_properties := inline_properties st;
             inline_required := inline_required st;
             additional_properties_false := additional_properties_false st;
             non_object_part := non_object_part st |}
      | _ =>
          if is_object_like p then
            {| base_classes := base_classes st;
               inline_properties :=
                 match Json.get "properties" p with
                 | JDict props => dupdate (inline_properties st) props
                 | _ => inline_properties st
                 end;
               inline_required :=
                 match Json.get "required" p with
                 | JList required => fold_left add_required required (inline_required st)
                 | _ => inline_required st
                 end;
               additional_properties_false :=
                 additional_properties_false st
                 || Json.is_False (Json.get "additionalProperties" p);
               non_object_part := non_object_part st |}
          else
            {| base_classes := base_classes st;
               inline_properties := inline_properties st;
               inline_required := inline_required st;
               additional_properties_false := additional_properties_false st;
               non_object_part := true |}
      end
  | _ => st
  end.

(** [lines.insert(1, x)]. *)
Definition insert_1 (x : string) (lines : list string) : list string :=
  match lines with
  | [] => [x]
  | l0 :: rest => l0 :: x :: rest
  end.

Definition model_footer (name : string) : list string :=
  [name +:+ ".model_rebuild()"; name +:+ "Schema = TypeAdapter(" +:+ name +:+ ")"; ""].

Definition type_alias_lines (name type_expr : string) : list string :=
  [name +:+ ": TypeAlias = " +:+ type_expr;
   name +:+ "Schema = TypeAdapter(" +:+ name +:+ ")"; ""].

(** The part of [_emit_schema_definition] after the [allOf] branch. *)
Definition emit_plain (reg : registry.PydanticSchemaRegistry)
    (emit : string -> json -> Result (list string)) (name : string) (schema : json)
  : Result (list string) :=
  if _is_freeform_object schema then Ok (type_alias_lines name "dict[str, Any]")
  else if (match schema with JDict d => is_object_like d | _ => false end) then
    extracted ← _extract_inline_object_models emit name schema;
    model_lines ← _generate_model_lines reg name (snd (extracted : list string * json)) [];
    Ok (fst extracted ++ model_lines ++ model_footer name)
  else
    type_expr ← _schema_to_type_expr reg schema;
    Ok (type_alias_lines name type_expr).

Fixpoint emit_schema_definition_fuel (reg : registry.PydanticSchemaRegistry) (fuel : nat)
    (name : string) (schema : json) : Result (list string) :=
  match fuel with
  | O => Raise OutOfFuel
  | S fuel' =>
      let emit := emit_schema_definition_fuel reg fuel' in
      match (match schema with JDict d => Json.get "allOf" d | _ => JNull end) with
      | JList all_of =>
          let parts :=
            fold_left all_of_part all_of
                      {| base_classes := []; inline_properties := []; inline_required := [];
                         additional_properties_false := false; non_object_part := false |} in
          if negb (non_object_part parts) then
            let merged_schema :=
              JDict ([("type", JStr "object");
                      ("properties", JDict (inline_properties parts));
                      ("required", JList (inline_required parts))]
                     ++ (if additional_properties_false parts
                         then [("additionalProperties", JBool false)] else [])) in
            extracted ← _extract_inline_object_models emit name merged_schema;
            model_lines ← _generate_model_lines reg name
                            (snd (extracted : list string * json)) (base_classes parts);
            let model_lines :=
              insert_1 ("    __openapi_allof__ = " +:+ Json.repr (JList all_of)) model_lines in
            Ok (fst extracted ++ model_lines ++ model_footer name)
          else emit_plain reg emit name schema
      | _ => emit_plain reg emit name schema
      end
  end.

Definition _emit_schema_definition (reg : registry.PydanticSchemaRegistry) (name : string)
    (schema : json) : Result (list string) :=
  emit_schema_definition_fuel reg (S (Json.depth schema)) name schema.

Definition _emit_schema_alias (name canonical : string) : list string :=
  [name +:+ " = " +:+ canonical; name +:+ "Schema = " +:+ canonical +:+ "Schema"].

(** The version of this module ([routes.py] has another): [method[0]]
    raises [IndexError] on an empty method. *)
Definition _generate_route_schema_name (path method suffix : string) : Result string :=
  let parts :=
    map (fun segment => Py.replace (Py.replace (Py.strip segment "{}") "-" " ") "_" " ")
        (filter (fun segment => utils.nonempty segment) (Py.split path "/")) in
  let pascal_parts :=
    map (fun part => Py.join "" (map Py.capitalize (Py.split_ws part))) parts in
  match method with
  | EmptyString => Raise IndexError
  | _ =>
      let method_prefix := Py.head1 method +:+ Py.lower (Py.tail1 method) in
      Ok (Py.join "" (method_prefix :: pascal_parts ++ [suffix]))
  end.

(** The name derived for the response of [route] under [status_code]. *)
Definition response_schema_name_of (route : routes.RouteInfo) (status_code : string)
  : Result string :=
  let suffix := if Py.startswith status_code "2" then "Response" else "ErrorResponse" in
  _generate_route_schema_name (routes.path route) (routes.method route)
                              (status_code +:+ suffix).

Definition collect_response (route : routes.RouteInfo) (collected : list NamedSchema)
    (entry : string * json) : Result (list NamedSchema) :=
  if negb (Json.truthy (snd entry)) then Ok collected
  else
    response_schema_name ← response_schema_name_of route (fst entry);
    Ok (collected ++ [{| ns_name := response_schema_name; ns_schema := snd entry |}]).

Definition _collect_route_schemas (routes : list routes.RouteInfo)
  : Result (list NamedSchema) :=
  rfold (fun collected route => rfold (collect_response route) (routes.responses route) collected)
        routes [].

(** One element of the argument of [_build_openapi_object_schema]. *)
Record Param : Type := {
  p_name : string;
  p_schema : json;
  p_required : bool
}.

Definition _build_openapi_object_schema (params : list Param) : json :=
  JDict [("type", JStr "object");
         ("properties", JDict (dict_of_pairs (map (fun p => (p_name p, p_schema p)) params)));
         ("required", JList (map (fun p => JStr (p_name p))
                                 (filter (fun p => p_required p) params)))].

(** What [_generate_route_schemas] mutates: the fingerprint registry and
    its two locals. *)
Record RouteGen : Type := {
  gen_registry : SchemaRegistry;
  declarations : list string;
  schema_name_to_canonical : dict string
}.

Definition register_and_emit (reg : registry.PydanticSchemaRegistry) (st : RouteGen)
    (schema_name : string) (schema : json) : Result RouteGen :=
  let '(registry', result) := register_schema (gen_registry st) schema_name schema in
  let canonical := dset schema_name (canonical_name result) (schema_name_to_canonical st) in
  if is_new result then
    lines ← _emit_schema_definition reg schema_name schema;
    Ok {| gen_registry := registry';
          declarations := declarations st ++ lines;
          schema_name_to_canonical := canonical |}
  else if negb (String.eqb schema_name (canonical_name result)) then
    Ok {| gen_registry := registry';
          declarations :=
            declarations st ++ _emit_schema_alias schema_name (canonical_name result) ++ [""];
          schema_name_to_canonical := canonical |}
  else
    Ok {| gen_registry := registry';
          declarations := declarations st;
          schema_name_to_canonical := canonical |}.

Definition params_at (loc : string) (route : routes.RouteInfo) : list routes.RouteParameter :=
  filter (fun p => String.eqb (routes.location p) loc) (routes.parameters route).

(** [names.x_schema_name and params]: the name when both are true. *)
Definition name_if (schema_name : option string) (present : bool) : option string :=
  match schema_name with
  | Some n => if utils.nonempty n && present then Some n else None
  | None => None
  end.

Definition nonempty_list {A} (l : list A) : bool :=
  match l with [] => false | _ => true end.

Definition register_response (reg : registry.PydanticSchemaRegistry)
    (route : routes.RouteInfo) (st : RouteGen) (entry : string * json) : Result RouteGen :=
  if negb (Json.truthy (snd entry)) then Ok st
  else
    response_schema_name ← response_schema_name_of route (fst entry);
    register_and_emit reg st response_schema_name (snd entry).

(** Body of the loop of [_generate_route_schemas]. *)
Definition generate_route (reg : registry.PydanticSchemaRegistry) (st : RouteGen)
    (route : routes.RouteInfo) : Result RouteGen :=
  let names := routes.generate_route_schema_names route in
  let path_params := params_at "path" route in
  let query_params := params_at "query" route in
  let header_params := params_at "header" route in
  st ← match name_if (routes.params_schema_name names) (nonempty_list path_params) with
        | Some n =>
            register_and_emit reg st n
              (_build_openapi_object_schema
                 (map (fun p => {| p_name := routes.name p; p_schema := routes.schema p;
                                   p_required := true |}) path_params))
        | None => Ok st
        end;
  st ← match name_if (routes.query_schema_name names) (nonempty_list query_params) with
        | Some n =>
            register_and_emit reg st n
              (_build_openapi_object_schema
                 (map (fun p => {| p_name := routes.name p; p_schema := routes.schema p;
                                   p_required := routes.required p |}) query_params))
        | None => Ok st
        end;
  st ← match name_if (routes.headers_schema_name names) (nonempty_list header_params) with
        | Some n =>
            register_and_emit reg st n
              (_build_openapi_object_schema
                 (map (fun p => {| p_name := routes.name p; p_schema := routes.schema p;
                                   p_required := routes.required p |}) header_params))
        | None => Ok st
        end;
  st ← match name_if (routes.body_schema_name names)
                     (negb (Json.is_None (routes.request_body route))) with
        | Some n => register_and_emit reg st n (routes.request_body route)
        | None => Ok st
        end;
  rfold (register_response reg route) (routes.responses route) st.

Definition _generate_route_schemas (reg : registry.PydanticSchemaRegistry)
    (routes : list routes.RouteInfo) (registry : SchemaRegistry) : Result RouteGen :=
  rfold (generate_route reg) routes
        {| gen_registry := registry; declarations := []; schema_name_to_canonical := [] |}.

(** [d.setdefault(k, v)], for its effect on [d]. *)
Definition dsetdefault {V} (k : string) (v : V) (d : dict V) : dict V :=
  if dhas k d then d else dset k v d.

(** [d[k1][k2] = v] on a dict of dicts. *)
Definition dset2 {V} (k1 k2 : string) (v : V) (d : dict (dict V)) : dict (dict V) :=
  dset k1 (dset k2 v (default [] (dget k1 d))) d.

Definition resolve_schema_name (schema_name_to_canonical : dict string) (name : string)
  : string :=
  default name (dget name schema_name_to_canonical).

Definition request_part (canonical : dict string) (key : string)
    (schema_name : option string) (present : bool) : list (string * string) :=
  match name_if schema_name present with
  | Some n => [(key, resolve_schema_name canonical n +:+ "Schema")]
  | None => []
  end.

Definition response_entry (canonical : dict string) (route : routes.RouteInfo)
    (methods : dict (dict (dict string))) (entry : string * json)
  : Result (dict (dict (dict string))) :=
  if negb (Json.truthy (snd entry)) then Ok methods
  else
    response_schema_name ← response_schema_name_of route (fst entry);
    let by_method := default [] (dget (routes.path route) methods) in
    let by_status := default [] (dget (routes.method route) by_method) in
    Ok (dset (routes.path route)
             (dset (routes.method route)
                   (dset (fst entry)
                         (resolve_schema_name canonical response_schema_name +:+ "Schema")
                         by_status)
                   by_method)
             methods).

(** Body of the first loop of [_generate_request_response_objects]; the
    state is [(request_paths, response_paths)]. *)
Definition table_route (canonical : dict string)
    (st : dict (dict (list (string * string))) * dict (dict (dict string)))
    (route : routes.RouteInfo)
  : Result (dict (dict (list (string * string))) * dict (dict (dict string))) :=
  let names := routes.generate_route_schema_names route in
  let request_paths := dsetdefault (routes.path route) [] (fst st) in
  let request_paths :=
    dset (routes.path route)
         (dsetdefault (routes.method route) [] (default [] (dget (routes.path route) request_paths)))
         request_paths in
  let request_parts :=
    request_part canonical "params" (routes.params_schema_name names)
                 (nonempty_list (params_at "path" route))
    ++ request_part canonical "query" (routes.query_schema_name names)
                    (nonempty_list (params_at "query" route))
    ++ request_part canonical "headers" (routes.headers_schema_name names)
                    (nonempty_list (params_at "header" route))
    ++ request_part canonical "body" (routes.body_schema_name names)
                    (negb (Json.is_None (routes.request_body route))) in
  let request_paths :=
    match request_parts with
    | [] => request_paths
    | _ => dset2 (routes.path route) (routes.method route) request_parts request_paths
    end in
  let response_paths := dsetdefault (routes.path route) [] (snd st) in
  let response_paths :=
    dset (routes.path route)
         (dsetdefault (routes.method route) []
                      (default [] (dget (routes.path route) response_paths)))
         response_paths in
  response_paths ← rfold (response_entry canonical route) (routes.responses route)
                     response_paths;
  Ok (request_paths, response_paths).

Definition request_table_lines (request_paths : dict (dict (list (string * string))))
  : list string :=
  flat_map
    (fun path_entry =>
       let method_entries := filter (fun me => nonempty_list (snd me)) (snd path_entry) in
       match method_entries with
       | [] => []
       | _ =>
           ["    " +:+ Py.repr_str (fst path_entry) +:+ ": {"]
           ++ flat_map
                (fun me =>
                   ["        " +:+ Py.repr_str (fst me) +:+ ": {"]
                   ++ map (fun part => "            " +:+ Py.repr_str (fst part) +:+ ": "
                                       +:+ snd part +:+ ",") (snd me)
                   ++ ["        },"])
                method_entries
           ++ ["    },"]
       end)
    request_paths.

Definition response_table_lines (response_paths : dict (dict (dict string))) : list string :=
  flat_map
    (fun path_entry =>
       match snd path_entry with
       | [] => []
       | methods =>
           ["    " +:+ Py.repr_str (fst path_entry) +:+ ": {"]
           ++ flat_map
                (fun me =>
                   ["        " +:+ Py.repr_str (fst me) +:+ ": {"]
                   ++ map (fun sc => "            " +:+ Py.repr_str (fst sc) +:+ ": "
                                     +:+ snd sc +:+ ",") (snd me)
                   ++ ["        },"])
                methods
           ++ ["    },"]
       end)
    response_paths.

Definition _generate_request_response_objects (routes : list routes.RouteInfo)
    (schema_name_to_canonical : dict string) : Result (list string) :=
  tables ← rfold (table_route schema_name_to_canonical) routes ([], []);
  Ok (["Request = {"] ++ request_table_lines (fst tables) ++ ["}"; ""]
      ++ ["Response = {"] ++ response_table_lines (snd tables) ++ ["}"]).

Definition preamble : list string :=
  ["# This file was automatically generated from OpenAPI schema";
   "# Do not manually edit this file";
   "from __future__ import annotations";
   "";
   "from typing import Any, Annotated, Literal, Optional, TypeAlias, Union";
   "from datetime import date, datetime";
   "from uuid import UUID";
   "";
   "from pydantic import BaseModel, ConfigDict, Field, RootModel, TypeAdapter";
   "from pydantic import AnyUrl, EmailStr";
   "from python_zod_openapi.all_of import all_of";
   ""].

(** Body of the loop over [topological_sort_schemas(schemas)]; the state is
    [(lines, registry)]. *)
Definition emit_component (reg : registry.PydanticSchemaRegistry) (schemas : dict json)
    (st : list string * SchemaRegistry) (name : string)
  : Result (list string * SchemaRegistry) :=
  match Json.get name schemas with
  | JNull => Ok st
  | schema =>
      lines ← _emit_schema_definition reg name schema;
      Ok (fst st ++ lines,
          pre_register_schema (snd st) name (get_schema_fingerprint schema))
  end.

(** Body of the loop over [common_schemas]. *)
Definition emit_common (reg : registry.PydanticSchemaRegistry)
    (st : list string * SchemaRegistry) (common : CommonSchema)
  : Result (list string * SchemaRegistry) :=
  if bool_decide (is_Some (fingerprint_to_name (snd st) !! fingerprint common)) then Ok st
  else
    lines ← _emit_schema_definition reg (name common) (schema common);
    Ok (fst st ++ lines, pre_register_schema (snd st) (name common) (fingerprint common)).

(** The part of [openapi_to_pydantic_code] guarded by [include_routes]. *)
Definition emit_routes (reg : registry.PydanticSchemaRegistry) (openapi : dict json)
    (st : list string * SchemaRegistry) : Result (list string) :=
  let routes := routes.parse_openapi_paths openapi in
  match routes with
  | [] => Ok (fst st)
  | _ =>
      route_schema_list ← _collect_route_schemas routes;
      common_schemas ← find_common_schemas route_schema_list 2;
      st ← match common_schemas with
            | [] => Ok st
            | _ =>
                st' ← rfold (emit_common reg) common_schemas
                        (fst st ++ ["# Common Error Schemas (deduplicated)"], snd st);
                Ok (fst st' ++ [""], snd st')
            end;
      gen ← _generate_route_schemas reg routes (snd (st : list string * SchemaRegistry));
      match declarations gen with
      | [] => Ok (fst st)
      | decls =>
          tables ← _generate_request_response_objects routes (schema_name_to_canonical gen);
          Ok (fst st ++ ["# Route Schemas"] ++ decls ++ [""] ++ tables)
      end
  end.

(** [custom_import_lines] is [[]] for [None], [options] is [None] for
    [None].  [reg] is the process-wide format registry the converters
    read. *)
Definition component_schemas (openapi : dict json) : dict json :=
  match Json.get "components" openapi with
  | JDict components =>
      match Json.get "schemas" components with
      | JDict schemas => schemas
      | _ => []
      end
  | _ => []
  end.

Definition openapi_to_pydantic_code (set_order : list string -> list string)
    (reg : registry.PydanticSchemaRegistry) (openapi : dict json)
    (custom_import_lines : list string) (options : option (dict json)) : Result string :=
  let schemas := component_schemas openapi in
  let lines :=
    preamble ++ match custom_import_lines with [] => [] | _ => custom_import_lines ++ [""] end in
  order ← dependencies.topological_sort_schemas set_order schemas;
  st ← rfold (emit_component reg schemas) order (lines, create_schema_registry);
  let include_routes :=
    match options with
    | Some opts => nonempty_list opts && Json.truthy (Json.get "include_routes" opts)
    | None => false
    end in
  lines ← (if include_routes then emit_routes reg openapi st else Ok (fst st));
  Ok (Py.join (String (ascii_of_N 10) "") lines).

Definition convert_schema_to_pydantic_string (reg : registry.PydanticSchemaRegistry)
    (schema : json) : Result string :=
  _schema_to_type_expr reg schema.

End to_python.

(** * Vocabulary of the statements *)

(** A call raised. *)
Definition raises {A} (m : Result A) : Prop := exists e, m = Raise e.

(** The value of a computation that does not raise. *)
Definition value_of {A} (default : A) (m : Result A) : A :=
  match m with Ok a => a | Raise _ => default end.

(** The computation did not stop at a bound of the embedding. *)
Definition in_fuel {A} (m : Result A) : Prop := m <> Raise OutOfFuel.

(** ** Registrations *)

Module registry_spec.
Import registry.

(** No key of the registry is registered under the empty name. *)
Definition aliases_nonempty (r : PydanticSchemaRegistry) : Prop :=
  (forall k n, _string_format_to_name r !! k = Some n -> n <> "")
  /\ (forall k n, _primitive_type_to_name r !! k = Some n -> n <> "").

Definition str_items (l : list json) : list string :=
  omap (fun item => match item with JStr s => Some s | _ => None end) l.

(** The string formats a registration asks for, [None] when it is no
    string registration with a [format] or a [formats]. *)
Definition requested_formats (registration : PydanticOpenApiRegistration)
  : option (list string) :=
  if String.eqb (type registration) "string" then
    match format registration with
    | JStr f => Some [f]
    | _ => match formats registration with
           | JList l => Some (str_items l)
           | _ => None
           end
    end
  else None.

(** [key] is registered in [table] under another name than [name]. *)
Definition taken (table : gmap string string) (key name : string) : Prop :=
  exists e, table !! key = Some e /\ e <> name.

Definition format_rejected (r : PydanticSchemaRegistry) (name f : string) : Prop :=
  f ∉ SUPPORTED_STRING_FORMATS \/ taken (_string_format_to_name r) f name.

(** Every name of [table] is non-empty or is [name] itself. *)
Definition aliases_ok (table : gmap string string) (name : string) : Prop :=
  forall k e, table !! k = Some e -> e <> "" \/ e = name.

End registry_spec.

(** ** The dependency graph of the component schemas *)

Module graph.

(** The local dependency edges of the schema named [n]: [valid_deps] of its
    schema, nothing for a name that is no key. *)
Definition local_deps (set_order : list string -> list string) (schemas : dict json)
    (n : string) : list string :=
  match dget n schemas with
  | Some schema => dependencies.valid_deps set_order schemas schema
  | None => []
  end.

(** [a] depends on [b]. *)
Definition edge (deps : string -> list string) (a b : string) : Prop := b ∈ deps a.

(** [n] lies on a dependency cycle. *)
Definition on_cycle (deps : string -> list string) (n : string) : Prop :=
  tc (edge deps) n n.

(** [n] is blocked by a cycle: some chain of dependencies from [n] reaches a
    name that lies on a cycle. *)
Definition blocked (deps : string -> list string) (n : string) : Prop :=
  exists c, rtc (edge deps) n c /\ on_cycle deps c.

(** Every chain of dependencies from [n] ends. *)
Inductive grounded (deps : string -> list string) : string -> Prop :=
| grounded_intro n : (forall d, d ∈ deps n -> grounded deps d) -> grounded deps n.

(** [b] stands before [a] in [order]. *)
Definition precedes (order : list string) (b a : string) : Prop :=
  exists l1 l2 l3, order = l1 ++ b :: l2 ++ a :: l3.

(** In [order], every name stands after all its dependencies. *)
Definition deps_before (deps : string -> list string) (order : list string) : Prop :=
  forall l1 n l2, order = l1 ++ n :: l2 -> forall d, d ∈ deps n -> d ∈ l1.

(** The dependencies of [n] that are not in [sorted] yet. *)
Definition pending (deps : string -> list string) (sorted : list string) (n : string) : nat :=
  length (filter (fun d => d ∉ sorted) (deps n)).

(** The names that depend on [d], in declaration order. *)
Definition dependents_of (names : list string) (deps : string -> list string) (d : string)
  : list string :=
  filter (fun n => d ∈ deps n) names.

(** What holds whenever Kahn's loop tests its condition. *)
Record kahn_inv (names : list string) (deps : string -> list string)
    (in_degree : dict Z) (queue sorted : list string) : Prop := {
  inv_keys : dkeys in_degree = names;
  inv_nodup : NoDup (sorted ++ queue);
  inv_names : forall n, n ∈ sorted ++ queue -> n ∈ names;
  inv_degree : forall n, n ∈ names ->
                         dget n in_degree = Some (Z.of_nat (pending deps sorted n));
  inv_ready : forall n, n ∈ names -> (n ∈ sorted ++ queue <-> pending deps sorted n = 0);
  inv_order : deps_before deps sorted
}.

(** What the loop leaves in [sorted_names]. *)
Record kahn_result (names : list string) (deps : string -> list string)
    (emitted : list string) : Prop := {
  res_nodup : NoDup emitted;
  res_names : forall n, n ∈ emitted -> n ∈ names;
  res_closed : forall n, n ∈ names -> (n ∈ emitted <-> forall d, d ∈ deps n -> d ∈ emitted);
  res_order : deps_before deps emitted
}.

(** A chain of dependencies: each name depends on the next. *)
Fixpoint chain (deps : string -> list string) (x : string) (l : list string) : Prop :=
  match l with
  | [] => True
  | y :: l' => edge deps x y /\ chain deps y l'
  end.

End graph.

(** ** Shared response schemas *)

Module hoisting.
Import schema_dedup.

Definition fp_of (item : NamedSchema) : string := get_schema_fingerprint (ns_schema item).

(** The items of [items] whose schema has the fingerprint [fp], in order. *)
Definition group_of (fp : string) (items : list NamedSchema) : list NamedSchema :=
  filter (fun item => fp_of item = fp) items.

Definition occurrences (fp : string) (items : list NamedSchema) : nat :=
  length (group_of fp items).


(** [g] is the entry of [fingerprints] for the fingerprint [fp] after the
    items [seen]. *)
Definition group_entry (seen : list NamedSchema) (fp : string) (g : Group) : Prop :=
  exists first rest,
    group_of fp seen = first :: rest
    /\ g_schema g = ns_schema first
    /\ g_names g = map ns_name (first :: rest)
    /\ extract_error_code (ns_schema first) = Ok (g_error_code g).

Definition groups_inv (fingerprints : dict Group) (seen : list NamedSchema) : Prop :=
  NoDup (dkeys fingerprints)
  /\ forall fp, match dget fp fingerprints with
                | Some g => group_entry seen fp g
                | None => group_of fp seen = []
                end.

(** Every entry of [r] is an entry of [r']. *)
Definition extends (r r' : SchemaRegistry) : Prop :=
  forall fp n, fingerprint_to_name r !! fp = Some n -> fingerprint_to_name r' !! fp = Some n.

(** Every canonical name of the registry is a non-empty string. *)
Definition names_nonempty (r : SchemaRegistry) : Prop :=
  forall fp n, fingerprint_to_name r !! fp = Some n -> n <> "".







End hoisting.

(** * Documents and registrations used as examples *)

Definition email_registration : registry.PydanticOpenApiRegistration :=
  {| registry.schema_exported_variable_name := "EmailAlias";
     registry.type := "string";
     registry.format := JStr "email";
     registry.formats := JNull;
     registry.description := JNull |}.

Definition email_schema : dict json := [("type", JStr "string"); ("format", JStr "email")].

Definition string_schema : json := JDict [("type", JStr "string")].
Definition integer_schema : json := JDict [("type", JStr "integer")].

(** [{"paths": {"/x": {"trace": {}}}}]. *)
Definition trace_doc : dict json :=
  [("paths", JDict [("/x", JDict [("trace", JDict [])])])].

(** [{"paths": {"/x": {"get": {}}}}]. *)
Definition get_doc : dict json :=
  [("paths", JDict [("/x", JDict [("get", JDict [])])])].

(** [{"type": "object", "properties": {"a": {"type": "string"}}, "required": 5}]. *)
Definition required_5_schema : json :=
  JDict [("type", JStr "object");
         ("properties", JDict [("a", string_schema)]);
         ("required", JInt 5)].

(** The same object inside [allOf], the branch that tests
    [isinstance(required, list)]. *)
Definition required_5_all_of : json := JDict [("allOf", JList [required_5_schema])].

Definition required_5_doc : dict json :=
  [("components", JDict [("schemas", JDict [("X", required_5_schema)])])].

(** [{"type": ["string", "null"]}]. *)
Definition type_list_schema : json :=
  JDict [("type", JList [JStr "string"; JStr "null"])].

(** One [get] operation whose 200 response has the schema [true]. *)
Definition boolean_response_doc : dict json :=
  [("paths",
    JDict [("/a",
            JDict [("get",
                    JDict [("responses",
                            JDict [("200",
                                    JDict [("content",
                                            JDict [("application/json",
                                                    JDict [("schema", JBool true)])])])])])])])].

Definition include_routes : option (dict json) := Some [("include_routes", JBool true)].

Definition default_email_type : string :=
  "Annotated[EmailStr, Field(json_schema_extra={'openapi': {'format': 'email'}})]".

Definition hostname_registration : registry.PydanticOpenApiRegistration :=
  {| registry.schema_exported_variable_name := "HostAlias";
     registry.type := "string";
     registry.format := JStr "hostname";
     registry.formats := JNull;
     registry.description := JNull |}.

(** [{"A": ref B, "B": ref C, "C": ref C}], each reference held by a
    property of an object schema. *)
Definition ref_to (n : string) : json :=
  JDict [("type", JStr "object");
         ("properties", JDict [("x", JDict [("$ref", JStr ("#/components/schemas/" +:+ n))])])].

Definition self_loop_schemas : dict json :=
  [("A", ref_to "B"); ("B", ref_to "C"); ("C", ref_to "C")].

(** Another iteration order: last insertion first. *)
Definition reverse_order (added : list string) : list string :=
  rev (insertion_order added).

(** The schemas of [test_topological_sort_multiple_deps]: [User] refers to
    [Profile] and [Settings]. *)
Definition user_schemas : dict json :=
  [("User",
    JDict [("type", JStr "object");
           ("properties",
            JDict [("profile", JDict [("$ref", JStr "#/components/schemas/Profile")]);
                   ("settings", JDict [("$ref", JStr "#/components/schemas/Settings")])])]);
   ("Profile",
    JDict [("type", JStr "object");
           ("properties", JDict [("name", JDict [("type", JStr "string")])])]);
   ("Settings",
    JDict [("type", JStr "object");
           ("properties", JDict [("theme", JDict [("type", JStr "string")])])])].

Definition user_doc : dict json :=
  [("components", JDict [("schemas", JDict user_schemas)])].

Definition json_response (schema : json) : json :=
  JDict [("content", JDict [("application/json", JDict [("schema", schema)])])].


(** The 401 schema of [test_dedup_common_error_responses]. *)
Definition unauthorized_error : json :=
  JDict [("type", JStr "object");
         ("properties",
          JDict [("error",
                  JDict [("type", JStr "object");
                         ("properties",
                          JDict [("code", JDict [("type", JStr "string");
                                                 ("enum", JList [JStr "UNAUTHORIZED"])]);
                                 ("message", string_schema)]);
                         ("required", JList [JStr "code"; JStr "message"])])]);
         ("required", JList [JStr "error"])].

Definition empty_object : json := JDict [("type", JStr "object"); ("properties", JDict [])].

(** The document of [test_dedup_common_error_responses]. *)
Definition unauthorized_doc : dict json :=
  [("components", JDict [("schemas", JDict [])]);
   ("paths",
    JDict [("/users",
            JDict [("get",
                    JDict [("responses",
                            JDict [("200", json_response empty_object);
                                   ("401", json_response unauthorized_error)])]);
                   ("post",
                    JDict [("responses",
                            JDict [("200", json_response empty_object);
                                   ("401", json_response unauthorized_error)])])])])].

Definition unauthorized_items : list schema_dedup.NamedSchema :=
  value_of [] (to_python._collect_route_schemas (routes.parse_openapi_paths unauthorized_doc)).

Definition unauthorized_common : list schema_dedup.CommonSchema :=
  value_of [] (schema_dedup.find_common_schemas unauthorized_items 2).

Definition unauthorized_hoisted : list string * schema_dedup.SchemaRegistry :=
  value_of ([], schema_dedup.create_schema_registry)
           (rfold (to_python.emit_common registry.empty_registry) unauthorized_common
                  ([], schema_dedup.create_schema_registry)).

(** * Vocabulary of the further properties *)

(** ** Documents up to the order of their keys *)

(** Every dict of the document has distinct keys, as every Python dict
    has. *)
Fixpoint distinct_keys (v : json) : Prop :=
  match v with
  | JList items =>
      (fix all (l : list json) : Prop :=
         match l with
         | [] => True
         | x :: r => distinct_keys x /\ all r
         end) items
  | JDict entries =>
      NoDup (dkeys entries)
      /\ (fix all (l : list (string * json)) : Prop :=
            match l with
            | [] => True
            | kv :: r => distinct_keys (snd kv) /\ all r
            end) entries
  | _ => True
  end.

(** The same document up to the order in which its dicts, at any depth,
    hold their entries. *)
Inductive same_document : json -> json -> Prop :=
| same_refl v : same_document v v
| same_trans a b c : same_document a b -> same_document b c -> same_document a c
| same_item x y items items' :
    same_document x y -> same_document (JList items) (JList items') ->
    same_document (JList (x :: items)) (JList (y :: items'))
| same_entry k x y entries entries' :
    same_document x y -> same_document (JDict entries) (JDict entries') ->
    same_document (JDict ((k, x) :: entries)) (JDict ((k, y) :: entries'))
| same_order entries entries' :
    entries ≡ₚ entries' -> same_document (JDict entries) (JDict entries').

(** [{"type": "object", "required": ["id"], "properties": {"id": {"type":
    "integer", "minimum": 1}}}] and the same document with the keys of both
    dicts in another order. *)
Definition id_object : json :=
  JDict [("type", JStr "object");
         ("required", JList [JStr "id"]);
         ("properties",
          JDict [("id", JDict [("type", JStr "integer"); ("minimum", JInt 1)])])].

Definition id_object_reordered : json :=
  JDict [("properties",
          JDict [("id", JDict [("minimum", JInt 1); ("type", JStr "integer")])]);
         ("type", JStr "object");
         ("required", JList [JStr "id"])].

(** ** The format registry *)

(** The lookup tables hold supported keys only. *)
Definition supported_keys (r : registry.PydanticSchemaRegistry) : Prop :=
  (forall k, is_Some (registry._string_format_to_name r !! k) ->
             k ∈ registry.SUPPORTED_STRING_FORMATS)
  /\ (forall k, is_Some (registry._primitive_type_to_name r !! k) ->
                k ∈ ["number"; "integer"; "boolean"]).


Definition integer_registration : registry.PydanticOpenApiRegistration :=
  {| registry.schema_exported_variable_name := "IntAlias";
     registry.type := "integer";
     registry.format := JNull;
     registry.formats := JNull;
     registry.description := JNull |}.


(** ** Shared schemas in order *)

(** The fingerprints of [items] in the order in which they first occur. *)
Definition first_seen_step (seen : list string) (item : schema_dedup.NamedSchema)
  : list string :=
  if bool_decide (hoisting.fp_of item ∈ seen) then seen else seen ++ [hoisting.fp_of item].

Definition first_seen (items : list schema_dedup.NamedSchema) : list string :=
  fold_left first_seen_step items [].

(** ** Python identifiers *)

Definition ident_char (c : ascii) : bool := Py.is_alnum_char c || Ascii.eqb c "_".
Definition ident_start (c : ascii) : bool := Py.is_alpha_char c || Ascii.eqb c "_".

(** [s.isidentifier()] on ASCII text: a letter or an underscore, then
    letters, digits and underscores. *)
Definition is_identifier (s : string) : bool :=
  match Py.chars s with
  | [] => false
  | c :: rest => ident_start c && forallb ident_char rest
  end.



(** ** Exceptions of a computation *)

(** [m] returns, or raises one of the exceptions [allowed]. *)
Definition only_raises {A} (allowed : list PyError) (m : Result A) : Prop :=
  forall e, m = Raise e -> e ∈ allowed.

(** The value under [type] can be hashed in every dict of the document. *)
Fixpoint hashable_types (v : json) : Prop :=
  match v with
  | JList items =>
      (fix all (l : list json) : Prop :=
         match l with
         | [] => True
         | x :: r => hashable_types x /\ all r
         end) items
  | JDict entries =>
      Json.hashable (Json.get "type" entries) = true
      /\ (fix all (l : list (string * json)) : Prop :=
            match l with
            | [] => True
            | kv :: r => hashable_types (snd kv) /\ all r
            end) entries
  | _ => True
  end.

(** [{"type": "array", "items": {"oneOf": [{"type": "string"}, {"type":
    "integer", "nullable": true}]}}]. *)
Definition array_of_union : json :=
  JDict [("type", JStr "array");
         ("items",
          JDict [("oneOf",
                  JList [string_schema;
                         JDict [("type", JStr "integer"); ("nullable", JBool true)]])])].

(** * Properties *)

(** ** Dictionaries *)

Section dict_lemmas.
Context {V : Type}.
Implicit Types (d : dict V) (k : string) (v : V).

Lemma dget_dset_eq k v d : dget k (dset k v d) = Some v.
Proof.
  induction d as [|[k' v'] d IH]; simpl.
  - by rewrite String.eqb_refl.
  - destruct (String.eqb k k') eqn:E; simpl.
    + by rewrite String.eqb_refl.
    + by rewrite E.
Qed.

Lemma dget_dset_ne k k' v d : k <> k' -> dget k' (dset k v d) = dget k' d.
Proof.
  intros Hne. induction d as [|[k0 v0] d IH]; simpl.
  - destruct (String.eqb_spec k' k); congruence.
  - destruct (String.eqb_spec k k0) as [->|Hk]; simpl.
    + destruct (String.eqb_spec k' k0); congruence.
    + destruct (String.eqb_spec k' k0); congruence.
Qed.

Lemma dget_Some_elem k v d : dget k d = Some v -> (k, v) ∈ d.
Proof.
  induction d as [|[k' v'] d IH]; simpl; [done|].
  destruct (String.eqb_spec k k') as [->|Hk].
  - intros [= ->]. apply list_elem_of_here.
  - intros H. apply list_elem_of_further. auto.
Qed.

Lemma dget_is_Some k d : is_Some (dget k d) <-> k ∈ dkeys d.
Proof.
  unfold dkeys. induction d as [|[k' v'] d IH]; simpl.
  - split; [intros [? [=]]|intros H; inversion H].
  - destruct (String.eqb_spec k k') as [->|Hk].
    + split; [intros _; apply list_elem_of_here|eauto].
    + rewrite IH. split; [apply list_elem_of_further|].
      intros H. inversion H; subst; congruence.
Qed.

Lemma dget_None k d : dget k d = None <-> k ∉ dkeys d.
Proof.
  rewrite <- dget_is_Some. destruct (dget k d) as [v|].
  - split; [done|]. intros H. exfalso. apply H. eauto.
  - split; [|done]. intros _ [? [=]].
Qed.

Lemma dhas_true k d : dhas k d = true <-> k ∈ dkeys d.
Proof.
  rewrite <- dget_is_Some. unfold dhas.
  destruct (dget k d) as [v|].
  - split; eauto.
  - split; [done|]. intros [? [=]].
Qed.

Lemma dkeys_dset_present k v d : k ∈ dkeys d -> dkeys (dset k v d) = dkeys d.
Proof.
  unfold dkeys. induction d as [|[k' v'] d IH]; simpl.
  - intros H. inversion H.
  - intros H. destruct (String.eqb_spec k k') as [->|Hk]; simpl; [done|].
    f_equal. apply IH. inversion H; subst; congruence.
Qed.

Lemma dkeys_dset_absent k v d : k ∉ dkeys d -> dkeys (dset k v d) = dkeys d ++ [k].
Proof.
  unfold dkeys. induction d as [|[k' v'] d IH]; simpl; [done|].
  intros H. destruct (String.eqb_spec k k') as [->|Hk]; simpl.
  - exfalso. apply H. apply list_elem_of_here.
  - f_equal. apply IH. intros Hin. apply H. by apply list_elem_of_further.
Qed.

(** With distinct keys, [d[k] = v] on a present key rewrites that one
    entry. *)
Lemma dset_map k v d :
  NoDup (dkeys d) -> k ∈ dkeys d ->
  dset k v d = map (fun e => if String.eqb k (fst e) then (k, v) else e) d.
Proof.
  unfold dkeys. induction d as [|[k' v'] d IH]; simpl.
  - intros _ H. inversion H.
  - intros Hnd Hin. apply NoDup_cons in Hnd as [Hk' Hnd].
    destruct (String.eqb_spec k k') as [->|Hk].
    + f_equal. clear IH Hin Hnd. induction d as [|[k0 v0] d IH]; simpl; [done|].
      destruct (String.eqb_spec k' k0) as [->|Hk0].
      * exfalso. apply Hk'. apply list_elem_of_here.
      * f_equal. apply IH. intros H. apply Hk'. by apply list_elem_of_further.
    + f_equal. apply IH; [done|]. inversion Hin; subst; congruence.
Qed.

Lemma dget_map_keys {W} (f : string -> W) (l : list string) k :
  k ∈ l -> dget k (map (fun n => (n, f n)) l) = Some (f k).
Proof.
  induction l as [|n l IH]; simpl.
  - intros H. inversion H.
  - intros H. destruct (String.eqb_spec k n) as [->|Hk]; [done|].
    apply IH. inversion H; subst; congruence.
Qed.

Lemma dict_of_pairs_nodup (l : list (string * V)) :
  NoDup (map fst l) -> dict_of_pairs l = l.
Proof.
  unfold dict_of_pairs, dupdate.
  assert (Hgen : forall acc : dict V,
             NoDup (map fst (acc ++ l)) ->
             fold_left (fun acc kv => dset (fst kv) (snd kv) acc) l acc = acc ++ l).
  { induction l as [|[k v] l IH]; intros acc Hnd; simpl.
    - by rewrite app_nil_r.
    - rewrite IH.
      + replace (dset k v acc) with (acc ++ [(k, v)]); [by rewrite <- app_assoc|].
        assert (Hk : k ∉ dkeys acc).
        { unfold dkeys. rewrite map_app in Hnd. apply NoDup_app in Hnd as (_ & Hd & _).
          intros Hin. apply (Hd k Hin). simpl. apply list_elem_of_here. }
        clear -Hk. induction acc as [|[k' v'] acc IHa]; simpl; [done|].
        destruct (String.eqb_spec k k') as [->|Hne].
        * exfalso. apply Hk. apply list_elem_of_here.
        * f_equal. apply IHa. intros H. apply Hk. by apply list_elem_of_further.
      + assert (Hk : k ∉ dkeys acc).
        { unfold dkeys. rewrite map_app in Hnd. apply NoDup_app in Hnd as (_ & Hd & _).
          intros Hin. apply (Hd k Hin). simpl. apply list_elem_of_here. }
        replace (dset k v acc ++ l) with (acc ++ (k, v) :: l); [done|].
        rewrite (cons_middle _ acc l), app_assoc. f_equal.
        clear -Hk. induction acc as [|[k' v'] acc IHa]; simpl; [done|].
        destruct (String.eqb_spec k k') as [->|Hne].
        * exfalso. apply Hk. apply list_elem_of_here.
        * f_equal. apply IHa. intros H. apply Hk. by apply list_elem_of_further. }
  intros Hnd. apply (Hgen []). done.
Qed.

End dict_lemmas.

(** ** The format registry (registry.py, types/string.py) *)

Lemma register_email_lookup (r r' : registry.PydanticSchemaRegistry) (schema_id : nat) :
  registry.register r schema_id email_registration = (r', Ok tt) ->
  registry._string_format_to_name r' !! "email" = Some "EmailAlias".
Proof.
  unfold registry.register, email_registration. simpl.
  unfold registry._register_string_format. simpl.
  destruct (registry.conflicts _ _); [intros [=]|].
  intros [= <-]. simpl. apply lookup_insert_eq.
Qed.

Lemma string_uses_registered_alias (r : registry.PydanticSchemaRegistry) :
  registry._string_format_to_name r !! "email" = Some "EmailAlias" ->
  string.convert_openapi_string_to_pydantic r email_schema = "EmailAlias".
Proof.
  intros H. unfold string.convert_openapi_string_to_pydantic, email_schema. simpl.
  unfold registry.get_schema_exported_variable_name_for_string_format. simpl.
  by rewrite H.
Qed.

Lemma string_default_after_clear (r : registry.PydanticSchemaRegistry) :
  string.convert_openapi_string_to_pydantic (registry.clear r) email_schema
  = default_email_type.
Proof. reflexivity. Qed.

(** C8. After [email] is registered under [EmailAlias], the schema
    [{type: string, format: email}] synthesizes to [EmailAlias]; after
    [clear()] it synthesizes to the default decorated type built on
    [EmailStr]. *)
Theorem format_round_trip (r r' : registry.PydanticSchemaRegistry) (schema_id : nat) :
  registry.register r schema_id email_registration = (r', Ok tt) ->
  string.convert_openapi_string_to_pydantic r' email_schema = "EmailAlias"
  /\ to_python._schema_to_type_expr r' (JDict email_schema) = Ok "EmailAlias"
  /\ string.convert_openapi_string_to_pydantic (registry.clear r') email_schema
     = default_email_type
  /\ to_python._schema_to_type_expr (registry.clear r') (JDict email_schema)
     = Ok default_email_type.
Proof.
  intros Hreg. apply register_email_lookup in Hreg.
  pose proof (string_uses_registered_alias r' Hreg) as Halias.
  split; [exact Halias|].
  split; [|split; reflexivity].
  unfold to_python._schema_to_type_expr. simpl. by rewrite Halias.
Qed.

Lemma format_round_trip_witness :
  let r' := fst (registry.register registry.empty_registry 0 email_registration) in
  string.convert_openapi_string_to_pydantic r' email_schema = "EmailAlias"
  /\ to_python._schema_to_type_expr r' (JDict email_schema) = Ok "EmailAlias"
  /\ string.convert_openapi_string_to_pydantic (registry.clear r') email_schema
     = default_email_type
  /\ to_python._schema_to_type_expr (registry.clear r') (JDict email_schema)
     = Ok default_email_type.
Proof.
  exact (format_round_trip registry.empty_registry _ 0 eq_refl).
Defined.

(** ** The type-expression synthesizer (to_python.py) *)

(** C5 (the code differs). [_schema_to_type_expr] never reads [anyOf]: a
    schema that only has [anyOf] synthesizes to [Any] whatever its members
    are, while the same members under [oneOf] give their union. *)
Theorem anyOf_synthesizes_to_Any (reg : registry.PydanticSchemaRegistry)
    (members : list json) :
  to_python._schema_to_type_expr reg (JDict [("anyOf", JList members)]) = Ok "Any"
  /\ to_python._schema_to_type_expr registry.empty_registry
       (JDict [("oneOf", JList [string_schema; integer_schema])])
     = Ok "Union[Annotated[str, Field(strict=True)], Annotated[int, Field(strict=True)]]".
Proof. split; reflexivity. Qed.

(** C7 (the code differs). A [required] that is no list makes
    [_generate_model_lines] raise [TypeError] ([set(5)]), and with it the
    whole compilation; the [allOf] branch of [_emit_schema_definition] tests
    [isinstance(required, list)] and accepts the same object.  A [type]
    that is a list raises [TypeError] in [_schema_to_type_expr] (a list is
    hashed), and a response schema that is no dict raises
    [AttributeError] in [extract_error_code]. *)
Theorem malformed_input_raises (reg : registry.PydanticSchemaRegistry) (name : string) :
  to_python._generate_model_lines reg name required_5_schema [] = Raise TypeError
  /\ to_python.openapi_to_pydantic_code insertion_order registry.empty_registry
       required_5_doc [] None = Raise TypeError
  /\ is_ok (to_python._emit_schema_definition registry.empty_registry "X" required_5_all_of)
     = true
  /\ to_python._schema_to_type_expr reg type_list_schema = Raise TypeError
  /\ to_python.openapi_to_pydantic_code insertion_order registry.empty_registry
       boolean_response_doc [] include_routes = Raise AttributeError.
Proof. repeat split; vm_compute; reflexivity. Qed.

(** ** The route extractor (routes.py) *)

Lemma _to_upper_method_verbs (m : string) :
  m ∈ routes.methods -> routes._to_upper_method m = Py.upper m.
Proof.
  unfold routes.methods. rewrite !elem_of_cons, elem_of_nil.
  intros H. repeat destruct H as [->|H]; try reflexivity. destruct H.
Qed.

Lemma omap_ext_elem {A B} (f g : A -> option B) (l : list A) :
  (forall x, x ∈ l -> f x = g x) -> omap f l = omap g l.
Proof.
  induction l as [|x l IH]; intros H; [done|].
  cbn. rewrite (H x) by apply list_elem_of_here.
  rewrite IH; [done|]. intros y Hy. apply H. by apply list_elem_of_further.
Qed.

Lemma dget_dset_other (k k' : string) (v : json) (d : dict json) :
  k <> k' -> Json.get k' (dset k v d) = Json.get k' d.
Proof. intros H. unfold Json.get. by rewrite dget_dset_ne. Qed.

(** C6, counterexample. An operation under [trace] is in the document and
    no [RouteInfo] comes out at all, so none with method [GET]. *)
Lemma unrecognized_verb_counterexample :
  Json.get "paths" trace_doc = JDict [("/x", JDict [("trace", JDict [])])]
  /\ ("trace" ∉ routes.methods)
  /\ routes.parse_openapi_paths trace_doc = [].
Proof.
  split; [reflexivity|]. split; [|reflexivity].
  unfold routes.methods. rewrite !elem_of_cons, elem_of_nil.
  intros H. repeat destruct H as [H|H]; try discriminate H. destruct H.
Qed.

(** C6, amended. Every [RouteInfo] comes from an operation object under one
    of the seven verb keys of its path item and carries that verb in upper
    case; what a path item holds under any other key (but [parameters],
    which is read for the parameters) changes nothing. *)
Theorem routes_only_under_verbs (openapi : dict json) :
  (forall r, r ∈ routes.parse_openapi_paths openapi ->
     exists paths path_item m operation,
       Json.get "paths" openapi = JDict paths
       /\ (routes.path r, JDict path_item) ∈ paths
       /\ m ∈ routes.methods
       /\ Json.get m path_item = JDict operation
       /\ routes.method r = Py.upper m)
  /\ (forall path path_item key v,
        key ∉ routes.methods -> key <> "parameters" ->
        routes.routes_of_path (path, JDict (dset key v path_item))
        = routes.routes_of_path (path, JDict path_item)).
Proof.
  split.
  - intros r. unfold routes.parse_openapi_paths.
    destruct (Json.get "paths" openapi) as [| | | | | |paths] eqn:Hp;
      try (intros H; inversion H; fail).
    intros Hin. apply list_elem_of_In, in_flat_map in Hin as ([path item] & Hentry & Hr).
    apply list_elem_of_In in Hentry, Hr. unfold routes.routes_of_path in Hr. cbn [fst snd] in Hr.
    destruct item as [| | | | | |path_item]; try (inversion Hr; fail).
    apply list_elem_of_omap in Hr as (m & Hm & Hroute).
    unfold routes.route_of in Hroute.
    destruct (Json.get m path_item) as [| | | | | |operation] eqn:Hop; try discriminate.
    injection Hroute as <-. simpl.
    exists paths, path_item, m, operation.
    repeat split; try done. by apply _to_upper_method_verbs.
  - intros path path_item key v Hkey Hparams. unfold routes.routes_of_path. cbn [fst snd].
    apply omap_ext_elem.
    intros m Hm. unfold routes.route_of.
    assert (key <> m) by (intros ->; done).
    rewrite !dget_dset_other by done. done.
Qed.

Lemma routes_only_under_verbs_witness :
  (exists paths path_item m operation,
     Json.get "paths" get_doc = JDict paths
     /\ ("/x", JDict path_item) ∈ paths
     /\ m ∈ routes.methods
     /\ Json.get m path_item = JDict operation
     /\ "GET" = Py.upper m)
  /\ routes.routes_of_path ("/x", JDict (dset "trace" (JDict []) [("get", JDict [])]))
     = routes.routes_of_path ("/x", JDict [("get", JDict [])]).
Proof.
  split.
  - apply (proj1 (routes_only_under_verbs get_doc)
                 {| routes.path := "/x"; routes.method := "GET"; routes.parameters := [];
                    routes.request_body := JNull; routes.responses := [] |}).
    vm_compute. apply list_elem_of_here.
  - apply (proj2 (routes_only_under_verbs [])).
    + unfold routes.methods. rewrite !elem_of_cons, elem_of_nil.
      intros H. repeat destruct H as [H|H]; try discriminate H. destruct H.
    + discriminate.
Defined.

(** ** The fingerprint registry (schema_dedup.py) *)

Import schema_dedup hoisting.

Lemma register_schema_absent (r : SchemaRegistry) (n : string) (s : json) :
  fingerprint_to_name r !! get_schema_fingerprint s = None ->
  register_schema r n s
  = (pre_register_schema r n (get_schema_fingerprint s),
     {| is_new := true; canonical_name := n |}).
Proof. intros H. unfold register_schema. by rewrite H. Qed.

Lemma register_schema_present (r : SchemaRegistry) (n c : string) (s : json) :
  fingerprint_to_name r !! get_schema_fingerprint s = Some c -> c <> "" ->
  register_schema r n s = (r, {| is_new := false; canonical_name := c |}).
Proof.
  intros H Hc. unfold register_schema. rewrite H. simpl.
  destruct (String.eqb_spec c ""); [done|]. reflexivity.
Qed.

Lemma register_schema_empty_name (r : SchemaRegistry) (n : string) (s : json) :
  fingerprint_to_name r !! get_schema_fingerprint s = Some "" ->
  register_schema r n s
  = (pre_register_schema r n (get_schema_fingerprint s),
     {| is_new := true; canonical_name := n |}).
Proof. intros H. unfold register_schema. by rewrite H. Qed.

(** The law of the registry for non-empty names: the first caller of a
    fingerprint is canonical, a later caller with the same fingerprint gets
    the first name back and leaves the registry as it is. *)
Lemma register_schema_first_then_later (r : SchemaRegistry) (n1 n2 : string) (s1 s2 : json) :
  fingerprint_to_name r !! get_schema_fingerprint s1 = None ->
  n1 <> "" ->
  get_schema_fingerprint s1 = get_schema_fingerprint s2 ->
  let first := register_schema r n1 s1 in
  let later := register_schema (fst first) n2 s2 in
  snd first = {| is_new := true; canonical_name := n1 |}
  /\ snd later = {| is_new := false; canonical_name := n1 |}
  /\ fst later = fst first.
Proof.
  intros Hnone Hn1 Hfp. simpl. rewrite (register_schema_absent _ _ _ Hnone). simpl.
  rewrite (register_schema_present _ n2 n1 s2); [done| |done].
  unfold pre_register_schema. simpl. rewrite <- Hfp. apply lookup_insert_eq.
Qed.

(** C3 (the code differs). [if existing:] takes an empty canonical name
    for an absent one: when the first caller's name is the empty string,
    the later caller with the same schema is new again and becomes
    canonical. *)
Theorem register_schema_empty_first_name (s : json) (later : string) :
  let first := register_schema create_schema_registry "" s in
  snd first = {| is_new := true; canonical_name := "" |}
  /\ snd (register_schema (fst first) later s)
     = {| is_new := true; canonical_name := later |}.
Proof.
  simpl. rewrite register_schema_absent by apply lookup_empty. simpl.
  split; [done|]. rewrite register_schema_empty_name; [done|].
  unfold pre_register_schema. simpl. apply lookup_insert_eq.
Qed.

(** [pre_register_schema] overwrites whatever the fingerprint maps to. *)
Lemma pre_register_schema_overwrites (r : SchemaRegistry) (n1 n2 fp : string) :
  fingerprint_to_name (pre_register_schema (pre_register_schema r n1 fp) n2 fp) !! fp
  = Some n2.
Proof. unfold pre_register_schema. simpl. apply lookup_insert_eq. Qed.

(** [register_schema] on a fingerprint that maps to a non-empty name
    leaves the registry unchanged. *)
Lemma register_schema_frame (r : SchemaRegistry) (n c : string) (s : json) :
  fingerprint_to_name r !! get_schema_fingerprint s = Some c -> c <> "" ->
  fst (register_schema r n s) = r.
Proof. intros H Hc. by rewrite (register_schema_present r n c s H Hc). Qed.

(** C10 (the code differs). A fingerprint that is present with the empty
    name is overwritten by [register_schema]: the registry maps it to the
    new caller afterwards. *)
Theorem register_schema_overwrites_empty_name (r : SchemaRegistry) (n : string) (s : json) :
  let seeded := pre_register_schema r "" (get_schema_fingerprint s) in
  fingerprint_to_name seeded !! get_schema_fingerprint s = Some ""
  /\ fingerprint_to_name (fst (register_schema seeded n s)) !! get_schema_fingerprint s
     = Some n.
Proof.
  simpl. split; [apply lookup_insert_eq|].
  rewrite register_schema_empty_name by apply lookup_insert_eq.
  apply lookup_insert_eq.
Qed.

Import registry registry_spec.

(** ** Registration errors (registry.py) *)

Lemma str_in_elem (s : string) (l : list string) : Py.str_in s l = true <-> s ∈ l.
Proof.
  unfold Py.str_in. induction l as [|x l IH]; simpl.
  - split; [done|]. intros H. inversion H.
  - rewrite orb_true_iff, IH, elem_of_cons.
    destruct (String.eqb_spec s x); split; intros [?|?]; auto; done.
Qed.

Lemma str_in_not_elem (s : string) (l : list string) : Py.str_in s l = false <-> s ∉ l.
Proof.
  rewrite <- str_in_elem. destruct (Py.str_in s l); split; done.
Qed.

Lemma conflicts_taken (table : gmap string string) (key name : string) :
  aliases_ok table name ->
  conflicts (table !! key) name = true <-> taken table key name.
Proof.
  intros Hok. unfold conflicts, taken.
  destruct (table !! key) as [e|] eqn:He.
  - rewrite andb_true_iff, !negb_true_iff.
    destruct (String.eqb_spec e ""), (String.eqb_spec e name); split;
      try (intros [? ?]; done).
    + intros (e' & [= <-] & Hne). done.
    + intros (e' & [= <-] & Hne). destruct (Hok key e He); done.
    + intros (e' & [= <-] & Hne). done.
    + intros _. eauto.
  - split; [done|]. intros (e & [=] & _).
Qed.

Lemma conflicts_not_taken (table : gmap string string) (key name : string) :
  aliases_ok table name ->
  conflicts (table !! key) name = false <-> ~ taken table key name.
Proof.
  intros Hok. rewrite <- (conflicts_taken _ _ _ Hok).
  destruct (conflicts _ _); split; done.
Qed.

Lemma aliases_ok_insert (table : gmap string string) (key name : string) :
  aliases_ok table name -> aliases_ok (<[key := name]> table) name.
Proof.
  intros Hok k e. rewrite lookup_insert. case_decide.
  - intros [= <-]. by right.
  - apply Hok.
Qed.

Lemma _register_string_format_raises (r : PydanticSchemaRegistry) (fmt : string)
    (reg : PydanticOpenApiRegistration) :
  aliases_ok (_string_format_to_name r) (schema_exported_variable_name reg) ->
  raises (snd (_register_string_format r fmt reg))
  <-> format_rejected r (schema_exported_variable_name reg) fmt.
Proof.
  intros Hok. unfold _register_string_format, format_rejected.
  destruct (Py.str_in fmt SUPPORTED_STRING_FORMATS) eqn:Hs; simpl.
  - apply str_in_elem in Hs.
    destruct (conflicts _ _) eqn:Hc; simpl.
    + apply conflicts_taken in Hc; [|done]. split; [by right|]. intros _. by eexists.
    + apply conflicts_not_taken in Hc; [|done].
      split; [intros [e [=]]|]. intros [?|?]; done.
  - apply str_in_not_elem in Hs. split; [by left|]. intros _. by eexists.
Qed.

Lemma _register_string_format_ok (r r' : PydanticSchemaRegistry) (fmt : string)
    (reg : PydanticOpenApiRegistration) :
  _register_string_format r fmt reg = (r', Ok tt) ->
  fmt ∈ SUPPORTED_STRING_FORMATS
  /\ _string_format_to_name r'
     = <[fmt := schema_exported_variable_name reg]> (_string_format_to_name r)
  /\ _primitive_type_to_name r' = _primitive_type_to_name r
  /\ _schema_ids r' = _schema_ids r.
Proof.
  unfold _register_string_format.
  destruct (Py.str_in fmt SUPPORTED_STRING_FORMATS) eqn:Hs; simpl; [|intros [=]].
  destruct (conflicts _ _); [intros [=]|]. intros [= <-]. simpl.
  by apply str_in_elem in Hs.
Qed.

(** Registering a format that is already registered under the same name
    leaves the registry as it is. *)
Lemma _register_string_format_again (r : PydanticSchemaRegistry) (fmt : string)
    (reg : PydanticOpenApiRegistration) :
  fmt ∈ SUPPORTED_STRING_FORMATS ->
  _string_format_to_name r !! fmt = Some (schema_exported_variable_name reg) ->
  _register_string_format r fmt reg = (r, Ok tt).
Proof.
  intros Hs Hl. unfold _register_string_format.
  apply str_in_elem in Hs. rewrite Hs. simpl. rewrite Hl. unfold conflicts.
  rewrite String.eqb_refl, andb_false_r. rewrite insert_id by done.
  by destruct r.
Qed.

Lemma register_formats_raises (l : list json) (r : PydanticSchemaRegistry)
    (reg : PydanticOpenApiRegistration) :
  aliases_ok (_string_format_to_name r) (schema_exported_variable_name reg) ->
  raises (snd (register_formats r l reg))
  <-> exists f, f ∈ str_items l /\ format_rejected r (schema_exported_variable_name reg) f.
Proof.
  revert r. induction l as [|item l IH]; intros r Hok.
  - simpl. split; [intros [e [=]]|]. intros (f & Hf & _). inversion Hf.
  - assert (Hskip : raises (snd (register_formats r l reg))
                    <-> exists f, f ∈ str_items l
                                  /\ format_rejected r (schema_exported_variable_name reg) f)
      by (by apply IH).
    destruct item as [| | | |f0| |]; try exact Hskip. clear Hskip.
    change (str_items (JStr f0 :: l)) with (f0 :: str_items l).
    cbn [register_formats].
    pose proof (_register_string_format_raises r f0 reg Hok) as Hone.
    destruct (_register_string_format r f0 reg) as [r1 [[]|e]] eqn:Hstep.
    + apply _register_string_format_ok in Hstep as (Hs & Hmap & _ & _).
      assert (Hnot : ~ format_rejected r (schema_exported_variable_name reg) f0).
      { intros Hrej. apply Hone in Hrej as [e [=]]. }
      rewrite IH by (rewrite Hmap; by apply aliases_ok_insert).
      assert (Hsame : forall f, format_rejected r1 (schema_exported_variable_name reg) f
                                <-> format_rejected r (schema_exported_variable_name reg) f).
      { intros f. unfold format_rejected, taken. rewrite Hmap.
        destruct (decide (f0 = f)) as [<-|Hne].
        - rewrite lookup_insert_eq. split.
          + intros [?|(e & [= <-] & ?)]; [by left|done].
          + intros Hrej. by destruct Hnot.
        - by rewrite lookup_insert_ne. }
      split.
      * intros (f & Hf & Hrej). exists f. split; [by apply list_elem_of_further|by apply Hsame].
      * intros (f & Hf & Hrej). apply elem_of_cons in Hf as [->|Hf]; [done|].
        exists f. split; [done|by apply Hsame].
    + simpl in *. split.
      * intros _. exists f0. split; [apply list_elem_of_here|]. apply Hone. by eexists.
      * intros _. by eexists.
Qed.

Lemma register_formats_ok (l : list json) (r r' : PydanticSchemaRegistry)
    (reg : PydanticOpenApiRegistration) :
  register_formats r l reg = (r', Ok tt) ->
  (forall f, f ∈ str_items l ->
     f ∈ SUPPORTED_STRING_FORMATS
     /\ _string_format_to_name r' !! f = Some (schema_exported_variable_name reg))
  /\ (forall f, _string_format_to_name r !! f = Some (schema_exported_variable_name reg) ->
        _string_format_to_name r' !! f = Some (schema_exported_variable_name reg)).
Proof.
  revert r. induction l as [|item l IH]; intros r.
  - simpl. intros [= <-]. split; [|done]. intros f Hf. inversion Hf.
  - destruct item as [| | | |f0| |]; try apply IH.
    change (str_items (JStr f0 :: l)) with (f0 :: str_items l).
    cbn [register_formats].
    destruct (_register_string_format r f0 reg) as [r1 [[]|e]] eqn:Hstep; [|intros [=]].
    apply _register_string_format_ok in Hstep as (Hs & Hmap & _ & _).
    intros Hrest. apply IH in Hrest as [Hall Hkeep].
    split.
    + intros f Hf. apply elem_of_cons in Hf as [->|Hf]; [|by apply Hall].
      split; [done|]. apply Hkeep. rewrite Hmap. apply lookup_insert_eq.
    + intros f Hf. apply Hkeep. rewrite Hmap. rewrite lookup_insert.
      case_decide; [done|done].
Qed.

Lemma register_formats_again (l : list json) (r : PydanticSchemaRegistry)
    (reg : PydanticOpenApiRegistration) :
  (forall f, f ∈ str_items l ->
     f ∈ SUPPORTED_STRING_FORMATS
     /\ _string_format_to_name r !! f = Some (schema_exported_variable_name reg)) ->
  register_formats r l reg = (r, Ok tt).
Proof.
  induction l as [|item l IH]; intros Hall; [done|].
  destruct item as [| | | |f0| |]; try (apply IH; exact Hall).
  cbn [register_formats].
  destruct (Hall f0) as [Hs Hl]; [apply list_elem_of_here|].
  rewrite (_register_string_format_again r f0 reg Hs Hl).
  apply IH. intros f Hf. apply Hall. by apply list_elem_of_further.
Qed.

(** C9, counterexample. In an empty registry nothing is registered under
    another name, and the type [string] is a recognized one; registering the
    format [hostname] raises all the same, because the format is not one of
    [SUPPORTED_STRING_FORMATS]. *)
Lemma registration_counterexample :
  snd (register empty_registry 0 hostname_registration)
  = Raise (ValueError "unsupported string format registration")
  /\ _string_format_to_name empty_registry !! "hostname" = None
  /\ type hostname_registration = "string".
Proof. repeat split. Qed.

Lemma register_primitive_raises (r : PydanticSchemaRegistry) (schema_id : nat)
    (reg : PydanticOpenApiRegistration) :
  aliases_ok (_primitive_type_to_name r) (schema_exported_variable_name reg) ->
  raises (snd (register_primitive r schema_id reg))
  <-> type reg ∉ ["number"; "integer"; "boolean"]
      \/ taken (_primitive_type_to_name r) (type reg) (schema_exported_variable_name reg).
Proof.
  intros Hok. unfold register_primitive.
  destruct (Py.str_in (type reg) _) eqn:Hs.
  - apply str_in_elem in Hs. destruct (conflicts _ _) eqn:Hc; simpl.
    + apply conflicts_taken in Hc; [|done]. split; [by right|]. intros _. by eexists.
    + apply conflicts_not_taken in Hc; [|done].
      split; [intros [e [=]]|]. intros [?|?]; done.
  - apply str_in_not_elem in Hs. simpl. split; [by left|]. intros _. by eexists.
Qed.

Lemma register_primitive_again (r r' : PydanticSchemaRegistry) (schema_id schema_id' : nat)
    (reg : PydanticOpenApiRegistration) :
  register_primitive r schema_id reg = (r', Ok tt) ->
  exists r'', register_primitive r' schema_id' reg = (r'', Ok tt)
              /\ _string_format_to_name r'' = _string_format_to_name r'
              /\ _primitive_type_to_name r'' = _primitive_type_to_name r'.
Proof.
  unfold register_primitive.
  destruct (Py.str_in (type reg) _) eqn:Hs; [|intros [=]].
  destruct (conflicts _ _); [intros [=]|]. intros [= <-]. simpl.
  rewrite lookup_insert_eq. unfold conflicts at 1.
  rewrite String.eqb_refl, andb_false_r.
  eexists. split; [reflexivity|]. simpl. split; [done|].
  by rewrite insert_insert_eq.
Qed.

Lemma raises_match {A} (p : A * Result unit) (f : A -> A) :
  raises (snd (match p with
               | (a, Ok _) => (f a, Ok tt)
               | (a, Raise e) => (a, Raise e)
               end) : Result unit)
  <-> raises (snd p).
Proof.
  destruct p as [a [[]|e]]; simpl; split; intros [e' [=]]. all: by eexists.
Qed.

(** C9, amended. With no key registered under the empty name, a
    registration raises exactly when a string format it asks for is not a
    supported one or is registered under another name, when it is a
    primitive registration whose type is registered under another name, or
    when it is neither (a type that is not recognized, or [string] with no
    [format] and no [formats]).  Registering the same registration again
    returns normally and leaves both lookup tables as they are. *)
Theorem register_raises_exactly (r : PydanticSchemaRegistry) (schema_id : nat)
    (reg : PydanticOpenApiRegistration) :
  aliases_nonempty r ->
  (raises (snd (register r schema_id reg))
   <-> match requested_formats reg with
       | Some fs =>
           exists f, f ∈ fs /\ format_rejected r (schema_exported_variable_name reg) f
       | None =>
           type reg ∉ ["number"; "integer"; "boolean"]
           \/ taken (_primitive_type_to_name r) (type reg)
                    (schema_exported_variable_name reg)
       end)
  /\ (forall r' schema_id',
        register r schema_id reg = (r', Ok tt) ->
        exists r'', register r' schema_id' reg = (r'', Ok tt)
                    /\ _string_format_to_name r'' = _string_format_to_name r'
                    /\ _primitive_type_to_name r'' = _primitive_type_to_name r').
Proof.
  intros [Hstr Hprim].
  assert (Hoks : aliases_ok (_string_format_to_name r) (schema_exported_variable_name reg))
    by (intros k e He; left; eauto).
  assert (Hokp : aliases_ok (_primitive_type_to_name r) (schema_exported_variable_name reg))
    by (intros k e He; left; eauto).
  unfold register, requested_formats.
  destruct (String.eqb (type reg) "string") eqn:Htype;
    [|split; [by apply register_primitive_raises|
              intros r' id'; apply register_primitive_again]].
  destruct (format reg) as [| | | |f| |] eqn:Hformat.
  5: {
    split.
    - rewrite (raises_match _ (fun r' => set_schema_id r' schema_id reg)).
      rewrite _register_string_format_raises by done.
      split.
      + intros H. exists f. split; [apply list_elem_of_here|done].
      + intros (f' & Hf' & H). apply list_elem_of_singleton in Hf' as ->. done.
    - intros r' id'.
      destruct (_register_string_format r f reg) as [r1 [[]|e]] eqn:Hstep; [|intros [=]].
      intros [= <-].
      apply _register_string_format_ok in Hstep as (Hs & Hmap & _ & _).
      rewrite (_register_string_format_again (set_schema_id r1 schema_id reg) f reg);
        [|done|simpl; rewrite Hmap; apply lookup_insert_eq].
      eexists. split; [reflexivity|]. done. }
  all: destruct (formats reg) as [| | | | |l|] eqn:Hformats;
    try (split; [by apply register_primitive_raises|
                 intros r' id'; apply register_primitive_again]).
  all: split;
    [ rewrite (raises_match _ (fun r' => set_schema_id r' schema_id reg));
      by apply register_formats_raises
    | intros r' id';
      destruct (register_formats r l reg) as [r1 [[]|e]] eqn:Hstep; [|intros [=]];
      intros [= <-];
      apply register_formats_ok in Hstep as [Hall _];
      rewrite (register_formats_again l (set_schema_id r1 schema_id reg) reg) by exact Hall;
      eexists; split; [reflexivity|]; done ].
Qed.

Lemma register_raises_exactly_witness :
  (raises (snd (register empty_registry 0 email_registration))
   <-> exists f, f ∈ ["email"] /\ format_rejected empty_registry "EmailAlias" f)
  /\ (forall r' schema_id',
        register empty_registry 0 email_registration = (r', Ok tt) ->
        exists r'', register r' schema_id' email_registration = (r'', Ok tt)
                    /\ _string_format_to_name r'' = _string_format_to_name r'
                    /\ _primitive_type_to_name r'' = _primitive_type_to_name r').
Proof.
  apply (register_raises_exactly empty_registry 0 email_registration).
  split; intros k n; simpl; rewrite lookup_empty; discriminate.
Defined.

Import graph dependencies.

(** ** Kahn's loop (dependencies.py) *)

Lemma rfold_step {A B} (f : B -> A -> Result B) (x : A) (l : list A) (acc acc' : B) :
  f acc x = Ok acc' -> rfold f (x :: l) acc = rfold f l acc'.
Proof. intros H. simpl. by rewrite H. Qed.

Lemma rfold_app {A B} (f : B -> A -> Result B) (l1 l2 : list A) (acc : B) :
  rfold f (l1 ++ l2) acc = (acc' ← rfold f l1 acc; rfold f l2 acc').
Proof.
  revert acc. induction l1 as [|x l1 IH]; intros acc; simpl; [done|].
  destruct (f acc x); simpl; [apply IH|done].
Qed.

Lemma filter_ext_elem {A} (P Q : A -> Prop) `{!forall x, Decision (P x)}
    `{!forall x, Decision (Q x)} (l : list A) :
  (forall x, x ∈ l -> P x <-> Q x) -> filter P l = filter Q l.
Proof.
  induction l as [|x l IH]; intros Hext; [done|].
  rewrite !filter_cons.
  rewrite IH by (intros y Hy; apply Hext; by apply list_elem_of_further).
  destruct (decide (P x)) as [HP|HP], (decide (Q x)) as [HQ|HQ]; try done.
  - exfalso. apply HQ. by apply (Hext x); [apply list_elem_of_here|].
  - exfalso. apply HP. by apply (Hext x); [apply list_elem_of_here|].
Qed.

Section kahn.

Variable names : list string.
Variable deps : string -> list string.
Hypothesis names_nodup : NoDup names.
Hypothesis deps_nodup : forall n, NoDup (deps n).
Hypothesis deps_names : forall n d, d ∈ deps n -> d ∈ names.

Variable dependents : dict (list string).
Hypothesis dependents_spec :
  forall d, d ∈ names -> dget d dependents = Some (dependents_of names deps d).

Lemma dependents_of_nodup d : NoDup (dependents_of names deps d).
Proof. by apply NoDup_filter. Qed.

Lemma dependents_of_elem d n : n ∈ dependents_of names deps d <-> d ∈ deps n /\ n ∈ names.
Proof. unfold dependents_of. by rewrite list_elem_of_filter. Qed.

(** The inner loop decrements the degree of every dependent once and
    appends those that reach zero. *)
Lemma visit_dependents (ds : list string) :
  forall (in_degree : dict Z) (queue : list string),
    NoDup ds -> (forall m, m ∈ ds -> m ∈ dkeys in_degree) ->
    exists in_degree',
      rfold visit_dependent ds (in_degree, queue)
      = Ok (in_degree', queue ++ filter (fun m => dget m in_degree = Some 1%Z) ds)
      /\ dkeys in_degree' = dkeys in_degree
      /\ forall n, dget n in_degree'
                   = if decide (n ∈ ds) then (fun z => z - 1)%Z <$> dget n in_degree
                     else dget n in_degree.
Proof.
  induction ds as [|m ds IH]; intros in_degree queue Hnd Hin.
  - exists in_degree. simpl. rewrite app_nil_r. repeat split; done.
  - apply NoDup_cons in Hnd as [Hm Hnd].
    assert (Hmk : m ∈ dkeys in_degree) by (apply Hin, list_elem_of_here).
    destruct (proj2 (dget_is_Some m in_degree) Hmk) as [z Hz].
    set (in_degree1 := dset m (z - 1)%Z in_degree).
    set (queue1 := if (z - 1 =? 0)%Z then queue ++ [m] else queue).
    assert (Hstep : visit_dependent (in_degree, queue) m = Ok (in_degree1, queue1)).
    { unfold visit_dependent. cbn [fst snd]. rewrite Hz. unfold queue1.
      by destruct (z - 1 =? 0)%Z. }
    assert (Hkeys1 : dkeys in_degree1 = dkeys in_degree)
      by (by apply dkeys_dset_present).
    destruct (IH in_degree1 queue1 Hnd) as (in_degree' & Hrun & Hkeys & Hget).
    { intros m' Hm'. rewrite Hkeys1. apply Hin. by apply list_elem_of_further. }
    exists in_degree'. split; [|split].
    + rewrite (rfold_step _ _ _ _ _ Hstep), Hrun. f_equal. f_equal.
      rewrite filter_cons, Hz.
      assert (Hext : filter (fun m' => dget m' in_degree1 = Some 1%Z) ds
                     = filter (fun m' => dget m' in_degree = Some 1%Z) ds).
      { apply filter_ext_elem. intros m' Hm'. unfold in_degree1.
        rewrite dget_dset_ne; [done|]. intros ->. done. }
      rewrite Hext. unfold queue1.
      destruct (Z.eqb_spec (z - 1) 0) as [Hz0|Hz0].
      * rewrite decide_True by (f_equal; lia). by rewrite <- app_assoc.
      * rewrite decide_False; [done|]. intros [= ->]. done.
    + by rewrite Hkeys.
    + intros n. rewrite Hget. unfold in_degree1.
      destruct (decide (n = m)) as [->|Hne].
      * rewrite decide_False by done. rewrite decide_True by apply list_elem_of_here.
        rewrite dget_dset_eq, Hz. done.
      * rewrite dget_dset_ne by done.
        destruct (decide (n ∈ ds)) as [Hn|Hn].
        -- rewrite decide_True; [done|]. by apply list_elem_of_further.
        -- rewrite decide_False; [done|]. intros H. apply elem_of_cons in H as [?|?]; done.
Qed.

Lemma pending_zero sorted n :
  pending deps sorted n = 0 <-> forall d, d ∈ deps n -> d ∈ sorted.
Proof.
  unfold pending. rewrite length_zero_iff_nil. split.
  - intros Hnil d Hd. destruct (decide (d ∈ sorted)) as [|Hn]; [done|].
    exfalso. eapply (filter_nil_not_elem_of _ _ d Hnil); done.
  - intros Hall. induction (deps n) as [|x l IH]; [done|].
    rewrite filter_cons_False.
    + apply IH. intros d Hd. apply Hall. by apply list_elem_of_further.
    + intros Hx. apply Hx. apply Hall. apply list_elem_of_here.
Qed.

Lemma pending_snoc sorted c n :
  c ∉ sorted ->
  pending deps sorted n
  = pending deps (sorted ++ [c]) n + (if decide (c ∈ deps n) then 1 else 0).
Proof.
  intros Hc. unfold pending. pose proof (deps_nodup n) as Hnd.
  induction (deps n) as [|x l IH]; [done|].
  apply NoDup_cons in Hnd as [Hx Hnd]. specialize (IH Hnd).
  rewrite !filter_cons.
  destruct (decide (x ∈ sorted)) as [Hxs|Hxs].
  - rewrite decide_False by (intros H; by apply H).
    rewrite decide_False by (intros H; apply H; apply elem_of_app; by left).
    rewrite IH. assert (x <> c) by (intros ->; done).
    destruct (decide (c ∈ l)).
    + rewrite decide_True; [done|]. by apply list_elem_of_further.
    + rewrite decide_False; [done|]. intros H'. apply elem_of_cons in H' as [?|?]; done.
  - rewrite decide_True by done.
    destruct (decide (x = c)) as [->|Hne].
    + rewrite decide_False
        by (intros H; apply H; apply elem_of_app; right; apply list_elem_of_here).
      rewrite decide_True by apply list_elem_of_here.
      rewrite decide_False in IH by done. simpl. lia.
    + rewrite decide_True.
      2: { intros H. apply elem_of_app in H as [?|H]; [done|].
           apply list_elem_of_singleton in H. done. }
      simpl. rewrite IH.
      destruct (decide (c ∈ l)).
      * rewrite decide_True; [done|]. by apply list_elem_of_further.
      * rewrite decide_False; [done|]. intros H'. apply elem_of_cons in H' as [?|?]; done.
Qed.

Lemma deps_before_snoc sorted c :
  deps_before deps sorted -> (forall d, d ∈ deps c -> d ∈ sorted) ->
  deps_before deps (sorted ++ [c]).
Proof.
  intros Hord Hc l1 n l2 Heq d Hd.
  destruct l2 as [|y l2 _] using rev_ind.
  - apply app_inj_tail in Heq as [<- <-]. by apply Hc.
  - rewrite app_comm_cons, app_assoc in Heq. apply app_inj_tail in Heq as [Heq _].
    by apply (Hord l1 n l2).
Qed.

(** One turn of the loop keeps the invariant. *)
Lemma kahn_turn (in_degree : dict Z) (current : string) (queue sorted : list string) :
  kahn_inv names deps in_degree (current :: queue) sorted ->
  exists in_degree' queue',
    rfold visit_dependent (dependents_of names deps current) (in_degree, queue)
    = Ok (in_degree', queue')
    /\ kahn_inv names deps in_degree' queue' (sorted ++ [current]).
Proof.
  intros [Hkeys Hnd Hnames Hdeg Hready Hord].
  assert (Hcur : current ∈ names).
  { apply Hnames. apply elem_of_app. right. apply list_elem_of_here. }
  assert (Hcur_new : current ∉ sorted).
  { apply NoDup_app in Hnd as (_ & Hdisj & _). intros H. apply (Hdisj _ H).
    apply list_elem_of_here. }
  assert (Hcur_ready : forall d, d ∈ deps current -> d ∈ sorted).
  { apply pending_zero, Hready; [done|]. apply elem_of_app. right. apply list_elem_of_here. }
  set (ds := dependents_of names deps current).
  destruct (visit_dependents ds in_degree queue) as (in_degree' & Hrun & Hkeys' & Hget).
  { apply dependents_of_nodup. }
  { intros m Hm. rewrite Hkeys. by apply dependents_of_elem in Hm as [_ ?]. }
  exists in_degree', (queue ++ filter (fun m => dget m in_degree = Some 1%Z) ds).
  split; [done|].
  assert (Hnew : forall m, m ∈ filter (fun m => dget m in_degree = Some 1%Z) ds
                           <-> m ∈ names /\ current ∈ deps m /\ pending deps sorted m = 1).
  { intros m. rewrite list_elem_of_filter. unfold ds. rewrite dependents_of_elem. split.
    - intros (H1 & Hd & Hm). rewrite (Hdeg m Hm) in H1. injection H1 as H1.
      repeat split; [done..|lia].
    - intros (Hm & Hd & Hp). rewrite (Hdeg m Hm), Hp. done. }
  constructor.
  - by rewrite Hkeys'.
  - apply NoDup_app. split; [|split].
    + apply NoDup_app in Hnd as (Hs & Hdisj & Hq). apply NoDup_cons in Hq as [Hcq Hq].
      apply NoDup_app. split; [done|]. split; [|apply NoDup_singleton].
      intros x Hx Hx'. apply list_elem_of_singleton in Hx' as ->. done.
    + intros x Hx Hx'. apply elem_of_app in Hx' as [Hx'|Hx'].
      * apply NoDup_app in Hnd as (Hs & Hdisj & Hq). apply NoDup_cons in Hq as [Hcq Hq].
        apply elem_of_app in Hx as [Hx|Hx].
        -- apply (Hdisj x Hx). by apply list_elem_of_further.
        -- apply list_elem_of_singleton in Hx as ->. done.
      * apply Hnew in Hx' as (Hm & Hd & Hp).
        assert (Hin : x ∈ sorted ++ current :: queue).
        { apply elem_of_app in Hx as [Hx|Hx]; apply elem_of_app; [by left|right].
          apply list_elem_of_singleton in Hx as ->. apply list_elem_of_here. }
        apply (Hready x Hm) in Hin. lia.
    + apply NoDup_app. split; [|split].
      * apply NoDup_app in Hnd as (_ & _ & Hq). by apply NoDup_cons in Hq as [_ ?].
      * intros x Hx Hx'. apply Hnew in Hx' as (Hm & Hd & Hp).
        assert (Hin : x ∈ sorted ++ current :: queue).
        { apply elem_of_app. right. by apply list_elem_of_further. }
        apply (Hready x Hm) in Hin. lia.
      * apply NoDup_filter, dependents_of_nodup.
  - intros n Hn. rewrite <- app_assoc in Hn. simpl in Hn.
    apply elem_of_app in Hn as [Hn|Hn]; [apply Hnames, elem_of_app; by left|].
    apply elem_of_cons in Hn as [->|Hn]; [done|].
    apply elem_of_app in Hn as [Hn|Hn].
    + apply Hnames, elem_of_app. right. by apply list_elem_of_further.
    + by apply Hnew in Hn as [? _].
  - intros n Hn. rewrite Hget, (Hdeg n Hn). pose proof (pending_snoc sorted current n Hcur_new) as Hp.
    destruct (decide (n ∈ ds)) as [Hds|Hds].
    + apply dependents_of_elem in Hds as [Hd _]. rewrite decide_True in Hp by done.
      simpl. f_equal. lia.
    + rewrite decide_False in Hp.
      * f_equal. f_equal. lia.
      * intros Hd. apply Hds. by apply dependents_of_elem.
  - intros n Hn. pose proof (pending_snoc sorted current n Hcur_new) as Hp.
    rewrite <- app_assoc. simpl. split.
    + intros Hin.
      assert (Hcases : n ∈ sorted ++ current :: queue
                       \/ n ∈ filter (fun m => dget m in_degree = Some 1%Z) ds).
      { rewrite !elem_of_app, !elem_of_cons in Hin. rewrite elem_of_app, elem_of_cons.
        rewrite elem_of_app in Hin. tauto. }
      destruct Hcases as [Hold|Hfresh].
      * apply (Hready n Hn) in Hold. lia.
      * apply Hnew in Hfresh as (_ & Hd & Hone). rewrite decide_True in Hp by done. lia.
    + intros Hzero.
      destruct (decide (current ∈ deps n)) as [Hd|Hd].
      * assert (Hfresh : n ∈ filter (fun m => dget m in_degree = Some 1%Z) ds).
        { apply Hnew. repeat split; [done..|lia]. }
        rewrite !elem_of_app, elem_of_cons, elem_of_app. tauto.
      * assert (Hold : n ∈ sorted ++ current :: queue) by (apply (Hready n Hn); lia).
        rewrite !elem_of_app, !elem_of_cons in Hold.
        rewrite !elem_of_app, elem_of_cons, elem_of_app. tauto.
  - by apply deps_before_snoc.
Qed.

(** The loop ends within [fuel] turns when [fuel] covers the names that are
    not sorted yet, and keeps the invariant up to its end. *)
Lemma kahn_loop_result (fuel : nat) :
  forall (in_degree : dict Z) (queue sorted : list string),
    kahn_inv names deps in_degree queue sorted ->
    length names <= fuel + length sorted ->
    exists emitted,
      kahn_loop fuel dependents in_degree queue sorted = Ok emitted
      /\ kahn_result names deps emitted.
Proof.
  induction fuel as [|fuel IH]; intros in_degree queue sorted Hinv Hfuel.
  - destruct queue as [|current queue].
    + exists sorted. split; [done|]. destruct Hinv as [Hkeys Hnd Hnames Hdeg Hready Hord].
      rewrite app_nil_r in *. constructor; try done.
      intros n Hn. rewrite (Hready n Hn). apply pending_zero.
    + exfalso. destruct Hinv as [_ Hnd Hnames _ _ _].
      assert (Hle : length (sorted ++ current :: queue) <= length names).
      { apply submseteq_length, NoDup_submseteq; done. }
      rewrite length_app in Hle. simpl in *. lia.
  - destruct queue as [|current queue].
    + exists sorted. split; [done|]. destruct Hinv as [Hkeys Hnd Hnames Hdeg Hready Hord].
      rewrite app_nil_r in *. constructor; try done.
      intros n Hn. rewrite (Hready n Hn). apply pending_zero.
    + destruct (kahn_turn in_degree current queue sorted Hinv)
        as (in_degree' & queue' & Hrun & Hinv').
      assert (Hcur : current ∈ names).
      { destruct Hinv as [_ _ Hnames _ _ _]. apply Hnames, elem_of_app. right.
        apply list_elem_of_here. }
      cbn [kahn_loop]. rewrite (dependents_spec current Hcur), Hrun.
      cbn [mbind result_bind fst snd].
      apply IH; [done|]. rewrite length_app. simpl. lia.
Qed.

End kahn.

(** ** Names blocked by a cycle *)

Lemma chain_split deps x l1 y l2 :
  chain deps x (l1 ++ y :: l2) -> tc (edge deps) x y /\ chain deps y l2.
Proof.
  revert x. induction l1 as [|z l1 IH]; intros x; simpl.
  - intros [He Hc]. split; [by apply tc_once|done].
  - intros [He Hc]. apply IH in Hc as [Ht Hc]. split; [|done].
    by eapply tc_l.
Qed.

Lemma not_NoDup_repeat (l : list string) :
  ~ NoDup l -> exists x l1 l2 l3, l = l1 ++ x :: l2 ++ x :: l3.
Proof.
  induction l as [|a l IH]; intros Hnd.
  - destruct Hnd. constructor.
  - destruct (decide (a ∈ l)) as [Ha|Ha].
    + apply list_elem_of_split in Ha as (l2 & l3 & ->). by exists a, [], l2, l3.
    + destruct IH as (x & l1 & l2 & l3 & ->).
      { intros H. apply Hnd. by constructor. }
      by exists x, (a :: l1), l2, l3.
Qed.

Lemma grounded_edge deps a b : grounded deps a -> edge deps a b -> grounded deps b.
Proof. intros [n Hn] He. by apply Hn. Qed.

Lemma grounded_rtc deps a b : grounded deps a -> rtc (edge deps) a b -> grounded deps b.
Proof. intros Ha Hr. induction Hr; [done|]. eauto using grounded_edge. Qed.

Lemma grounded_not_on_cycle deps c : grounded deps c -> ~ on_cycle deps c.
Proof.
  unfold on_cycle. induction 1 as [c Hc IH]. intros Ht.
  assert (Hstep : exists d, edge deps c d /\ rtc (edge deps) d c).
  { inversion Ht as [? ? He|? d ? He Ht']; subst.
    - exists c. split; [done|]. apply rtc_refl.
    - exists d. split; [done|]. by apply tc_rtc. }
  destruct Hstep as (d & He & Hr).
  apply (IH d He). eapply tc_rtc_l; [exact Hr|]. by apply tc_once.
Qed.

Lemma blocked_not_grounded deps n : blocked deps n -> ~ grounded deps n.
Proof.
  intros (c & Hr & Hc) Hg. apply (grounded_not_on_cycle deps c); [|done].
  by eapply grounded_rtc.
Qed.

Section blocked.

Variable names : list string.
Variable deps : string -> list string.
Hypothesis deps_names : forall n d, d ∈ deps n -> d ∈ names.

Variable emitted : list string.
Hypothesis emitted_result : kahn_result names deps emitted.

Lemma deps_before_grounded (l : list string) :
  deps_before deps l -> forall n, n ∈ l -> grounded deps n.
Proof.
  induction l as [|x l IH] using rev_ind; intros Hord n Hn; [inversion Hn|].
  assert (Hl : deps_before deps l).
  { intros l1 m l2 Heq d Hd. apply (Hord l1 m (l2 ++ [x])); [|done].
    rewrite Heq. by rewrite <- app_assoc. }
  apply elem_of_app in Hn as [Hn|Hn]; [by apply IH|].
  apply list_elem_of_singleton in Hn as ->.
  constructor. intros d Hd. apply IH; [done|].
  by apply (Hord l x []).
Qed.

Lemma emitted_grounded n : n ∈ emitted -> grounded deps n.
Proof. apply deps_before_grounded. by destruct emitted_result. Qed.

Lemma grounded_emitted n : grounded deps n -> n ∈ names -> n ∈ emitted.
Proof.
  induction 1 as [n Hn IH]. intros Hnames.
  apply (res_closed _ _ _ emitted_result n Hnames).
  intros d Hd. apply IH; [done|]. by eapply deps_names.
Qed.

(** A name that the loop did not emit has a dependency that it did not
    emit either. *)
Lemma unemitted_step u :
  u ∈ names -> u ∉ emitted ->
  exists d, edge deps u d /\ d ∈ names /\ d ∉ emitted.
Proof.
  intros Hu Hne.
  assert (Hex : Exists (fun d => d ∉ emitted) (deps u)).
  { apply not_Forall_Exists; [apply _|]. intros Hall. apply Hne.
    apply (res_closed _ _ _ emitted_result u Hu).
    intros d Hd. by eapply Forall_forall in Hall. }
  apply Exists_exists in Hex as (d & Hd & Hde).
  exists d. repeat split; [done| |done]. by eapply deps_names.
Qed.

Lemma unemitted_chain (k : nat) :
  forall u, u ∈ names -> u ∉ emitted ->
    exists path, length path = k /\ chain deps u path /\ forall x, x ∈ path -> x ∈ names.
Proof.
  induction k as [|k IH]; intros u Hu Hne.
  - exists []. repeat split. intros x Hx. inversion Hx.
  - destruct (unemitted_step u Hu Hne) as (d & He & Hd & Hdne).
    destruct (IH d Hd Hdne) as (path & Hlen & Hchain & Hin).
    exists (d :: path). simpl. repeat split; [by rewrite Hlen|done..|].
    intros x Hx. apply elem_of_cons in Hx as [->|Hx]; [done|by apply Hin].
Qed.

Lemma unemitted_blocked u : u ∈ names -> u ∉ emitted -> blocked deps u.
Proof.
  intros Hu Hne.
  destruct (unemitted_chain (length names) u Hu Hne) as (path & Hlen & Hchain & Hin).
  assert (Hrep : ~ NoDup (u :: path)).
  { intros Hnd.
    assert (Hle : length (u :: path) <= length names).
    { apply submseteq_length, NoDup_submseteq; [done|].
      intros x Hx. apply elem_of_cons in Hx as [->|Hx]; [done|by apply Hin]. }
    simpl in Hle. lia. }
  apply not_NoDup_repeat in Hrep as (x & l1 & l2 & l3 & Heq).
  destruct l1 as [|u' l1]; simpl in Heq; injection Heq as <- ->.
  - exists u. split; [apply rtc_refl|]. by apply chain_split in Hchain as [? _].
  - apply chain_split in Hchain as [Hux Hchain].
    exists x. split; [by apply tc_rtc|]. by apply chain_split in Hchain as [? _].
Qed.

(** The loop emits exactly the names that no cycle blocks. *)
Lemma emitted_iff_not_blocked n : n ∈ names -> (n ∈ emitted <-> ~ blocked deps n).
Proof.
  intros Hn. split.
  - intros He Hb. by apply (blocked_not_grounded deps n Hb), emitted_grounded.
  - intros Hnb. destruct (decide (n ∈ emitted)) as [|Hne]; [done|].
    exfalso. apply Hnb. by apply unemitted_blocked.
Qed.

Lemma emitted_precedes a b :
  a ∈ emitted -> edge deps a b -> precedes emitted b a.
Proof.
  intros Ha He. apply list_elem_of_split in Ha as (l1 & l2 & Heq).
  assert (Hb : b ∈ l1) by (by apply (res_order _ _ _ emitted_result l1 a l2)).
  apply list_elem_of_split in Hb as (l1a & l1b & ->).
  exists l1a, l1b, l2. rewrite Heq. by rewrite <- app_assoc.
Qed.

End blocked.

(** The fallback loop appends the names that are missing, in order. *)
Lemma append_missing_fold (names sorted : list string) :
  NoDup names ->
  fold_left append_missing names sorted = sorted ++ filter (fun n => n ∉ sorted) names.
Proof.
  revert sorted. induction names as [|n names IH]; intros sorted Hnd; simpl.
  - by rewrite app_nil_r.
  - apply NoDup_cons in Hnd as [Hn Hnd]. rewrite IH by done.
    unfold append_missing. rewrite filter_cons.
    destruct (decide (n ∈ sorted)) as [Hin|Hin].
    + rewrite bool_decide_eq_true_2 by done. by rewrite decide_False by (intros H; by apply H).
    + rewrite bool_decide_eq_false_2 by done. rewrite decide_True by done.
      rewrite <- app_assoc. simpl. f_equal. f_equal.
      apply filter_ext_elem. intros x Hx. rewrite elem_of_app, list_elem_of_singleton.
      split; [tauto|]. intros H [?|Heq]; [done|]. by subst.
Qed.

(** ** The state Kahn's loop starts from (dependencies.py) *)

Lemma dget_elem_nodup {V} (d : dict V) (k : string) (v : V) :
  NoDup (dkeys d) -> (k, v) ∈ d -> dget k d = Some v.
Proof.
  unfold dkeys. induction d as [|[k' v'] d IH]; intros Hnd Hin; [inversion Hin|].
  simpl in *. apply NoDup_cons in Hnd as [Hk Hnd].
  apply elem_of_cons in Hin as [[= -> ->]|Hin].
  - by rewrite String.eqb_refl.
  - destruct (String.eqb_spec k k') as [->|Hne]; [|by apply IH].
    exfalso. apply Hk. apply (list_elem_of_fmap_2 fst) in Hin. done.
Qed.

Lemma dict_ext {V} (d1 d2 : dict V) :
  dkeys d1 = dkeys d2 -> NoDup (dkeys d1) ->
  (forall k, k ∈ dkeys d1 -> dget k d1 = dget k d2) -> d1 = d2.
Proof.
  unfold dkeys. revert d2. induction d1 as [|[k v] d1 IH]; intros [|[k' v'] d2]; try done.
  simpl. intros [= <- Hkeys] Hnd Hget. apply NoDup_cons in Hnd as [Hk Hnd].
  pose proof (Hget k (list_elem_of_here _ _)) as Hhead. simpl in Hhead.
  rewrite String.eqb_refl in Hhead. injection Hhead as <-.
  f_equal. apply IH; [done..|].
  intros k0 Hk0. specialize (Hget k0 (list_elem_of_further _ _ _ Hk0)). simpl in Hget.
  destruct (String.eqb_spec k0 k) as [Heq|Hne]; [subst; exfalso; by apply Hk|done].
Qed.

(** A loop of assignments [d[key(x)] = value(x)] over distinct, present
    keys. *)
Lemma fold_dset_spec {A V} (key : A -> string) (value : A -> V) (items : list A) :
  forall d : dict V,
    NoDup (map key items) -> (forall x, x ∈ items -> key x ∈ dkeys d) ->
    let d' := fold_left (fun acc x => dset (key x) (value x) acc) items d in
    dkeys d' = dkeys d
    /\ (forall x, x ∈ items -> dget (key x) d' = Some (value x))
    /\ (forall k, k ∉ map key items -> dget k d' = dget k d).
Proof.
  induction items as [|x items IH]; intros d Hnd Hin; simpl.
  - repeat split; try done. intros x Hx. inversion Hx.
  - simpl in Hnd. apply NoDup_cons in Hnd as [Hx Hnd].
    assert (Hkx : key x ∈ dkeys d) by (apply Hin, list_elem_of_here).
    destruct (IH (dset (key x) (value x) d) Hnd) as (Hkeys & Hset & Hother).
    { intros y Hy. rewrite dkeys_dset_present by done. apply Hin.
      by apply list_elem_of_further. }
    split; [|split].
    + rewrite Hkeys. by apply dkeys_dset_present.
    + intros y Hy. apply elem_of_cons in Hy as [->|Hy]; [|by apply Hset].
      rewrite Hother by done. apply dget_dset_eq.
    + intros k Hk. rewrite Hother.
      * apply dget_dset_ne. intros Heq. apply Hk. rewrite <- Heq. apply list_elem_of_here.
      * intros Hk'. apply Hk. by apply list_elem_of_further.
Qed.

(** The loop [dependents[dep].append(name)] over the distinct, present
    names [ds]. *)
Lemma append_dependents (name : string) (ds : list string) :
  forall dependents : dict (list string),
    NoDup ds -> (forall d, d ∈ ds -> d ∈ dkeys dependents) ->
    exists dependents',
      rfold (append_dependent name) ds dependents = Ok dependents'
      /\ dkeys dependents' = dkeys dependents
      /\ forall d, dget d dependents'
                   = if decide (d ∈ ds) then (fun l => l ++ [name]) <$> dget d dependents
                     else dget d dependents.
Proof.
  induction ds as [|m ds IH]; intros dependents Hnd Hin.
  - exists dependents. repeat split; done.
  - apply NoDup_cons in Hnd as [Hm Hnd].
    assert (Hmk : m ∈ dkeys dependents) by (apply Hin, list_elem_of_here).
    destruct (proj2 (dget_is_Some m dependents) Hmk) as [l Hl].
    set (dependents1 := dset m (l ++ [name]) dependents).
    assert (Hstep : append_dependent name dependents m = Ok dependents1).
    { unfold append_dependent. by rewrite Hl. }
    assert (Hkeys1 : dkeys dependents1 = dkeys dependents)
      by (by apply dkeys_dset_present).
    destruct (IH dependents1 Hnd) as (dependents' & Hrun & Hkeys & Hget).
    { intros d Hd. rewrite Hkeys1. apply Hin. by apply list_elem_of_further. }
    exists dependents'. split; [|split].
    + by rewrite (rfold_step _ _ _ _ _ Hstep).
    + by rewrite Hkeys.
    + intros d. rewrite Hget. unfold dependents1.
      destruct (decide (d = m)) as [->|Hne].
      * rewrite decide_False by done. rewrite decide_True by apply list_elem_of_here.
        by rewrite dget_dset_eq, Hl.
      * rewrite dget_dset_ne by done.
        destruct (decide (d ∈ ds)) as [Hd|Hd].
        -- rewrite decide_True; [done|]. by apply list_elem_of_further.
        -- rewrite decide_False; [done|]. intros H. apply elem_of_cons in H as [?|?]; done.
Qed.

Section init.

Variable set_order : list string -> list string.
Variable schemas : dict json.
Hypothesis set_order_valid : valid_set_order set_order.
Hypothesis schemas_nodup : NoDup (dkeys schemas).

#[local] Abbreviation names := (dkeys schemas).
#[local] Abbreviation deps := (local_deps set_order schemas).

Lemma valid_deps_nodup (schema : json) : NoDup (valid_deps set_order schemas schema).
Proof.
  unfold valid_deps, extract_schema_dependencies. apply NoDup_filter.
  apply set_order_valid.
Qed.

Lemma valid_deps_names (schema : json) (d : string) :
  d ∈ valid_deps set_order schemas schema -> d ∈ names.
Proof.
  unfold valid_deps. rewrite list_elem_of_filter. intros [Hd _].
  apply dhas_true. by apply Is_true_true.
Qed.

Lemma local_deps_nodup (n : string) : NoDup (deps n).
Proof.
  unfold local_deps. destruct (dget n schemas); [apply valid_deps_nodup|constructor].
Qed.

Lemma local_deps_names (n d : string) : d ∈ deps n -> d ∈ names.
Proof.
  unfold local_deps. destruct (dget n schemas); [apply valid_deps_names|].
  intros H. inversion H.
Qed.

Lemma local_deps_item (item : string * json) :
  item ∈ schemas -> deps (fst item) = valid_deps set_order schemas (snd item).
Proof.
  intros Hin. unfold local_deps. destruct item as [n s]. simpl.
  by rewrite (dget_elem_nodup schemas n s schemas_nodup Hin).
Qed.

(** The loop over [schemas.items()], from any state whose [dependents]
    holds every name. *)
Lemma collect_loop (items : list (string * json)) :
  forall (dependencies dependents : dict (list string)),
    (forall item, item ∈ items -> item ∈ schemas) ->
    dkeys dependents = names ->
    exists dependents',
      rfold (collect_step set_order schemas) items (dependencies, dependents)
      = Ok (fold_left (fun acc item => dset (fst item) (deps (fst item)) acc)
                      items dependencies,
            dependents')
      /\ dkeys dependents' = names
      /\ forall d, dget d dependents'
                   = (fun l => l ++ dependents_of (map fst items) deps d)
                       <$> dget d dependents.
Proof.
  induction items as [|item items IH]; intros dependencies dependents Hin Hkeys.
  - exists dependents. simpl. repeat split; [done|].
    intros d. destruct (dget d dependents); simpl; [|done]. by rewrite app_nil_r.
  - assert (Hitem : item ∈ schemas) by (apply Hin, list_elem_of_here).
    pose proof (local_deps_item item Hitem) as Hdeps.
    destruct (append_dependents (fst item) (deps (fst item)) dependents)
      as (dependents1 & Hrun1 & Hkeys1 & Hget1).
    { apply local_deps_nodup. }
    { intros d Hd. rewrite Hkeys. by eapply local_deps_names. }
    assert (Hstep : collect_step set_order schemas (dependencies, dependents) item
                    = Ok (dset (fst item) (deps (fst item)) dependencies, dependents1)).
    { unfold collect_step. cbn [fst snd]. rewrite <- Hdeps, Hrun1. done. }
    destruct (IH (dset (fst item) (deps (fst item)) dependencies) dependents1)
      as (dependents' & Hrun & Hkeys' & Hget).
    { intros x Hx. apply Hin. by apply list_elem_of_further. }
    { by rewrite Hkeys1. }
    exists dependents'. split; [|split; [done|]].
    + by rewrite (rfold_step _ _ _ _ _ Hstep).
    + intros d. rewrite Hget, Hget1. unfold dependents_of. simpl. rewrite filter_cons.
      destruct (decide (d ∈ deps (fst item))) as [Hd|Hd];
        destruct (dget d dependents); simpl; try done.
      by rewrite <- app_assoc.
Qed.

Lemma init_keys {V} (v : V) :
  dict_of_pairs (map (fun name => (name, v)) names) = map (fun name => (name, v)) names.
Proof. apply dict_of_pairs_nodup. rewrite map_map. simpl. by rewrite map_id. Qed.

Lemma dkeys_const {V} (v : V) (l : list string) :
  dkeys (map (fun name => (name, v)) l) = l.
Proof. unfold dkeys. rewrite map_map. simpl. apply map_id. Qed.

(** What the first two loops of [topological_sort_schemas] compute. *)
Lemma init_state :
  exists dependencies dependents,
    rfold (collect_step set_order schemas) schemas
          (dict_of_pairs (map (fun name => (name, [])) names),
           dict_of_pairs (map (fun name => (name, [])) names))
    = Ok (dependencies, dependents)
    /\ dkeys dependents = names
    /\ (forall d, d ∈ names -> dget d dependents = Some (dependents_of names deps d))
    /\ dkeys (in_degree_of names dependencies) = names
    /\ (forall n, n ∈ names ->
          dget n (in_degree_of names dependencies) = Some (Z.of_nat (length (deps n)))).
Proof.
  rewrite !init_keys.
  destruct (collect_loop schemas (map (fun name => (name, [])) names)
                         (map (fun name => (name, [])) names))
    as (dependents & Hrun & Hkeys & Hget); [done|apply dkeys_const|].
  eexists _, dependents. split; [exact Hrun|]. split; [done|]. split.
  { intros d Hd. rewrite Hget, (dget_map_keys (fun _ => []) names d Hd). done. }
  destruct (fold_dset_spec fst (fun item : string * json => deps (fst item)) schemas
              (map (fun name => (name, [])) names))
    as (HkeysD & HsetD & _).
  { done. }
  { intros item Hitem. rewrite dkeys_const. by apply (list_elem_of_fmap_2 fst). }
  set (dependencies := fold_left _ schemas _) in *.
  rewrite dkeys_const in HkeysD.
  unfold in_degree_of. rewrite init_keys.
  destruct (fold_dset_spec fst (fun entry : string * list string =>
                                   Z.of_nat (length (snd entry)))
              dependencies (map (fun name => (name, 0%Z)) names))
    as (HkeysI & HsetI & _).
  { fold (dkeys dependencies). by rewrite HkeysD. }
  { intros entry Hentry. rewrite dkeys_const, <- HkeysD.
    by apply (list_elem_of_fmap_2 fst). }
  split; [by rewrite HkeysI, dkeys_const|].
  intros n Hn.
  assert (Hentry : (n, deps n) ∈ dependencies).
  { apply dget_Some_elem.
    apply list_elem_of_fmap in Hn as ([n' s] & -> & Hitem). by apply (HsetD (n', s)). }
  by apply (HsetI (n, deps n)).
Qed.

(** The queue the loop starts from: the names of degree zero. *)
Lemma queue_spec (in_degree : dict Z) :
  NoDup (dkeys in_degree) ->
  let queue := map fst (filter (fun entry => (snd entry =? 0)%Z) in_degree) in
  NoDup queue /\ forall n, n ∈ queue <-> dget n in_degree = Some 0%Z.
Proof.
  unfold dkeys. induction in_degree as [|[k z] d IH]; intros Hnd; simpl.
  - split; [constructor|]. intros n. split; [intros H; inversion H|done].
  - simpl in Hnd. apply NoDup_cons in Hnd as [Hk Hnd]. destruct (IH Hnd) as [IHnd IHin].
    assert (Hnotin : forall n, n ∈ map fst (filter (fun entry => (snd entry =? 0)%Z) d) ->
                               n ∈ map fst d).
    { intros n Hn. apply list_elem_of_fmap in Hn as (e & -> & He).
      apply list_elem_of_filter in He as [_ He]. by apply (list_elem_of_fmap_2 fst). }
    rewrite filter_cons. simpl.
    destruct (Z.eqb_spec z 0) as [->|Hz]; simpl.
    + split.
      * constructor; [|done]. intros Hin. apply Hk. by apply Hnotin.
      * intros n. rewrite elem_of_cons, IHin.
        destruct (String.eqb_spec n k) as [Heq|Hne].
        -- split; [done|]. intros _. by left.
        -- split; [|by right]. intros [?|?]; done.
    + split; [done|]. intros n. rewrite IHin.
      destruct (String.eqb_spec n k) as [Heq|Hne]; [|done]. subst n.
      split; [|intros [= ?]; done].
      intros Hget. exfalso. apply Hk. apply dget_is_Some. eauto.
Qed.

Lemma pending_nil (n : string) : pending deps [] n = length (deps n).
Proof.
  unfold pending. f_equal. induction (deps n) as [|x l IH]; [done|].
  rewrite filter_cons_True; [by f_equal|]. intros H. inversion H.
Qed.

(** The whole function: Kahn's loop emits [emitted], the fallback appends
    the other names in declaration order. *)
Lemma topological_sort_schemas_run :
  exists emitted,
    kahn_result names deps emitted
    /\ topological_sort_schemas set_order schemas
       = Ok (emitted ++ filter (fun n => n ∉ emitted) names).
Proof.
  destruct init_state as (dependencies & dependents & Hrun & Hkeys & Hdependents
                          & HkeysI & Hdegree).
  set (in_degree := in_degree_of names dependencies) in *.
  destruct (queue_spec in_degree) as [Hqnd Hqin]; [by rewrite HkeysI|].
  assert (Hinv : kahn_inv names deps in_degree
                   (map fst (filter (fun entry => (snd entry =? 0)%Z) in_degree)) []).
  { constructor; simpl.
    - done.
    - done.
    - intros n Hn. apply Hqin in Hn. rewrite <- HkeysI. apply dget_is_Some. eauto.
    - intros n Hn. by rewrite pending_nil, Hdegree.
    - intros n Hn. rewrite pending_nil, Hqin, (Hdegree n Hn).
      split; [intros [= ?]; lia|intros ->; done].
    - intros l1 n l2 Heq. by destruct l1. }
  destruct (kahn_loop_result names deps schemas_nodup local_deps_nodup
              dependents Hdependents (length names) in_degree _ [] Hinv)
    as (emitted & Hloop & Hres); [simpl; lia|].
  exists emitted. split; [done|].
  unfold topological_sort_schemas. rewrite Hrun. cbn [mbind result_bind fst snd].
  unfold sort_from. fold in_degree. rewrite Hloop. cbn [mbind result_bind].
  destruct (Nat.eqb_spec (length emitted) (length names)) as [Hlen|Hlen]; simpl.
  - assert (Hperm : emitted ≡ₚ names).
    { apply submseteq_length_Permutation; [|lia].
      apply NoDup_submseteq; [by destruct Hres|]. intros n. by apply (res_names _ _ _ Hres). }
    assert (Hnil : filter (fun n => n ∉ emitted) names = []).
    { apply elem_of_nil_inv. intros n Hn. apply list_elem_of_filter in Hn as [Hn1 Hn2].
      apply Hn1. by rewrite Hperm. }
    by rewrite Hnil, app_nil_r.
  - by rewrite append_missing_fold.
Qed.

End init.

(** ** The order of the declarations (dependencies.py) *)

Lemma insertion_order_valid : valid_set_order insertion_order.
Proof.
  intros added. unfold insertion_order. split.
  - apply NoDup_ListNoDup, NoDup_rev, NoDup_ListNoDup, NoDup_remove_dups.
  - intros x. rewrite !list_elem_of_In, <- in_rev, <- !list_elem_of_In.
    rewrite elem_of_remove_dups. by rewrite !list_elem_of_In, <- in_rev.
Qed.

Lemma reverse_order_valid : valid_set_order reverse_order.
Proof.
  intros added. destruct (insertion_order_valid added) as [Hnd Hin].
  unfold reverse_order. split.
  - by apply NoDup_ListNoDup, NoDup_rev, NoDup_ListNoDup.
  - intros x. by rewrite list_elem_of_In, <- in_rev, <- list_elem_of_In.
Qed.

Lemma precedes_app (order rest : list string) (b a : string) :
  precedes order b a -> precedes (order ++ rest) b a.
Proof.
  intros (l1 & l2 & l3 & ->). exists l1, l2, (l3 ++ rest).
  by rewrite <- !app_assoc, <- !app_comm_cons, <- app_assoc.
Qed.

(** C2, amended. [topological_sort_schemas] returns, and what it returns is
    a permutation of the keys.  It is what Kahn's loop emitted followed by
    the other names in declaration order; the loop emits exactly the names
    that no cycle blocks, and for every local dependency edge from [a] to
    [b] where [a] is not blocked by a cycle, [b] stands before [a]. *)
Theorem topological_sort_schemas_order (set_order : list string -> list string)
    (schemas : dict json) :
  valid_set_order set_order -> NoDup (dkeys schemas) ->
  exists order emitted,
    topological_sort_schemas set_order schemas = Ok order
    /\ order ≡ₚ dkeys schemas
    /\ order = emitted ++ filter (fun n => n ∉ emitted) (dkeys schemas)
    /\ (forall n, n ∈ dkeys schemas ->
          (n ∈ emitted <-> ~ blocked (local_deps set_order schemas) n))
    /\ (forall a b,
          a ∈ dkeys schemas ->
          edge (local_deps set_order schemas) a b ->
          ~ blocked (local_deps set_order schemas) a ->
          precedes order b a).
Proof.
  intros Hvalid Hnd.
  destruct (topological_sort_schemas_run set_order schemas Hvalid Hnd)
    as (emitted & Hres & Hrun).
  pose proof (emitted_iff_not_blocked (dkeys schemas) (local_deps set_order schemas)
                (local_deps_names set_order schemas) emitted Hres) as Hblocked.
  exists (emitted ++ filter (fun n => n ∉ emitted) (dkeys schemas)), emitted.
  split; [done|]. split; [|split; [done|split; [done|]]].
  - etransitivity;
      [|apply (filter_app_complement (fun n => n ∈ emitted) (dkeys schemas))].
    apply Permutation_app; [|done].
    apply NoDup_Permutation; [by destruct Hres|by apply NoDup_filter|].
    intros n. rewrite list_elem_of_filter. split; [|tauto].
    intros Hn. split; [done|]. by apply (res_names _ _ _ Hres).
  - intros a b Ha He Hnb. apply precedes_app.
    apply (emitted_precedes (dkeys schemas) (local_deps set_order schemas) emitted Hres);
      [|done].
    by apply Hblocked.
Qed.

Lemma topological_sort_schemas_order_witness :
  exists order emitted,
    topological_sort_schemas insertion_order user_schemas = Ok order
    /\ order ≡ₚ dkeys user_schemas
    /\ order = emitted ++ filter (fun n => n ∉ emitted) (dkeys user_schemas)
    /\ (forall n, n ∈ dkeys user_schemas ->
          (n ∈ emitted <-> ~ blocked (local_deps insertion_order user_schemas) n))
    /\ (forall a b,
          a ∈ dkeys user_schemas ->
          edge (local_deps insertion_order user_schemas) a b ->
          ~ blocked (local_deps insertion_order user_schemas) a ->
          precedes order b a).
Proof.
  apply (topological_sort_schemas_order insertion_order user_schemas).
  - exact insertion_order_valid.
  - apply (bool_decide_unpack _). vm_compute. exact I.
Defined.

(** The reachable names of [self_loop_schemas]. *)
Lemma self_loop_reach (x y : string) :
  tc (edge (local_deps insertion_order self_loop_schemas)) x y ->
  (x = "A" -> y = "B" \/ y = "C") /\ (x = "B" -> y = "C") /\ (x = "C" -> y = "C").
Proof.
  assert (Hedge : forall x y,
             edge (local_deps insertion_order self_loop_schemas) x y ->
             (x = "A" -> y = "B") /\ (x = "B" -> y = "C") /\ (x = "C" -> y = "C")).
  { intros a b He. unfold edge in He.
    repeat split; intros ->; vm_compute in He;
      apply list_elem_of_singleton in He; done. }
  induction 1 as [x y He|x z y He Ht IH].
  - apply Hedge in He as (HA & HB & HC). repeat split; auto.
  - apply Hedge in He as (HA & HB & HC). destruct IH as (IA & IB & IC).
    repeat split; intros ->.
    + right. apply IB. by apply HA.
    + apply IC. by apply HB.
    + apply IC. by apply HC.
Qed.

(** C2, counterexample. [A] refers to [B], [B] to [C] and [C] to itself:
    neither [A] nor [B] lies on a cycle, the edge from [A] to [B] is a
    local dependency edge, and [B] does not stand before [A] in the
    result. *)
Lemma cycle_blocks_other_names :
  topological_sort_schemas insertion_order self_loop_schemas = Ok ["A"; "B"; "C"]
  /\ edge (local_deps insertion_order self_loop_schemas) "A" "B"
  /\ ~ on_cycle (local_deps insertion_order self_loop_schemas) "A"
  /\ ~ on_cycle (local_deps insertion_order self_loop_schemas) "B"
  /\ ~ precedes ["A"; "B"; "C"] "B" "A".
Proof.
  split; [reflexivity|]. split; [|split; [|split]].
  - unfold edge. vm_compute. apply list_elem_of_here.
  - intros H. apply self_loop_reach in H as (HA & _ & _).
    destruct (HA eq_refl); discriminate.
  - intros H. apply self_loop_reach in H as (_ & HB & _).
    specialize (HB eq_refl). discriminate.
  - intros (l1 & l2 & l3 & H).
    destruct l1 as [|x1 l1]; [discriminate|]. injection H as _ H.
    destruct l1 as [|x2 l1].
    + injection H as H. destruct l2 as [|y1 l2]; [discriminate|]. injection H as _ H.
      destruct l2; discriminate.
    + injection H as _ H. destruct l1 as [|x3 l1]; [discriminate|]. injection H as _ H.
      destruct l1; discriminate.
Qed.

(** ** Determinism (to_python.py) *)

Lemma local_deps_elem (o1 o2 : list string -> list string) (schemas : dict json)
    (n d : string) :
  valid_set_order o1 -> valid_set_order o2 ->
  d ∈ local_deps o1 schemas n <-> d ∈ local_deps o2 schemas n.
Proof.
  intros H1 H2. unfold local_deps. destruct (dget n schemas) as [schema|]; [|done].
  unfold valid_deps, extract_schema_dependencies. rewrite !list_elem_of_filter.
  by rewrite (proj2 (H1 _)), (proj2 (H2 _)).
Qed.

(** The order in which a set of dependencies is iterated does not reach
    the result. *)
Lemma topological_sort_schemas_any_order (o1 o2 : list string -> list string)
    (schemas : dict json) :
  valid_set_order o1 -> valid_set_order o2 -> NoDup (dkeys schemas) ->
  topological_sort_schemas o1 schemas = topological_sort_schemas o2 schemas.
Proof.
  intros H1 H2 Hnd.
  destruct (init_state o1 schemas H1 Hnd)
    as (D1 & P1 & Hrun1 & Hkeys1 & Hget1 & HkeysI1 & HgetI1).
  destruct (init_state o2 schemas H2 Hnd)
    as (D2 & P2 & Hrun2 & Hkeys2 & Hget2 & HkeysI2 & HgetI2).
  assert (HP : P1 = P2).
  { apply dict_ext; [congruence|by rewrite Hkeys1|].
    intros d Hd. rewrite Hkeys1 in Hd. rewrite Hget1, Hget2 by done. f_equal.
    apply filter_ext_elem. intros n _. by apply local_deps_elem. }
  assert (HI : in_degree_of (dkeys schemas) D1 = in_degree_of (dkeys schemas) D2).
  { apply dict_ext; [congruence|by rewrite HkeysI1|].
    intros n Hn. rewrite HkeysI1 in Hn. rewrite HgetI1, HgetI2 by done. do 2 f_equal.
    apply Permutation_length, NoDup_Permutation.
    - by apply local_deps_nodup.
    - by apply local_deps_nodup.
    - intros d. by apply local_deps_elem. }
  unfold topological_sort_schemas. rewrite Hrun1, Hrun2. cbn [mbind result_bind fst snd].
  by rewrite HP, HI.
Qed.

(** C1. Two compilations of the same document with the same options, each
    from a cleared format registry, return the same text (or raise the same
    exception), whatever order the sets of dependencies are iterated in. *)
Theorem compilation_deterministic (o1 o2 : list string -> list string)
    (r1 r2 : registry.PydanticSchemaRegistry) (openapi : dict json)
    (custom_import_lines : list string) (options : option (dict json)) :
  valid_set_order o1 -> valid_set_order o2 ->
  NoDup (dkeys (to_python.component_schemas openapi)) ->
  to_python.openapi_to_pydantic_code o1 (registry.clear r1) openapi
                                     custom_import_lines options
  = to_python.openapi_to_pydantic_code o2 (registry.clear r2) openapi
                                       custom_import_lines options.
Proof.
  intros H1 H2 Hnd. unfold to_python.openapi_to_pydantic_code.
  by rewrite (topological_sort_schemas_any_order o1 o2 _ H1 H2 Hnd).
Qed.

Lemma compilation_deterministic_witness :
  to_python.openapi_to_pydantic_code
    insertion_order (registry.clear registry.empty_registry) user_doc [] include_routes
  = to_python.openapi_to_pydantic_code
      reverse_order
      (registry.clear (fst (registry.register registry.empty_registry 0 email_registration)))
      user_doc [] include_routes.
Proof.
  apply (compilation_deterministic insertion_order reverse_order).
  - exact insertion_order_valid.
  - exact reverse_order_valid.
  - apply (bool_decide_unpack _). vm_compute. exact I.
Defined.

(** ** Grouping by fingerprint (schema_dedup.py) *)

Lemma group_of_snoc (fp : string) (seen : list NamedSchema) (item : NamedSchema) :
  group_of fp (seen ++ [item])
  = group_of fp seen ++ (if decide (fp_of item = fp) then [item] else []).
Proof.
  unfold group_of. by rewrite filter_app.
Qed.

Lemma group_of_snoc_eq (seen : list NamedSchema) (item : NamedSchema) :
  group_of (fp_of item) (seen ++ [item]) = group_of (fp_of item) seen ++ [item].
Proof. rewrite group_of_snoc. by rewrite decide_True. Qed.

Lemma group_of_snoc_ne (fp : string) (seen : list NamedSchema) (item : NamedSchema) :
  fp_of item <> fp -> group_of fp (seen ++ [item]) = group_of fp seen.
Proof. intros H. rewrite group_of_snoc. rewrite decide_False by done. apply app_nil_r. Qed.

Lemma group_entry_other (fingerprints : dict Group) (seen : list NamedSchema)
    (item : NamedSchema) (fp : string) :
  fp_of item <> fp ->
  match dget fp fingerprints with
  | Some g => group_entry seen fp g
  | None => group_of fp seen = []
  end ->
  match dget fp fingerprints with
  | Some g => group_entry (seen ++ [item]) fp g
  | None => group_of fp (seen ++ [item]) = []
  end.
Proof.
  intros Hne. destruct (dget fp fingerprints) as [g|].
  - intros (first & rest & Hg & H). exists first, rest.
    by rewrite group_of_snoc_ne.
  - by rewrite group_of_snoc_ne.
Qed.

Lemma group_item_inv (fingerprints fingerprints' : dict Group) (seen : list NamedSchema)
    (item : NamedSchema) :
  groups_inv fingerprints seen ->
  group_item fingerprints item = Ok fingerprints' ->
  groups_inv fingerprints' (seen ++ [item]).
Proof.
  intros [Hnd Hinv]. unfold group_item. fold (fp_of item).
  pose proof (Hinv (fp_of item)) as Hfp.
  destruct (dget (fp_of item) fingerprints) as [g|] eqn:Hget.
  - intros [= <-]. split.
    + rewrite dkeys_dset_present; [done|]. apply dget_is_Some. eauto.
    + intros fp. destruct (decide (fp_of item = fp)) as [<-|Hne].
      * rewrite dget_dset_eq. destruct Hfp as (first & rest & Hg & Hs & Hn & He).
        exists first, (rest ++ [item]). rewrite group_of_snoc_eq, Hg. simpl.
        rewrite Hn. simpl. repeat split; try done. by rewrite map_app.
      * rewrite dget_dset_ne by done. apply group_entry_other; [done|apply Hinv].
  - destruct (extract_error_code (ns_schema item)) as [code|e] eqn:Hcode; [|intros [=]].
    simpl. intros [= <-]. split.
    + rewrite dkeys_dset_absent by (by apply dget_None).
      apply NoDup_app. split; [done|]. split; [|apply NoDup_singleton].
      intros x Hx Hx'. apply list_elem_of_singleton in Hx' as ->.
      by apply dget_None in Hget.
    + intros fp. destruct (decide (fp_of item = fp)) as [<-|Hne].
      * rewrite dget_dset_eq. exists item, []. rewrite group_of_snoc_eq, Hfp. done.
      * rewrite dget_dset_ne by done. apply group_entry_other; [done|apply Hinv].
Qed.

Lemma group_items_inv (items : list NamedSchema) :
  forall (fingerprints fingerprints' : dict Group) (seen : list NamedSchema),
    groups_inv fingerprints seen ->
    rfold group_item items fingerprints = Ok fingerprints' ->
    groups_inv fingerprints' (seen ++ items).
Proof.
  induction items as [|item items IH]; intros fingerprints fingerprints' seen Hinv.
  - simpl. intros [= <-]. by rewrite app_nil_r.
  - simpl. destruct (group_item fingerprints item) as [f1|e] eqn:Hstep; [|intros [=]].
    simpl. intros Hrest. rewrite (cons_middle item seen items), app_assoc.
    eapply IH; [|exact Hrest]. by eapply group_item_inv.
Qed.

Lemma insert_by_count_perm (x : CommonSchema) (l : list CommonSchema) :
  insert_by_count x l ≡ₚ x :: l.
Proof.
  induction l as [|y l IH]; simpl; [done|].
  destruct (count y <=? count x)%nat; [done|].
  rewrite IH. apply Permutation_swap.
Qed.

Lemma sort_by_count_desc_perm (l : list CommonSchema) : sort_by_count_desc l ≡ₚ l.
Proof.
  unfold sort_by_count_desc. induction l as [|x l IH]; simpl; [done|].
  by rewrite insert_by_count_perm, IH.
Qed.


(** ** Derived names are not empty (to_python.py) *)




Lemma rfold_inv {A B} (P : B -> Prop) (f : B -> A -> Result B) (l : list A) :
  (forall acc x acc', P acc -> x ∈ l -> f acc x = Ok acc' -> P acc') ->
  forall acc acc', P acc -> rfold f l acc = Ok acc' -> P acc'.
Proof.
  induction l as [|x l IH]; intros Hstep acc acc' Hacc; simpl.
  - by intros [= <-].
  - destruct (f acc x) as [acc1|e] eqn:Hf; [|intros [=]]. simpl.
    apply IH.
    + intros a y a' Ha Hy. apply Hstep; [done|]. by apply list_elem_of_further.
    + eapply Hstep; [done|apply list_elem_of_here|done].
Qed.


(** Every response with a true schema is collected, whatever its status. *)
Lemma collect_all_responses (routes : list routes.RouteInfo) (items : list NamedSchema) :
  to_python._collect_route_schemas routes = Ok items ->
  forall route status schema,
    route ∈ routes -> (status, schema) ∈ routes.responses route ->
    Json.truthy schema = true ->
    exists n, to_python.response_schema_name_of route status = Ok n
              /\ {| ns_name := n; ns_schema := schema |} ∈ items.
Proof.
  unfold to_python._collect_route_schemas.
  assert (Hinner : forall route entries acc acc',
             rfold (to_python.collect_response route) entries acc = Ok acc' ->
             (forall item, item ∈ acc -> item ∈ acc')
             /\ forall status schema,
                 (status, schema) ∈ entries -> Json.truthy schema = true ->
                 exists n, to_python.response_schema_name_of route status = Ok n
                           /\ {| ns_name := n; ns_schema := schema |} ∈ acc').
  { intros route entries. induction entries as [|entry entries IH]; intros acc acc'.
    - simpl. intros [= <-]. split; [done|]. intros ? ? H. inversion H.
    - simpl. destruct (to_python.collect_response route acc entry) as [acc1|e] eqn:Hstep;
        [|intros [=]].
      simpl. intros Hrest. destruct (IH _ _ Hrest) as [Hmono Hall].
      unfold to_python.collect_response in Hstep.
      destruct (Json.truthy (snd entry)) eqn:Htruthy; simpl in Hstep.
      + destruct (to_python.response_schema_name_of route (fst entry)) as [n|e] eqn:Hn;
          [|done].
        simpl in Hstep. injection Hstep as <-. split.
        * intros item Hitem. apply Hmono, elem_of_app. by left.
        * intros status schema Hin Ht. apply elem_of_cons in Hin as [<-|Hin]; [|eauto].
          exists n. split; [done|]. apply Hmono, elem_of_app. right.
          apply list_elem_of_here.
      + injection Hstep as <-. split; [done|].
        intros status schema Hin Ht. apply elem_of_cons in Hin as [<-|Hin]; [|eauto].
        simpl in Htruthy. congruence. }
  revert items. generalize (@nil NamedSchema).
  induction routes as [|route0 routes IH]; intros acc items.
  - intros _ route status schema H. inversion H.
  - simpl.
    destruct (rfold (to_python.collect_response route0) (routes.responses route0) acc)
      as [acc1|e] eqn:Hstep; [|intros [=]].
    simpl. intros Hrest route status schema Hroute Hin Ht.
    assert (Hmono : forall item, item ∈ acc1 -> item ∈ items).
    { clear -Hrest Hinner. revert acc1 Hrest.
      induction routes as [|r rs IHr]; intros acc1; simpl.
      - by intros [= <-].
      - destruct (rfold (to_python.collect_response r) (routes.responses r) acc1)
          as [acc2|e] eqn:Hs; [|intros [=]].
        simpl. intros Hrest item Hitem. apply (IHr _ Hrest).
        by apply (Hinner _ _ _ _ Hs). }
    apply elem_of_cons in Hroute as [->|Hroute].
    + destruct (Hinner _ _ _ _ Hstep) as [_ Hall].
      destruct (Hall status schema Hin Ht) as (n & Hn & Hitem). eauto.
    + by apply (IH acc1 items Hrest).
Qed.

(** ** Registration of route schemas (to_python.py) *)

Import to_python.


(** A schema whose fingerprint is not registered is emitted in full. *)
Lemma register_and_emit_new (reg : registry.PydanticSchemaRegistry) (st : RouteGen)
    (n : string) (s : json) (lines : list string) :
  fingerprint_to_name (gen_registry st) !! get_schema_fingerprint s = None ->
  _emit_schema_definition reg n s = Ok lines ->
  register_and_emit reg st n s
  = Ok {| gen_registry := pre_register_schema (gen_registry st) n (get_schema_fingerprint s);
          declarations := declarations st ++ lines;
          schema_name_to_canonical := dset n n (schema_name_to_canonical st) |}.
Proof.
  intros Hget Hlines. unfold register_and_emit.
  rewrite (register_schema_absent _ n s Hget). simpl. by rewrite Hlines.
Qed.

Lemma register_schema_extends (r r0 : SchemaRegistry) (n : string) (s : json) :
  names_nonempty r -> extends r r0 -> extends r (fst (register_schema r0 n s)).
Proof.
  intros Hne Hext. unfold register_schema.
  destruct (fingerprint_to_name r0 !! get_schema_fingerprint s) as [e|] eqn:He; simpl.
  - destruct (String.eqb_spec e "") as [->|Hne']; simpl; [|done].
    intros fp m Hm. simpl. rewrite lookup_insert. case_decide as Hfp; [|by apply Hext].
    subst fp. apply Hext in Hm as Hm'. rewrite He in Hm'. injection Hm' as <-.
    by apply Hne in Hm.
  - intros fp m Hm. simpl. rewrite lookup_insert. case_decide as Hfp; [|by apply Hext].
    subst fp. apply Hext in Hm. congruence.
Qed.

Lemma register_and_emit_extends (reg : registry.PydanticSchemaRegistry) (r : SchemaRegistry)
    (st st' : RouteGen) (n : string) (s : json) :
  names_nonempty r -> extends r (gen_registry st) ->
  register_and_emit reg st n s = Ok st' -> extends r (gen_registry st').
Proof.
  intros Hne Hext. unfold register_and_emit.
  pose proof (register_schema_extends r (gen_registry st) n s Hne Hext) as Hext'.
  destruct (register_schema (gen_registry st) n s) as [r' res]. simpl in Hext'.
  destruct (is_new res).
  - destruct (_emit_schema_definition reg n s); [|intros [=]]. simpl. by intros [= <-].
  - destruct (negb (String.eqb n (canonical_name res))); by intros [= <-].
Qed.

(** Through the whole of [_generate_route_schemas], the entries of a
    registry of non-empty names stay what they are. *)
Lemma _generate_route_schemas_extends (reg : registry.PydanticSchemaRegistry)
    (routes : list routes.RouteInfo) (r : SchemaRegistry) (gen : RouteGen) :
  names_nonempty r ->
  _generate_route_schemas reg routes r = Ok gen -> extends r (gen_registry gen).
Proof.
  intros Hne. unfold _generate_route_schemas.
  apply (rfold_inv (fun st => extends r (gen_registry st))); [|by intros fp n H].
  intros st route st' Hst _. unfold generate_route.
  assert (Hopt : forall (o : option string) (s : json) (st0 : RouteGen) st1,
             extends r (gen_registry st0) ->
             match o with
             | Some n => register_and_emit reg st0 n s
             | None => Ok st0
             end = Ok st1 -> extends r (gen_registry st1)).
  { intros [n|] s st0 st1 H0; [by apply register_and_emit_extends|by intros [= <-]]. }
  repeat match goal with
         | |- (mbind _ ?m) = Ok _ -> _ =>
             let st1 := fresh "st" in let H := fresh "H" in
             destruct m as [st1|] eqn:H; [apply Hopt in H; [|done]|intros [=]];
             cbn [mbind result_bind]
         end.
  apply (rfold_inv (fun st => extends r (gen_registry st))); [|done].
  intros acc entry acc' Hacc _. unfold register_response.
  destruct (negb (Json.truthy (snd entry))); [by intros [= <-]|].
  destruct (response_schema_name_of route (fst entry)); [|intros [=]]. simpl.
  by apply register_and_emit_extends.
Qed.



(** ** The error-response hoisting pass (to_python.py, schema_dedup.py) *)









Section route_pass.

Variable reg : PydanticSchemaRegistry.
Variable registry1 : SchemaRegistry.
Variable items : list NamedSchema.
Hypothesis registry1_nonempty : names_nonempty registry1.
Hypothesis registry1_groups :
  forall fp, 2 <= occurrences fp items -> is_Some (fingerprint_to_name registry1 !! fp).




End route_pass.

(** The components of a document without the empty key register
    non-empty names only. *)
Lemma components_names_nonempty (reg : PydanticSchemaRegistry) (schemas : dict json)
    (order : list string) :
  forall lines lines' r r',
    "" ∉ order -> names_nonempty r ->
    rfold (emit_component reg schemas) order (lines, r) = Ok (lines', r') ->
    names_nonempty r'.
Proof.
  induction order as [|n order IH]; intros lines lines' r r' Hn Hr.
  - simpl. by intros [= <- <-].
  - simpl. destruct (emit_component reg schemas (lines, r) n) as [[lines1 r1]|] eqn:Hstep;
      [|intros [=]].
    simpl. apply IH.
    + intros H. apply Hn. by apply list_elem_of_further.
    + unfold emit_component in Hstep. cbn [fst snd] in Hstep.
      assert (Hreg : names_nonempty
                       (pre_register_schema r n
                          (get_schema_fingerprint (Json.get n schemas)))).
      { intros fp m. simpl. rewrite lookup_insert. case_decide.
        - intros [= <-] ->. apply Hn, list_elem_of_here.
        - apply Hr. }
      destruct (Json.get n schemas); try (by injection Hstep as <- <-).
      all: destruct (_emit_schema_definition reg n _); [|done].
      all: by injection Hstep as <- <-.
Qed.



(** ** The bounds of the embedding are never reached *)

Lemma in_fuel_ok {A} (a : A) : in_fuel (Ok a).
Proof. done. Qed.

Lemma in_fuel_bind {A B} (m : Result A) (k : A -> Result B) :
  in_fuel m -> (forall a, m = Ok a -> in_fuel (k a)) -> in_fuel (m ≫= k).
Proof.
  intros Hm Hk. destruct m as [a|e]; [by apply Hk|].
  intros H. apply Hm. cbn in H. by injection H as ->.
Qed.

Lemma in_fuel_rmap {A B} (f : A -> Result B) (l : list A) :
  (forall x, x ∈ l -> in_fuel (f x)) -> in_fuel (rmap f l).
Proof.
  induction l as [|x l IH]; intros H; simpl; [done|].
  apply in_fuel_bind; [apply H, list_elem_of_here|]. intros y _.
  apply in_fuel_bind; [|done]. apply IH. intros z Hz. apply H. by apply list_elem_of_further.
Qed.

Lemma in_fuel_rfold {A B} (f : B -> A -> Result B) (l : list A) (acc : B) :
  (forall acc x, x ∈ l -> in_fuel (f acc x)) -> in_fuel (rfold f l acc).
Proof.
  revert acc. induction l as [|x l IH]; intros acc H; simpl; [done|].
  apply in_fuel_bind; [apply H, list_elem_of_here|]. intros acc' _.
  apply IH. intros a z Hz. apply H. by apply list_elem_of_further.
Qed.

Lemma depth_items (x : json) (items : list json) :
  x ∈ items -> Json.depth x < Json.depth (JList items).
Proof.
  simpl. induction items as [|y items IH]; intros H; [inversion H|].
  apply elem_of_cons in H as [->|H]; simpl; [lia|]. specialize (IH H). lia.
Qed.

Lemma depth_entry (k : string) (v : json) (d : dict json) :
  (k, v) ∈ d -> Json.depth v < Json.depth (JDict d).
Proof.
  simpl. induction d as [|[k' v'] d IH]; intros H; [inversion H|].
  apply elem_of_cons in H as [[= -> ->]|H]; simpl; [lia|]. specialize (IH H). lia.
Qed.

Lemma depth_values (v : json) (d : dict json) :
  v ∈ dvalues d -> Json.depth v < Json.depth (JDict d).
Proof.
  unfold dvalues. intros H. apply list_elem_of_fmap in H as ([k v'] & -> & H).
  by eapply depth_entry.
Qed.

Lemma depth_dget (k : string) (v : json) (d : dict json) :
  dget k d = Some v -> Json.depth v < Json.depth (JDict d).
Proof. intros H. eapply depth_entry. by apply dget_Some_elem. Qed.

Lemma depth_get (k : string) (d : dict json) :
  Json.depth (Json.get k d) < Json.depth (JDict d).
Proof.
  unfold Json.get. destruct (dget k d) eqn:H; [by eapply depth_dget|]. simpl. lia.
Qed.

Lemma flat_map_ext_elem {A B} (f g : A -> list B) (l : list A) :
  (forall x, x ∈ l -> f x = g x) -> flat_map f l = flat_map g l.
Proof.
  induction l as [|x l IH]; intros H; simpl; [done|].
  rewrite (H x) by apply list_elem_of_here. f_equal. apply IH.
  intros y Hy. apply H. by apply list_elem_of_further.
Qed.

(** [traverse] has walked the whole document once [fuel] covers its
    depth. *)
Lemma traverse_fuel (fuel1 : nat) :
  forall (fuel2 : nat) (obj : json),
    Json.depth obj <= fuel1 -> Json.depth obj <= fuel2 ->
    dependencies.traverse fuel1 obj = dependencies.traverse fuel2 obj.
Proof.
  induction fuel1 as [|fuel1 IH]; intros fuel2 obj H1 H2.
  - destruct obj; simpl in H1; try lia; by destruct fuel2.
  - destruct fuel2 as [|fuel2]; [destruct obj; simpl in H2; try lia; done|].
    assert (Hsub : forall v, Json.depth v < Json.depth obj ->
                             dependencies.traverse fuel1 v = dependencies.traverse fuel2 v)
      by (intros v Hv; apply IH; lia).
    destruct obj as [| | | | |items|d]; try done.
    + simpl. apply flat_map_ext_elem. intros x Hx. apply Hsub. by apply depth_items.
    + cbn [dependencies.traverse].
      pose proof (depth_get "properties" d) as Hprops.
      pose proof (depth_get "additionalProperties" d) as Hadd.
      pose proof (depth_get "discriminator" d) as Hdisc.
      destruct (Json.get "$ref" d); try done.
      all: f_equal; [|f_equal; [|f_equal]].
      all: try (apply flat_map_ext_elem; intros key _;
                destruct (dget key d) as [v|] eqn:Hv; [|done];
                apply Hsub; by eapply depth_dget).
      all: try (destruct (Json.get "properties" d) as [| | | | | |props]; try done;
                apply flat_map_ext_elem; intros v Hv; apply Hsub;
                apply depth_values in Hv; lia).
      all: try (destruct (Json.get "additionalProperties" d); try done; by apply Hsub).
      all: destruct (Json.get "discriminator" d) as [| | | | | |disc]; try done;
        pose proof (depth_get "mapping" disc) as Hmap;
        destruct (Json.get "mapping" disc) as [| | | | | |mapping]; try done;
        apply flat_map_ext_elem; intros v Hv; apply Hsub;
        apply depth_values in Hv; lia.
Qed.

Lemma in_fuel_in_str_set (v : json) (set : list string) : in_fuel (Json.in_str_set v set).
Proof. by destruct v. Qed.

Section converters.

Variable d : dict json.
Variable convert_schema : json -> Result string.
Hypothesis convert_in_fuel :
  forall v, Json.depth v < Json.depth (JDict d) -> in_fuel (convert_schema v).

Lemma convert_member_in_fuel (key : string) (items : list json) (item : json) :
  Json.get key d = JList items -> item ∈ items -> in_fuel (convert_schema item).
Proof.
  intros Hget Hitem. apply convert_in_fuel.
  pose proof (depth_get key d) as Hd. rewrite Hget in Hd.
  apply depth_items in Hitem. lia.
Qed.

Lemma union_in_fuel : in_fuel (union.convert_openapi_union_to_pydantic d convert_schema).
Proof.
  unfold union.convert_openapi_union_to_pydantic.
  destruct (Json.get "oneOf" d) as [| | | | |items|] eqn:Hget; try done.
  apply in_fuel_bind.
  - apply in_fuel_rmap. intros item Hitem. apply list_elem_of_filter in Hitem as [_ Hitem].
    by eapply convert_member_in_fuel.
  - intros item_types _. destruct item_types; [done|].
    by repeat case_match.
Qed.

Lemma intersection_in_fuel :
  in_fuel (intersection.convert_openapi_intersection_to_pydantic d convert_schema).
Proof.
  unfold intersection.convert_openapi_intersection_to_pydantic.
  destruct (Json.get "allOf" d) as [| | | | |items|] eqn:Hget; try done.
  apply in_fuel_bind.
  - apply in_fuel_rmap. intros item Hitem. apply list_elem_of_filter in Hitem as [_ Hitem].
    by eapply convert_member_in_fuel.
  - intros parts _. by repeat case_match.
Qed.

Lemma array_in_fuel : in_fuel (array.convert_openapi_array_to_pydantic d convert_schema).
Proof.
  unfold array.convert_openapi_array_to_pydantic.
  apply in_fuel_bind; [|done].
  pose proof (depth_get "items" d) as Hd.
  destruct (Json.get "items" d); try done. by apply convert_in_fuel.
Qed.

Lemma object_in_fuel : in_fuel (object.convert_openapi_object_to_pydantic d convert_schema).
Proof.
  unfold object.convert_openapi_object_to_pydantic.
  destruct (_ && _); [done|].
  pose proof (depth_get "additionalProperties" d) as Hd.
  destruct (Json.get "additionalProperties" d); try done.
  apply in_fuel_bind; [by apply convert_in_fuel|done].
Qed.

End converters.

Lemma number_in_fuel (reg : registry.PydanticSchemaRegistry) (d : dict json) :
  in_fuel (number.convert_openapi_number_to_pydantic reg d).
Proof.
  unfold number.convert_openapi_number_to_pydantic.
  destruct (Json.get "enum" d); try done.
  all: apply in_fuel_bind; [apply in_fuel_in_str_set|]; intros is_in _; by repeat case_match.
Qed.

Lemma schema_to_type_expr_in_fuel (reg : registry.PydanticSchemaRegistry) (fuel : nat) :
  forall schema,
    Json.depth schema < fuel -> in_fuel (to_python.schema_to_type_expr_fuel reg fuel schema).
Proof.
  induction fuel as [|fuel IH]; intros schema Hfuel; [lia|].
  destruct schema as [| | | | | |d]; try done.
  assert (Hconv : forall v, Json.depth v < Json.depth (JDict d) ->
                            in_fuel (to_python.schema_to_type_expr_fuel reg fuel v))
    by (intros v Hv; apply IH; lia).
  pose proof (union_in_fuel d _ Hconv) as Hunion.
  pose proof (intersection_in_fuel d _ Hconv) as Hinter.
  pose proof (array_in_fuel d _ Hconv) as Harray.
  pose proof (object_in_fuel d _ Hconv) as Hobject.
  pose proof (number_in_fuel reg d) as Hnumber.
  cbn [to_python.schema_to_type_expr_fuel].
  assert (Htail :
    in_fuel
      (let schema_type := Json.get "type" d in
       if Json.eq_str schema_type "string" then
         Ok (to_python._wrap_nullable (string.convert_openapi_string_to_pydantic reg d) d)
       else
         is_num ← Json.in_str_set schema_type ["number"; "integer"];
         if (is_num : bool) then
           expr ← number.convert_openapi_number_to_pydantic reg d;
           Ok (to_python._wrap_nullable expr d)
         else if Json.eq_str schema_type "boolean" then
           Ok (to_python._wrap_nullable (boolean.convert_openapi_boolean_to_pydantic reg d) d)
         else if Json.eq_str schema_type "array" then
           expr ← array.convert_openapi_array_to_pydantic d
                    (to_python.schema_to_type_expr_fuel reg fuel);
           Ok (to_python._wrap_nullable expr d)
         else if Json.eq_str schema_type "object" || dhas "properties" d then
           expr ← object.convert_openapi_object_to_pydantic d
                    (to_python.schema_to_type_expr_fuel reg fuel);
           Ok (to_python._wrap_nullable expr d)
         else
           match Json.get "enum" d with
           | JList values => Ok (to_python._wrap_nullable (literal_of values) d)
           | _ => Ok (to_python._wrap_nullable "Any" d)
           end)).
  { cbv zeta. destruct (Json.eq_str (Json.get "type" d) "string"); [done|].
    apply in_fuel_bind; [apply in_fuel_in_str_set|]. intros is_num _.
    destruct is_num; [by apply in_fuel_bind|].
    destruct (Json.eq_str _ "boolean"); [done|].
    destruct (Json.eq_str _ "array"); [by apply in_fuel_bind|].
    destruct (_ || _); [by apply in_fuel_bind|].
    by destruct (Json.get "enum" d). }
  cbv zeta in Htail.
  destruct (Json.get "$ref" d); try (by destruct (negb _)).
  all: destruct (Json.get "oneOf" d); try (by apply in_fuel_bind).
  all: destruct (Json.get "allOf" d); try (by apply in_fuel_bind).
  all: exact Htail.
Qed.

Lemma _schema_to_type_expr_in_fuel (reg : registry.PydanticSchemaRegistry) (schema : json) :
  in_fuel (to_python._schema_to_type_expr reg schema).
Proof. apply schema_to_type_expr_in_fuel. lia. Qed.

Lemma append_inj_r (s a b : string) : s +:+ a = s +:+ b -> a = b.
Proof. induction s as [|c s IH]; simpl; [done|]. intros [= H]. by apply IH. Qed.

(** The search for a free suffix stops within [fuel] steps when one of the
    next [fuel + 1] candidates is free. *)
Lemma free_index_in_fuel (name : string) (used : list string) (fuel : nat) :
  forall index,
    (exists i, index <= i <= index + fuel /\ name +:+ "_" +:+ pretty i ∉ used) ->
    in_fuel (to_python.free_index fuel name used index).
Proof.
  induction fuel as [|fuel IH]; intros index (i & Hi & Hfree); simpl.
  - assert (i = index) as -> by lia.
    apply str_in_not_elem in Hfree. by rewrite Hfree.
  - destruct (Py.str_in _ used) eqn:Hin; [|done].
    apply IH. exists i. split; [|done].
    destruct (decide (i = index)) as [->|Hne]; [|lia].
    apply str_in_not_elem in Hfree. congruence.
Qed.

(** More candidates than names in use: one of them is free. *)
Lemma free_candidate (name : string) (used : list string) (index : nat) :
  exists i, index <= i <= index + length used /\ name +:+ "_" +:+ pretty i ∉ used.
Proof.
  set (cand := fun i : nat => name +:+ "_" +:+ pretty i).
  assert (Hinj : Inj eq eq cand).
  { intros i j H. unfold cand in H. apply append_inj_r, append_inj_r in H.
    by apply pretty_nat_inj in H. }
  destruct (decide (Forall (fun i => cand i ∈ used) (seq index (S (length used)))))
    as [Hall|Hsome].
  - assert (Hsub : cand <$> seq index (S (length used)) ⊆+ used).
    { apply NoDup_submseteq.
      - apply NoDup_fmap_2; [done|apply NoDup_seq].
      - intros s Hs. apply list_elem_of_fmap in Hs as (i & -> & Hi).
        rewrite Forall_forall in Hall. by apply Hall. }
    apply submseteq_length in Hsub. rewrite length_fmap, length_seq in Hsub. lia.
  - apply not_Forall_Exists in Hsome; [|apply _].
    apply Exists_exists in Hsome as (i & Hi & Hfree).
    apply elem_of_seq in Hi. exists i. split; [lia|done].
Qed.

Lemma _dedupe_name_in_fuel (name : string) (used : list string) :
  in_fuel (to_python._dedupe_name name used).
Proof.
  unfold to_python._dedupe_name. destruct (negb _); [done|].
  apply in_fuel_bind; [|done]. apply free_index_in_fuel, free_candidate.
Qed.

Lemma _generate_model_lines_in_fuel (reg : registry.PydanticSchemaRegistry) (name : string)
    (schema : json) (base_classes : list string) :
  in_fuel (to_python._generate_model_lines reg name schema base_classes).
Proof.
  unfold to_python._generate_model_lines.
  apply in_fuel_bind.
  { destruct schema as [| | | | | |d]; try done.
    destruct (Json.get_default "required" d (JList [])) as [| | | | |items|]; try done.
    simpl. by destruct (forallb _ _). }
  intros required _. apply in_fuel_bind.
  - destruct (match schema with JDict d => Json.get "properties" d | _ => JNull end);
      try done.
    apply in_fuel_rfold. intros [[alias_used field_lines] used_names] prop _.
    unfold to_python.model_field.
    apply in_fuel_bind; [apply _dedupe_name_in_fuel|]. intros deduped _.
    apply in_fuel_bind; [apply _schema_to_type_expr_in_fuel|done].
  - by intros [[alias_used field_lines] used_names] _.
Qed.

Lemma _extract_inline_object_models_in_fuel (emit : string -> json -> Result (list string))
    (parent_name : string) (schema : json) :
  (forall d properties name key value,
     schema = JDict d -> Json.get "properties" d = JDict properties ->
     (key, value) ∈ properties -> in_fuel (emit name value)) ->
  in_fuel (to_python._extract_inline_object_models emit parent_name schema).
Proof.
  intros Hemit. unfold to_python._extract_inline_object_models.
  destruct schema as [| | | | | |d]; try done.
  destruct (Json.get "properties" d) as [| | | | | |properties] eqn:Hprops; try done.
  apply in_fuel_bind; [|intros st _; by destruct (Json.eqb _ _)].
  apply in_fuel_rfold. intros st [key value] Hprop. unfold to_python.inline_property.
  destruct (negb _); [done|]. apply in_fuel_bind; [|done]. by eapply Hemit.
Qed.

Lemma emit_plain_in_fuel (reg : registry.PydanticSchemaRegistry)
    (emit : string -> json -> Result (list string)) (name : string) (schema : json) :
  (forall name value, Json.depth value < Json.depth schema -> in_fuel (emit name value)) ->
  in_fuel (to_python.emit_plain reg emit name schema).
Proof.
  intros Hemit. unfold to_python.emit_plain.
  destruct (to_python._is_freeform_object schema); [done|].
  destruct (match schema with JDict d => to_python.is_object_like d | _ => false end).
  - apply in_fuel_bind.
    + apply _extract_inline_object_models_in_fuel.
      intros d properties name' key value -> Hprops Hvalue. apply Hemit.
      pose proof (depth_get "properties" d) as Hd. rewrite Hprops in Hd.
      apply depth_entry in Hvalue. lia.
    + intros extracted _. apply in_fuel_bind; [apply _generate_model_lines_in_fuel|done].
  - apply in_fuel_bind; [apply _schema_to_type_expr_in_fuel|done].
Qed.

Lemma dset_Forall {V} (P : string * V -> Prop) (k : string) (v : V) (d : dict V) :
  P (k, v) -> Forall P d -> Forall P (dset k v d).
Proof.
  intros Hkv. induction 1 as [|[k' v'] d Hx Hd IH]; simpl; [by constructor|].
  destruct (String.eqb k k'); by constructor.
Qed.

Lemma dupdate_Forall {V} (P : string * V -> Prop) (d other : dict V) :
  Forall P d -> Forall P other -> Forall P (dupdate d other).
Proof.
  unfold dupdate. intros Hd Hother. revert d Hd.
  induction Hother as [|[k v] other Hkv Hother IH]; intros d Hd; simpl; [done|].
  apply IH. by apply dset_Forall.
Qed.

(** The properties merged from the members of an [allOf] are properties of
    these members. *)
Lemma all_of_parts_depth (all_of : list json) (parts : list json) :
  forall st,
    (forall part, part ∈ parts -> part ∈ all_of) ->
    Forall (fun kv => Json.depth (snd kv) < Json.depth (JList all_of))
           (to_python.inline_properties st) ->
    Forall (fun kv => Json.depth (snd kv) < Json.depth (JList all_of))
           (to_python.inline_properties (fold_left to_python.all_of_part parts st)).
Proof.
  induction parts as [|part parts IH]; intros st Hsub Hst; simpl; [done|].
  apply IH; [intros p Hp; apply Hsub; by apply list_elem_of_further|].
  assert (Hpart : Json.depth part < Json.depth (JList all_of))
    by (apply depth_items, Hsub, list_elem_of_here).
  unfold to_python.all_of_part.
  destruct part as [| | | | | |p]; try done.
  destruct (Json.get "$ref" p); try done.
  all: destruct (to_python.is_object_like p); try done.
  all: cbn [to_python.inline_properties].
  all: pose proof (depth_get "properties" p) as Hprops.
  all: destruct (Json.get "properties" p) as [| | | | | |props]; try done.
  all: apply dupdate_Forall; [done|].
  all: apply Forall_forall; intros [key value] Hkv; apply depth_entry in Hkv; cbn [snd]; lia.
Qed.

Lemma emit_schema_definition_in_fuel (reg : registry.PydanticSchemaRegistry) (fuel : nat) :
  forall name schema,
    Json.depth schema < fuel ->
    in_fuel (to_python.emit_schema_definition_fuel reg fuel name schema).
Proof.
  induction fuel as [|fuel IH]; intros name schema Hfuel; [lia|].
  cbn [to_python.emit_schema_definition_fuel].
  assert (Hplain : in_fuel (to_python.emit_plain reg
                              (to_python.emit_schema_definition_fuel reg fuel) name schema)).
  { apply emit_plain_in_fuel. intros name' value Hvalue. apply IH. lia. }
  destruct (match schema with JDict d => Json.get "allOf" d | _ => JNull end)
    as [| | | | |all_of|] eqn:Hall; try done.
  set (parts := fold_left to_python.all_of_part all_of _).
  destruct (negb (to_python.non_object_part parts)); [|done].
  assert (Hdepth : Json.depth (JList all_of) < Json.depth schema).
  { destruct schema as [| | | | | |d]; try done.
    rewrite <- Hall. apply depth_get. }
  apply in_fuel_bind.
  - apply _extract_inline_object_models_in_fuel.
    intros d properties name' key value [= <-] [= <-] Hvalue. apply IH.
    pose proof (all_of_parts_depth all_of all_of
                  {| to_python.base_classes := []; to_python.inline_properties := [];
                     to_python.inline_required := [];
                     to_python.additional_properties_false := false;
                     to_python.non_object_part := false |}
                  (fun _ H => H) (Forall_nil_2 _)) as Hparts.
    rewrite Forall_forall in Hparts. specialize (Hparts _ Hvalue). simpl in Hparts.
    simpl in Hdepth. lia.
  - intros extracted _. apply in_fuel_bind; [apply _generate_model_lines_in_fuel|done].
Qed.

Lemma _emit_schema_definition_in_fuel (reg : registry.PydanticSchemaRegistry) (name : string)
    (schema : json) :
  in_fuel (to_python._emit_schema_definition reg name schema).
Proof. apply emit_schema_definition_in_fuel. lia. Qed.

Lemma response_schema_name_of_in_fuel (route : routes.RouteInfo) (status_code : string) :
  in_fuel (to_python.response_schema_name_of route status_code).
Proof.
  unfold to_python.response_schema_name_of, to_python._generate_route_schema_name.
  by destruct (routes.method route).
Qed.

Lemma _collect_route_schemas_in_fuel (routes : list routes.RouteInfo) :
  in_fuel (to_python._collect_route_schemas routes).
Proof.
  apply in_fuel_rfold. intros collected route _.
  apply in_fuel_rfold. intros acc entry _. unfold to_python.collect_response.
  destruct (negb _); [done|].
  apply in_fuel_bind; [apply response_schema_name_of_in_fuel|done].
Qed.

Lemma extract_error_code_in_fuel (schema : json) :
  in_fuel (schema_dedup.extract_error_code schema).
Proof. unfold schema_dedup.extract_error_code. by repeat case_match. Qed.

Lemma find_common_schemas_in_fuel (schemas : list schema_dedup.NamedSchema) (min_count : nat) :
  in_fuel (schema_dedup.find_common_schemas schemas min_count).
Proof.
  apply in_fuel_bind; [|done]. apply in_fuel_rfold. intros fingerprints item _.
  unfold schema_dedup.group_item. destruct (dget _ fingerprints); [done|].
  apply in_fuel_bind; [apply extract_error_code_in_fuel|done].
Qed.

Lemma register_and_emit_in_fuel (reg : registry.PydanticSchemaRegistry)
    (st : to_python.RouteGen) (schema_name : string) (schema : json) :
  in_fuel (to_python.register_and_emit reg st schema_name schema).
Proof.
  unfold to_python.register_and_emit.
  destruct (schema_dedup.register_schema _ _ _) as [registry' result].
  destruct (schema_dedup.is_new result).
  - apply in_fuel_bind; [apply _emit_schema_definition_in_fuel|done].
  - by destruct (negb _).
Qed.

Lemma generate_route_in_fuel (reg : registry.PydanticSchemaRegistry)
    (st : to_python.RouteGen) (route : routes.RouteInfo) :
  in_fuel (to_python.generate_route reg st route).
Proof.
  unfold to_python.generate_route. cbv zeta.
  repeat (apply in_fuel_bind;
          [destruct (to_python.name_if _ _); [apply register_and_emit_in_fuel|done]
          |intros ? _]).
  apply in_fuel_rfold. intros acc entry _. unfold to_python.register_response.
  destruct (negb _); [done|].
  apply in_fuel_bind; [apply response_schema_name_of_in_fuel|].
  intros response_schema_name _. apply register_and_emit_in_fuel.
Qed.

Lemma _generate_request_response_objects_in_fuel (routes : list routes.RouteInfo)
    (canonical : dict string) :
  in_fuel (to_python._generate_request_response_objects routes canonical).
Proof.
  apply in_fuel_bind; [|done]. apply in_fuel_rfold. intros st route _.
  unfold to_python.table_route. cbv zeta. apply in_fuel_bind; [|done].
  apply in_fuel_rfold. intros methods entry _. unfold to_python.response_entry.
  destruct (negb _); [done|].
  apply in_fuel_bind; [apply response_schema_name_of_in_fuel|done].
Qed.

Lemma emit_routes_in_fuel (reg : registry.PydanticSchemaRegistry) (openapi : dict json)
    (st : list string * schema_dedup.SchemaRegistry) :
  in_fuel (to_python.emit_routes reg openapi st).
Proof.
  unfold to_python.emit_routes. cbv zeta.
  destruct (routes.parse_openapi_paths openapi) as [|route routes]; [done|].
  apply in_fuel_bind; [apply _collect_route_schemas_in_fuel|]. intros route_schema_list _.
  apply in_fuel_bind; [apply find_common_schemas_in_fuel|]. intros common_schemas _.
  apply in_fuel_bind.
  - destruct common_schemas as [|common commons]; [done|].
    apply in_fuel_bind; [|done]. apply in_fuel_rfold. intros acc c _.
    unfold to_python.emit_common. destruct (bool_decide _); [done|].
    apply in_fuel_bind; [apply _emit_schema_definition_in_fuel|done].
  - intros st' _. apply in_fuel_bind.
    + apply in_fuel_rfold. intros gen r _. apply generate_route_in_fuel.
    + intros gen _. destruct (to_python.declarations gen); [done|].
      apply in_fuel_bind; [apply _generate_request_response_objects_in_fuel|done].
Qed.

(** No bound of the embedding is reached by a compilation: the result is
    the generated module or a Python exception. *)
Lemma openapi_to_pydantic_code_in_fuel (set_order : list string -> list string)
    (reg : registry.PydanticSchemaRegistry) (openapi : dict json)
    (custom_import_lines : list string) (options : option (dict json)) :
  valid_set_order set_order ->
  NoDup (dkeys (to_python.component_schemas openapi)) ->
  in_fuel (to_python.openapi_to_pydantic_code set_order reg openapi custom_import_lines
             options).
Proof.
  intros Horder Hkeys. unfold to_python.openapi_to_pydantic_code. cbv zeta.
  destruct (topological_sort_schemas_run set_order _ Horder Hkeys) as (emitted & _ & ->).
  apply in_fuel_bind; [done|]. intros order _. apply in_fuel_bind.
  - apply in_fuel_rfold. intros st name _. unfold to_python.emit_component.
    destruct (Json.get name _);
      solve [done | apply in_fuel_bind; [apply _emit_schema_definition_in_fuel|done]].
  - intros st _. apply in_fuel_bind; [|done].
    destruct (match options with Some _ => _ | None => _ end); [|done].
    apply emit_routes_in_fuel.
Qed.

(** * Further properties *)

(** ** Fingerprints and the order of keys (schema_dedup.py) *)

Lemma ascii_compare_trans (a b c : ascii) (r : comparison) :
  Ascii.compare a b = r -> Ascii.compare b c = r -> Ascii.compare a c = r.
Proof.
  unfold Ascii.compare. destruct r; intros H1 H2.
  - apply N.compare_eq in H1, H2. rewrite H1, H2. apply N.compare_refl.
  - rewrite N.compare_lt_iff in *. lia.
  - rewrite N.compare_gt_iff in *. lia.
Qed.

Lemma string_compare_lt_trans (s1 : string) :
  forall s2 s3,
    String.compare s1 s2 = Lt -> String.compare s2 s3 = Lt -> String.compare s1 s3 = Lt.
Proof.
  induction s1 as [|c1 s1 IH]; intros [|c2 s2] [|c3 s3]; simpl; try done.
  destruct (Ascii.compare c1 c2) eqn:H12; try done;
    destruct (Ascii.compare c2 c3) eqn:H23; try done.
  - apply Ascii.compare_eq_iff in H12, H23. subst.
    assert (Ascii.compare c3 c3 = Eq) as -> by (unfold Ascii.compare; apply N.compare_refl).
    apply IH.
  - apply Ascii.compare_eq_iff in H12. subst. by rewrite H23.
  - apply Ascii.compare_eq_iff in H23. subst. by rewrite H12.
  - by rewrite (ascii_compare_trans _ _ _ _ H12 H23).
Qed.

Lemma string_compare_refl (s : string) : String.compare s s = Eq.
Proof.
  induction s as [|c s IH]; simpl; [done|].
  assert (Ascii.compare c c = Eq) as -> by (unfold Ascii.compare; apply N.compare_refl).
  done.
Qed.

Lemma string_leb_trans (s1 s2 s3 : string) :
  String.leb s1 s2 = true -> String.leb s2 s3 = true -> String.leb s1 s3 = true.
Proof.
  unfold String.leb.
  destruct (String.compare s1 s2) eqn:H12; try done;
    destruct (String.compare s2 s3) eqn:H23; try done; intros _ _.
  - apply String.compare_eq_iff in H12, H23. subst.
    by rewrite string_compare_refl.
  - apply String.compare_eq_iff in H12. subst. by rewrite H23.
  - apply String.compare_eq_iff in H23. subst. by rewrite H12.
  - by rewrite (string_compare_lt_trans _ _ _ H12 H23).
Qed.

Lemma string_leb_strict (a b : string) :
  a <> b -> String.leb a b = true -> String.leb b a = false.
Proof.
  intros Hne H. destruct (String.leb b a) eqn:H'; [|done].
  destruct Hne. by apply String.leb_antisym.
Qed.

Lemma string_leb_false (a b : string) : String.leb a b = false -> String.leb b a = true.
Proof. intros H. destruct (String.leb_total a b) as [H'|H']; [congruence|done]. Qed.

(** Two entries with different keys are inserted in either order. *)
Lemma insert_by_key_comm {V} (x y : string * V) (l : list (string * V)) :
  fst x <> fst y ->
  insert_by_key x (insert_by_key y l) = insert_by_key y (insert_by_key x l).
Proof.
  intros Hne.
  induction l as [|z l IH]; simpl.
  - destruct (String.leb (fst x) (fst y)) eqn:H1.
    + by rewrite (string_leb_strict _ _ Hne H1).
    + by rewrite (string_leb_false _ _ H1).
  - destruct (String.leb (fst y) (fst z)) eqn:Hyz, (String.leb (fst x) (fst z)) eqn:Hxz;
      simpl; rewrite ?Hyz, ?Hxz.
    + destruct (String.leb (fst x) (fst y)) eqn:H1.
      * by rewrite (string_leb_strict _ _ Hne H1), ?Hyz.
      * by rewrite (string_leb_false _ _ H1), ?Hxz.
    + destruct (String.leb (fst x) (fst y)) eqn:H1; [|done].
      pose proof (string_leb_trans _ _ _ H1 Hyz). congruence.
    + destruct (String.leb (fst y) (fst x)) eqn:H1; [|done].
      pose proof (string_leb_trans _ _ _ H1 Hxz). congruence.
    + by rewrite IH.
Qed.

Lemma sort_by_key_perm {V} (l l' : list (string * V)) :
  l ≡ₚ l' -> NoDup (dkeys l) -> sort_by_key l = sort_by_key l'.
Proof.
  unfold dkeys. induction 1 as [|x l l' Hp IH|x y l|l l' l'' Hp IH Hp' IH']; intros Hnd.
  - done.
  - simpl. rewrite IH; [done|]. simpl in Hnd. by apply NoDup_cons in Hnd as [_ ?].
  - simpl. apply insert_by_key_comm. simpl in Hnd.
    apply NoDup_cons in Hnd as [Hy _]. intros Heq. apply Hy. rewrite Heq. left.
  - rewrite IH by done. apply IH'. by rewrite <- Hp.
Qed.

Lemma distinct_keys_list (items : list json) :
  distinct_keys (JList items) <-> Forall distinct_keys items.
Proof.
  simpl. induction items as [|x items IH]; [by split|].
  rewrite Forall_cons. by rewrite IH.
Qed.

Lemma distinct_keys_dict (entries : dict json) :
  distinct_keys (JDict entries)
  <-> NoDup (dkeys entries) /\ Forall (fun kv => distinct_keys (snd kv)) entries.
Proof.
  simpl. apply and_iff_compat_l.
  induction entries as [|kv entries IH]; [by split|].
  rewrite Forall_cons. by rewrite IH.
Qed.

(** Such documents are sorted into the same document, and have the same
    keys at the top. *)
Lemma same_document_sorted (a b : json) :
  same_document a b -> distinct_keys a ->
  _sort_object_deep a = _sort_object_deep b
  /\ distinct_keys b
  /\ match a, b with
     | JDict d, JDict d' => dkeys d ≡ₚ dkeys d'
     | JDict _, _ | _, JDict _ => False
     | _, _ => True
     end.
Proof.
  induction 1 as [v|a b c Hab IHab Hbc IHbc|x y items items' Hxy IHxy Hl IHl
                  |k x y d d' Hxy IHxy Hd IHd|d d' Hp]; intros Hdist.
  - split; [done|]. split; [done|]. by destruct v.
  - destruct (IHab Hdist) as (Hs1 & Hb & Hk1). destruct (IHbc Hb) as (Hs2 & Hc & Hk2).
    split; [congruence|]. split; [done|].
    destruct a, b, c; try done. by etransitivity.
  - apply distinct_keys_list, Forall_cons in Hdist as [Hx Hitems].
    destruct (IHxy Hx) as (Hsx & Hy & _).
    destruct (IHl (proj2 (distinct_keys_list _) Hitems)) as (Hsl & Hitems' & _).
    split; [|split; [|done]].
    + simpl in *. injection Hsl as Hsl. by rewrite Hsx, Hsl.
    + apply distinct_keys_list, Forall_cons. split; [done|]. by apply distinct_keys_list.
  - apply distinct_keys_dict in Hdist as [Hnd Hall].
    apply Forall_cons in Hall as [Hx Hall]. simpl in Hnd, Hx.
    apply NoDup_cons in Hnd as [Hk Hnd].
    destruct (IHxy Hx) as (Hsx & Hy & _).
    destruct (IHd (proj2 (distinct_keys_dict _) (conj Hnd Hall))) as (Hsd & Hd' & Hkeys).
    apply distinct_keys_dict in Hd' as [Hnd' Hall'].
    split; [|split].
    + simpl in *. injection Hsd as Hsd. by rewrite Hsx, Hsd.
    + apply distinct_keys_dict. split.
      * simpl. apply NoDup_cons. split; [by rewrite <- Hkeys|done].
      * by apply Forall_cons.
    + simpl. by constructor.
  - apply distinct_keys_dict in Hdist as [Hnd Hall].
    split; [|split].
    + simpl. f_equal. apply sort_by_key_perm; [by apply fmap_Permutation|].
      unfold dkeys in *. rewrite <- list_fmap_compose. exact Hnd.
    + apply distinct_keys_dict. split.
      * unfold dkeys in *. by rewrite <- Hp.
      * by rewrite <- Hp.
    + unfold dkeys. by apply fmap_Permutation.
Qed.

(** X1. Two documents that differ only in the order of the keys of their
    dicts, at any depth, have the same fingerprint. *)
Theorem fingerprint_ignores_key_order (a b : json) :
  same_document a b -> distinct_keys a ->
  get_schema_fingerprint a = get_schema_fingerprint b.
Proof.
  intros Hab Ha. unfold get_schema_fingerprint.
  by destruct (same_document_sorted a b Hab Ha) as [-> _].
Qed.

Lemma fingerprint_ignores_key_order_witness :
  get_schema_fingerprint id_object = get_schema_fingerprint id_object_reordered.
Proof.
  apply fingerprint_ignores_key_order.
  - eapply same_trans.
    + apply same_entry; [apply same_refl|].
      apply same_entry; [apply same_refl|].
      apply same_entry; [|apply same_refl].
      apply same_entry; [|apply same_refl].
      apply same_order, perm_swap.
    + apply same_order.
      etransitivity; [apply perm_skip, perm_swap|]. apply perm_swap.
  - simpl.
    repeat split;
      repeat (apply NoDup_cons_2; [apply (bool_decide_unpack _); vm_compute; exact I|]);
      apply NoDup_nil_2.
Defined.

(** ** Registration and lookup (registry.py) *)


(** X2. After a registration that returned, the schema counts as
    registered, and the lookup of every format the registration asked for,
    or of its primitive type, gives its name. *)
Theorem register_then_lookup (r r' : PydanticSchemaRegistry) (schema_id : nat)
    (reg : PydanticOpenApiRegistration) :
  register r schema_id reg = (r', Ok tt) ->
  is_registered r' schema_id = true
  /\ match requested_formats reg with
     | Some fs =>
         forall f, f ∈ fs ->
           get_schema_exported_variable_name_for_string_format r' f
           = Some (schema_exported_variable_name reg)
     | None =>
         get_schema_exported_variable_name_for_primitive_type r' (type reg)
         = Some (schema_exported_variable_name reg)
     end.
Proof.
  assert (Hprim : register_primitive r schema_id reg = (r', Ok tt) ->
                  is_registered r' schema_id = true
                  /\ get_schema_exported_variable_name_for_primitive_type r' (type reg)
                     = Some (schema_exported_variable_name reg)).
  { unfold register_primitive. destruct (Py.str_in _ _); [|intros [=]].
    destruct (conflicts _ _); [intros [=]|]. intros [= <-].
    unfold is_registered, get_schema_exported_variable_name_for_primitive_type. simpl.
    rewrite !lookup_insert_eq. split; [|done]. by apply bool_decide_eq_true_2. }
  assert (Hid : forall r1, is_registered (set_schema_id r1 schema_id reg) schema_id = true).
  { intros r1. unfold is_registered. simpl. rewrite lookup_insert_eq.
    by apply bool_decide_eq_true_2. }
  assert (Hget : forall r1 f,
             f ∈ SUPPORTED_STRING_FORMATS ->
             _string_format_to_name r1 !! f = Some (schema_exported_variable_name reg) ->
             get_schema_exported_variable_name_for_string_format
               (set_schema_id r1 schema_id reg) f
             = Some (schema_exported_variable_name reg)).
  { intros r1 f Hs Hl. unfold get_schema_exported_variable_name_for_string_format.
    apply str_in_elem in Hs. by rewrite Hs. }
  unfold register, requested_formats.
  destruct (String.eqb (type reg) "string"); [|exact Hprim].
  destruct (format reg) as [| | | |f| |].
  5: {
    destruct (_register_string_format r f reg) as [r1 [[]|e]] eqn:Hstep; [|intros [=]].
    intros [= <-]. split; [apply Hid|].
    intros f' ->%list_elem_of_singleton.
    apply _register_string_format_ok in Hstep as (Hs & Hmap & _).
    apply Hget; [done|]. rewrite Hmap. apply lookup_insert_eq. }
  all: destruct (formats reg) as [| | | | |l|]; try exact Hprim.
  all: destruct (register_formats r l reg) as [r1 [[]|e]] eqn:Hstep; [|intros [=]].
  all: intros [= <-]; split; [apply Hid|].
  all: intros f Hf; apply register_formats_ok in Hstep as [Hall _].
  all: destruct (Hall f Hf) as [Hs Hl]; by apply Hget.
Qed.

Lemma register_then_lookup_witness :
  is_registered (fst (register empty_registry 7 integer_registration)) 7 = true
  /\ get_schema_exported_variable_name_for_primitive_type
       (fst (register empty_registry 7 integer_registration)) "integer"
     = Some "IntAlias".
Proof.
  exact (register_then_lookup empty_registry _ 7 integer_registration eq_refl).
Defined.

Lemma _register_string_format_keys (r : PydanticSchemaRegistry) (fmt : string)
    (reg : PydanticOpenApiRegistration) :
  supported_keys r -> supported_keys (fst (_register_string_format r fmt reg)).
Proof.
  intros [Hs Hp]. unfold _register_string_format.
  destruct (Py.str_in fmt SUPPORTED_STRING_FORMATS) eqn:Hin; simpl; [|done].
  destruct (conflicts _ _); [done|]. split; [|done]. simpl.
  intros k. rewrite lookup_insert. case_decide; [|apply Hs].
  subst. intros _. by apply str_in_elem.
Qed.

Lemma register_formats_keys (l : list json) (r : PydanticSchemaRegistry)
    (reg : PydanticOpenApiRegistration) :
  supported_keys r -> supported_keys (fst (register_formats r l reg)).
Proof.
  revert r. induction l as [|item l IH]; intros r Hr; [done|].
  destruct item as [| | | |f| |]; try by apply IH.
  cbn [register_formats].
  pose proof (_register_string_format_keys r f reg Hr) as H1.
  destruct (_register_string_format r f reg) as [r1 [[]|e]]; [by apply IH|done].
Qed.

Lemma register_primitive_keys (r : PydanticSchemaRegistry) (schema_id : nat)
    (reg : PydanticOpenApiRegistration) :
  supported_keys r -> supported_keys (fst (register_primitive r schema_id reg)).
Proof.
  intros [Hs Hp]. unfold register_primitive.
  destruct (Py.str_in (type reg) _) eqn:Hin; [|done].
  destruct (conflicts _ _); [done|]. split; [done|]. simpl.
  intros k. rewrite lookup_insert. case_decide; [|apply Hp].
  subst. intros _. by apply str_in_elem.
Qed.

(** X3. The lookup tables only ever hold supported keys: a registration,
    whether it returns or raises, keeps this, and the test for a supported
    format in the lookup of a string format then changes nothing. *)
Theorem register_keeps_supported_keys (r : PydanticSchemaRegistry) (schema_id : nat)
    (reg : PydanticOpenApiRegistration) :
  supported_keys r ->
  supported_keys (fst (register r schema_id reg))
  /\ forall f,
       get_schema_exported_variable_name_for_string_format (fst (register r schema_id reg)) f
       = _string_format_to_name (fst (register r schema_id reg)) !! f.
Proof.
  intros Hr.
  assert (Hkeys : supported_keys (fst (register r schema_id reg))).
  { unfold register.
    pose proof (register_primitive_keys r schema_id reg Hr) as Hprim.
    destruct (String.eqb (type reg) "string"); [|done].
    destruct (format reg) as [| | | |f| |].
    5: { pose proof (_register_string_format_keys r f reg Hr) as H1.
         by destruct (_register_string_format r f reg) as [r1 [[]|e]]. }
    all: destruct (formats reg) as [| | | | |l|]; try done.
    all: pose proof (register_formats_keys l r reg Hr) as H1.
    all: by destruct (register_formats r l reg) as [r1 [[]|e]]. }
  split; [done|]. intros f.
  unfold get_schema_exported_variable_name_for_string_format.
  destruct (Py.str_in f SUPPORTED_STRING_FORMATS) eqn:Hin; [done|]. simpl.
  destruct (_string_format_to_name _ !! f) eqn:Hl; [|done].
  apply str_in_not_elem in Hin. destruct Hin. apply (proj1 Hkeys). by rewrite Hl.
Qed.

Lemma register_keeps_supported_keys_witness :
  supported_keys (fst (register empty_registry 0 email_registration))
  /\ forall f,
       get_schema_exported_variable_name_for_string_format
         (fst (register empty_registry 0 email_registration)) f
       = _string_format_to_name (fst (register empty_registry 0 email_registration)) !! f.
Proof.
  apply (register_keeps_supported_keys empty_registry 0 email_registration).
  split; intros k; simpl; rewrite lookup_empty; by intros [? [=]].
Defined.




(** ** The order of the shared schemas (schema_dedup.py) *)

Lemma insert_by_count_sorted (x : CommonSchema) (l : list CommonSchema) :
  StronglySorted (fun a b => count b <= count a) l ->
  StronglySorted (fun a b => count b <= count a) (insert_by_count x l).
Proof.
  induction 1 as [|y l Hl IH Hy]; simpl; [repeat constructor|].
  destruct (count y <=? count x)%nat eqn:Hc.
  - apply Nat.leb_le in Hc. constructor; [by constructor|].
    constructor; [done|]. eapply Forall_impl; [exact Hy|]. simpl. intros z Hz. lia.
  - apply Nat.leb_gt in Hc. constructor; [done|].
    rewrite insert_by_count_perm. constructor; [lia|done].
Qed.

Lemma sort_by_count_desc_sorted (l : list CommonSchema) :
  StronglySorted (fun a b => count b <= count a) (sort_by_count_desc l).
Proof.
  unfold sort_by_count_desc. induction l as [|x l IH]; simpl; [constructor|].
  by apply insert_by_count_sorted.
Qed.

(** The sort is stable: entries of one count keep their order. *)
Lemma sort_by_count_desc_stable (n : nat) (l : list CommonSchema) :
  filter (fun c => count c = n) (sort_by_count_desc l) = filter (fun c => count c = n) l.
Proof.
  unfold sort_by_count_desc. induction l as [|x l IH]; simpl; [done|].
  rewrite filter_cons, <- IH. clear IH.
  induction (fold_right insert_by_count [] l) as [|y s IHs]; simpl; [done|].
  destruct (count y <=? count x)%nat eqn:Hc; [done|].
  apply Nat.leb_gt in Hc. rewrite !filter_cons, IHs.
  destruct (decide (count y = n)), (decide (count x = n)); try done. lia.
Qed.

Lemma group_items_keys (items : list NamedSchema) :
  forall fingerprints fingerprints',
    rfold group_item items fingerprints = Ok fingerprints' ->
    dkeys fingerprints' = fold_left first_seen_step items (dkeys fingerprints).
Proof.
  induction items as [|item items IH]; intros fps fps'; simpl; [by intros [= <-]|].
  destruct (group_item fps item) as [f1|e] eqn:Hstep; [|intros [=]]. simpl.
  intros Hrest. rewrite (IH _ _ Hrest). f_equal.
  unfold group_item in Hstep. unfold first_seen_step, fp_of.
  destruct (dget _ fps) as [g|] eqn:Hget.
  - injection Hstep as <-.
    assert (Hin : get_schema_fingerprint (ns_schema item) ∈ dkeys fps)
      by (apply dget_is_Some; by rewrite Hget).
    rewrite bool_decide_eq_true_2 by done. by apply dkeys_dset_present.
  - apply dget_None in Hget.
    destruct (extract_error_code _); [|done]. injection Hstep as <-.
    rewrite bool_decide_eq_false_2 by done. by apply dkeys_dset_absent.
Qed.

Lemma common_of_group_Some (min_count : nat) (fp : string) (g : Group) (c : CommonSchema) :
  common_of_group min_count (fp, g) = Some c ->
  fingerprint c = fp /\ count c = length (g_names g) /\ min_count <= count c.
Proof.
  unfold common_of_group. simpl.
  destruct (length (g_names g) <? min_count)%nat eqn:Hlt; [done|].
  apply Nat.ltb_ge in Hlt. by intros [= <-].
Qed.

Lemma common_of_group_None (min_count : nat) (fp : string) (g : Group) :
  common_of_group min_count (fp, g) = None -> length (g_names g) < min_count.
Proof.
  unfold common_of_group. simpl.
  destruct (length (g_names g) <? min_count)%nat eqn:Hlt; [|done].
  by apply Nat.ltb_lt in Hlt.
Qed.

(** X5. [find_common_schemas] returns its entries by falling count; every
    entry counts the occurrences of its fingerprint, at least [min_count];
    and entries of one count stand in the order in which their fingerprints
    first occur among the schemas. *)
Theorem find_common_schemas_order (items : list NamedSchema) (min_count : nat)
    (common : list CommonSchema) :
  find_common_schemas items min_count = Ok common ->
  StronglySorted (fun a b => count b <= count a) common
  /\ (forall c, c ∈ common ->
        count c = occurrences (fingerprint c) items /\ min_count <= count c)
  /\ (forall n,
        map fingerprint (filter (fun c => count c = n) common)
        = filter (fun fp => occurrences fp items = n /\ min_count <= n) (first_seen items)).
Proof.
  unfold find_common_schemas.
  destruct (rfold group_item items []) as [fingerprints|e] eqn:Hrun; [|intros [=]].
  simpl. intros [= <-].
  destruct (group_items_inv items [] fingerprints []) as [Hnd Hinv]; [|done|].
  { split; [constructor|]. intros fp. done. }
  simpl in Hinv.
  assert (Hlen : forall fp g, (fp, g) ∈ fingerprints ->
                              length (g_names g) = occurrences fp items).
  { intros fp g Hin. pose proof (Hinv fp) as H.
    rewrite (dget_elem_nodup fingerprints fp g Hnd Hin) in H.
    destruct H as (first & rest & Hg & _ & Hnames & _).
    unfold occurrences. by rewrite Hnames, Hg, length_map. }
  split; [apply sort_by_count_desc_sorted|]. split.
  - intros c Hc. rewrite sort_by_count_desc_perm in Hc.
    apply list_elem_of_omap in Hc as ([fp g] & Hin & Hc).
    apply common_of_group_Some in Hc as (-> & Hcount & Hmin).
    split; [|done]. rewrite Hcount. by apply Hlen.
  - intros n. rewrite sort_by_count_desc_stable.
    unfold first_seen. change [] with (dkeys (@nil (string * Group))).
    rewrite <- (group_items_keys items [] fingerprints Hrun).
    clear Hrun Hinv Hnd. induction fingerprints as [|[fp g] l IH]; [done|].
    assert (Hg : length (g_names g) = occurrences fp items)
      by (apply Hlen, list_elem_of_here).
    assert (IH' := IH (fun fp' g' H => Hlen fp' g' (list_elem_of_further _ _ _ H))).
    clear IH. cbn [omap list_omap dkeys map fst]. rewrite (filter_cons _ fp).
    destruct (common_of_group min_count (fp, g)) as [c|] eqn:Hc.
    + apply common_of_group_Some in Hc as (Hfp & Hcount & Hmin). simpl.
      rewrite filter_cons.
      destruct (decide (count c = n)) as [Hn|Hn].
      * rewrite decide_True by (split; lia). simpl. by rewrite Hfp, IH'.
      * rewrite decide_False by (intros [? ?]; lia). apply IH'.
    + apply common_of_group_None in Hc. simpl.
      rewrite decide_False by (intros [? ?]; lia). apply IH'.
Qed.

Lemma find_common_schemas_order_witness :
  StronglySorted (fun a b => count b <= count a) unauthorized_common
  /\ (forall c, c ∈ unauthorized_common ->
        count c = occurrences (fingerprint c) unauthorized_items /\ 2 <= count c)
  /\ (forall n,
        map fingerprint (filter (fun c => count c = n) unauthorized_common)
        = filter (fun fp => occurrences fp unauthorized_items = n /\ 2 <= n)
                 (first_seen unauthorized_items)).
Proof.
  apply (find_common_schemas_order unauthorized_items 2 unauthorized_common).
  vm_compute. reflexivity.
Defined.

(** ** Attribute names (to_python.py) *)

Lemma chars_app (a b : string) : Py.chars (a +:+ b) = Py.chars a ++ Py.chars b.
Proof. unfold Py.chars. induction a as [|c a IH]; simpl; [done|]. by rewrite IH. Qed.

Lemma chars_str_of (l : list ascii) : Py.chars (Py.str_of l) = l.
Proof. apply list_ascii_of_string_of_list_ascii. Qed.

Lemma str_of_chars (s : string) : Py.str_of (Py.chars s) = s.
Proof. apply string_of_list_ascii_of_string. Qed.

Lemma chars_map_chars (f : ascii -> ascii) (s : string) :
  Py.chars (Py.map_chars f s) = map f (Py.chars s).
Proof. unfold Py.map_chars. apply chars_str_of. Qed.

Lemma valid_identifier_char (c : ascii) :
  Py.char_in c _VALID_IDENTIFIER_CHARS = true -> ident_char c = true.
Proof.
  unfold Py.char_in. intros H. apply existsb_exists in H as (c' & Hin & Heq).
  apply Ascii.eqb_eq in Heq. subst c'.
  assert (Hall : forallb ident_char (Py.chars _VALID_IDENTIFIER_CHARS) = true)
    by (vm_compute; reflexivity).
  rewrite forallb_forall in Hall. by apply Hall.
Qed.

Lemma ident_char_lower (c : ascii) : ident_char c = true -> ident_char (Py.lower_char c) = true.
Proof. destruct c as [[] [] [] [] [] [] [] []]; vm_compute; done. Qed.

Lemma ident_start_not_digit (c : ascii) :
  ident_char c = true -> Py.is_digit_char c = false -> ident_start c = true.
Proof.
  unfold ident_char, ident_start, Py.is_alnum_char. intros H Hd.
  rewrite Hd, orb_false_r in H. exact H.
Qed.

Lemma keyword_underscore (s : string) : Py.iskeyword s = true -> Py.iskeyword (s +:+ "_") = false.
Proof.
  unfold Py.iskeyword. intros H. apply str_in_elem in H.
  assert (Hall : forallb (fun kw => negb (Py.str_in (kw +:+ "_") Py.kwlist)) Py.kwlist = true)
    by (vm_compute; reflexivity).
  rewrite forallb_forall in Hall. apply list_elem_of_In, Hall in H.
  by apply negb_true_iff in H.
Qed.

Lemma sanitized_identifier (name : string) :
  is_identifier (_sanitize_identifier name) = true
  /\ Py.iskeyword (_sanitize_identifier name) = false.
Proof.
  unfold _sanitize_identifier.
  set (r1 := Py.map_chars _ name).
  assert (H1 : forallb ident_char (Py.chars r1) = true).
  { unfold r1. rewrite chars_map_chars. apply forallb_forall. intros c Hc.
    apply in_map_iff in Hc as (c0 & <- & _).
    destruct (Py.char_in c0 _VALID_IDENTIFIER_CHARS) eqn:Hin; [|done].
    by apply valid_identifier_char. }
  clearbody r1.
  set (r2 := if _ && _ && _ then _ else r1).
  assert (H2 : forallb ident_char (Py.chars r2) = true).
  { unfold r2. destruct (_ && _ && _); [|done].
    destruct r1 as [|c r1]; [done|]. simpl in *.
    apply andb_true_iff in H1 as [Hc Hr].
    change ("" +:+ r1) with r1. rewrite Hr, andb_true_r. by apply ident_char_lower. }
  clearbody r2. clear r1 H1.
  set (r3 := if _ || _ then _ else r2).
  assert (H3 : is_identifier r3 = true).
  { unfold r3, is_identifier. destruct r2 as [|c r2]; [done|].
    simpl in H2. apply andb_true_iff in H2 as [Hc Hr].
    unfold utils.nonempty, Py.isdigit. simpl. rewrite andb_true_r.
    destruct (Py.is_digit_char c) eqn:Hd; simpl.
    - by rewrite Hc, Hr.
    - by rewrite (ident_start_not_digit c Hc Hd), Hr. }
  clearbody r3. clear r2 H2.
  destruct (Py.iskeyword r3) eqn:Hkw.
  - split; [|by apply keyword_underscore].
    unfold is_identifier in *. rewrite chars_app.
    destruct (Py.chars r3) as [|c r]; [done|]. simpl.
    apply andb_true_iff in H3 as [Hc Hr]. rewrite Hc, forallb_app, Hr. done.
  - done.
Qed.

(** X6. [_sanitize_identifier] always returns a Python identifier that is
    no keyword, whatever the property name is. *)
Theorem _sanitize_identifier_valid (name : string) :
  is_identifier (_sanitize_identifier name) = true
  /\ Py.iskeyword (_sanitize_identifier name) = false.
Proof. apply sanitized_identifier. Qed.

(** The search stops at the first free candidate. *)
Lemma free_index_first (name : string) (used : list string) (fuel : nat) :
  forall index,
    (exists i, index <= i <= index + fuel /\ (name +:+ "_" +:+ pretty i ∉ used)) ->
    exists i,
      free_index fuel name used index = Ok i
      /\ index <= i
      /\ (name +:+ "_" +:+ pretty i ∉ used)
      /\ forall j, index <= j < i -> name +:+ "_" +:+ pretty j ∈ used.
Proof.
  induction fuel as [|fuel IH]; intros index (i & Hi & Hfree); simpl.
  - assert (i = index) as -> by lia.
    pose proof Hfree as Hfree'. apply str_in_not_elem in Hfree'. rewrite Hfree'.
    exists index. repeat split; [lia|done|]. intros j Hj. lia.
  - destruct (Py.str_in _ used) eqn:Hin.
    + destruct (IH (S index)) as (i' & Hrun & Hle & Hfree' & Hbelow).
      { exists i. split; [|done].
        destruct (decide (i = index)) as [->|Hne]; [|lia].
        apply str_in_not_elem in Hfree. congruence. }
      exists i'. repeat split; [done|lia|done|].
      intros j Hj. destruct (decide (j = index)) as [->|Hne].
      * by apply str_in_elem.
      * apply Hbelow. lia.
    + exists index. apply str_in_not_elem in Hin. repeat split; [lia|done|].
      intros j Hj. lia.
Qed.

Lemma deduped_name (name : string) (used : list string) :
  exists deduped,
    _dedupe_name name used = Ok (deduped, deduped :: used)
    /\ (deduped ∉ used)
    /\ (name ∉ used -> deduped = name)
    /\ (name ∈ used ->
        exists i, 2 <= i
                  /\ deduped = name +:+ "_" +:+ pretty i
                  /\ forall j, 2 <= j < i -> name +:+ "_" +:+ pretty j ∈ used).
Proof.
  unfold _dedupe_name. destruct (Py.str_in name used) eqn:Hin; simpl.
  - apply str_in_elem in Hin.
    destruct (free_index_first name used (length used) 2 (free_candidate name used 2))
      as (i & -> & Hle & Hfree & Hbelow).
    simpl. eexists. split; [reflexivity|]. split; [done|]. split; [done|].
    intros _. by exists i.
  - apply str_in_not_elem in Hin. exists name. split; [done|]. split; [done|].
    split; [done|]. done.
Qed.

(** X7. [_dedupe_name] always returns, with a name that was not in use and
    is in use afterwards: the name itself when it was free, else the name
    with the least suffix [_2], [_3], ... that was free. *)
Theorem _dedupe_name_fresh (name : string) (used : list string) :
  exists deduped,
    _dedupe_name name used = Ok (deduped, deduped :: used)
    /\ (deduped ∉ used)
    /\ (name ∉ used -> deduped = name)
    /\ (name ∈ used ->
        exists i, 2 <= i
                  /\ deduped = name +:+ "_" +:+ pretty i
                  /\ forall j, 2 <= j < i -> name +:+ "_" +:+ pretty j ∈ used).
Proof. apply deduped_name. Qed.










(** ** What the synthesizer can raise (to_python.py, types/*.py) *)

Lemma only_raises_ok {A} (allowed : list PyError) (a : A) : only_raises allowed (Ok a).
Proof. intros e [=]. Qed.

Lemma only_raises_bind {A B} (allowed : list PyError) (m : Result A) (k : A -> Result B) :
  only_raises allowed m -> (forall a, m = Ok a -> only_raises allowed (k a)) ->
  only_raises allowed (m ≫= k).
Proof.
  intros Hm Hk. destruct m as [a|e]; [by apply Hk|].
  intros e' [= <-]. by apply Hm.
Qed.

Lemma only_raises_rmap {A B} (allowed : list PyError) (f : A -> Result B) (l : list A) :
  (forall x, x ∈ l -> only_raises allowed (f x)) -> only_raises allowed (rmap f l).
Proof.
  induction l as [|x l IH]; intros H; simpl; [apply only_raises_ok|].
  apply only_raises_bind; [apply H, list_elem_of_here|]. intros y _.
  apply only_raises_bind; [|intros; apply only_raises_ok].
  apply IH. intros z Hz. apply H. by apply list_elem_of_further.
Qed.

Lemma only_raises_rfold {A B} (allowed : list PyError) (f : B -> A -> Result B)
    (l : list A) (acc : B) :
  (forall acc x, x ∈ l -> only_raises allowed (f acc x)) ->
  only_raises allowed (rfold f l acc).
Proof.
  revert acc. induction l as [|x l IH]; intros acc H; simpl; [apply only_raises_ok|].
  apply only_raises_bind; [apply H, list_elem_of_here|]. intros acc' _.
  apply IH. intros a z Hz. apply H. by apply list_elem_of_further.
Qed.

Lemma only_raises_mono {A} (allowed allowed' : list PyError) (m : Result A) :
  allowed ⊆ allowed' -> only_raises allowed m -> only_raises allowed' m.
Proof. intros Hsub Hm e He. by apply Hsub, Hm. Qed.

Lemma only_raises_nil {A} (m : Result A) : only_raises [] m -> is_ok m = true.
Proof. destruct m as [a|e]; [done|]. intros H. by destruct (not_elem_of_nil e (H e eq_refl)). Qed.

Lemma hashable_types_list (items : list json) :
  hashable_types (JList items) <-> Forall hashable_types items.
Proof.
  simpl. induction items as [|x items IH]; [by split|].
  rewrite Forall_cons. by rewrite IH.
Qed.

Lemma hashable_types_dict (entries : dict json) :
  hashable_types (JDict entries)
  <-> Json.hashable (Json.get "type" entries) = true
      /\ Forall (fun kv => hashable_types (snd kv)) entries.
Proof.
  simpl. apply and_iff_compat_l.
  induction entries as [|kv entries IH]; [by split|].
  rewrite Forall_cons. by rewrite IH.
Qed.

Lemma hashable_types_get (k : string) (d : dict json) :
  hashable_types (JDict d) -> hashable_types (Json.get k d).
Proof.
  intros [_ Hall]%hashable_types_dict. unfold Json.get.
  destruct (dget k d) as [v|] eqn:Hget; [|done].
  apply dget_Some_elem in Hget. rewrite Forall_forall in Hall. by apply (Hall (k, v)).
Qed.

Lemma in_str_set_only_raises (allowed : list PyError) (v : json) (set : list string) :
  TypeError ∈ allowed \/ Json.hashable v = true ->
  only_raises allowed (Json.in_str_set v set).
Proof.
  intros H. destruct v; try (intros e [=]; fail).
  all: intros e [= <-]; by destruct H.
Qed.

Section synthesizer.

(** [good] holds of the schemas looked at: it is inherited by the values
    of a dict and the items of a list, and makes the test of [type]
    harmless. *)
Variable allowed : list PyError.
Variable good : json -> Prop.
Hypothesis good_get : forall k d, good (JDict d) -> good (Json.get k d).
Hypothesis good_item : forall x items, good (JList items) -> x ∈ items -> good x.
Hypothesis good_type :
  forall d, good (JDict d) -> TypeError ∈ allowed \/ Json.hashable (Json.get "type" d) = true.

Variable reg : PydanticSchemaRegistry.

Section converters.

Variable d : dict json.
Variable convert_schema : json -> Result string.
Hypothesis good_d : good (JDict d).
Hypothesis convert_only_raises :
  forall v, Json.depth v < Json.depth (JDict d) -> good v ->
            only_raises allowed (convert_schema v).

Lemma convert_member_only_raises (key : string) (items : list json) (item : json) :
  Json.get key d = JList items -> item ∈ items -> only_raises allowed (convert_schema item).
Proof.
  intros Hget Hitem. apply convert_only_raises.
  - pose proof (depth_get key d) as Hd. rewrite Hget in Hd.
    apply depth_items in Hitem. lia.
  - eapply good_item; [|done]. rewrite <- Hget. by apply good_get.
Qed.

Lemma union_only_raises :
  only_raises allowed (union.convert_openapi_union_to_pydantic d convert_schema).
Proof.
  unfold union.convert_openapi_union_to_pydantic.
  destruct (Json.get "oneOf" d) as [| | | | |items|] eqn:Hget; try apply only_raises_ok.
  apply only_raises_bind.
  - apply only_raises_rmap. intros item Hitem.
    apply list_elem_of_filter in Hitem as [_ Hitem].
    by eapply convert_member_only_raises.
  - intros item_types _. destruct item_types; [apply only_raises_ok|].
    repeat case_match; apply only_raises_ok.
Qed.

Lemma intersection_only_raises :
  only_raises allowed (intersection.convert_openapi_intersection_to_pydantic d convert_schema).
Proof.
  unfold intersection.convert_openapi_intersection_to_pydantic.
  destruct (Json.get "allOf" d) as [| | | | |items|] eqn:Hget; try apply only_raises_ok.
  apply only_raises_bind.
  - apply only_raises_rmap. intros item Hitem.
    apply list_elem_of_filter in Hitem as [_ Hitem].
    by eapply convert_member_only_raises.
  - intros parts _. repeat case_match; apply only_raises_ok.
Qed.

Lemma array_only_raises :
  only_raises allowed (array.convert_openapi_array_to_pydantic d convert_schema).
Proof.
  unfold array.convert_openapi_array_to_pydantic.
  apply only_raises_bind; [|intros; apply only_raises_ok].
  pose proof (depth_get "items" d) as Hd. pose proof (good_get "items" d good_d) as Hg.
  destruct (Json.get "items" d); try apply only_raises_ok. by apply convert_only_raises.
Qed.

Lemma object_only_raises :
  only_raises allowed (object.convert_openapi_object_to_pydantic d convert_schema).
Proof.
  unfold object.convert_openapi_object_to_pydantic.
  destruct (_ && _); [apply only_raises_ok|].
  pose proof (depth_get "additionalProperties" d) as Hd.
  pose proof (good_get "additionalProperties" d good_d) as Hg.
  destruct (Json.get "additionalProperties" d); try apply only_raises_ok.
  apply only_raises_bind; [by apply convert_only_raises|intros; apply only_raises_ok].
Qed.

Lemma number_only_raises :
  only_raises allowed (number.convert_openapi_number_to_pydantic reg d).
Proof.
  unfold number.convert_openapi_number_to_pydantic.
  destruct (Json.get "enum" d); try apply only_raises_ok.
  all: apply only_raises_bind; [apply in_str_set_only_raises, good_type, good_d|].
  all: intros is_in _; repeat case_match; apply only_raises_ok.
Qed.

End converters.

Lemma schema_to_type_expr_only_raises (fuel : nat) :
  forall schema,
    Json.depth schema < fuel -> good schema ->
    only_raises allowed (schema_to_type_expr_fuel reg fuel schema).
Proof.
  induction fuel as [|fuel IH]; intros schema Hfuel Hgood; [lia|].
  destruct schema as [| | | | | |d]; try apply only_raises_ok.
  assert (Hconv : forall v, Json.depth v < Json.depth (JDict d) -> good v ->
                            only_raises allowed (schema_to_type_expr_fuel reg fuel v))
    by (intros v Hv Hg; apply IH; [lia|done]).
  pose proof (union_only_raises d _ Hgood Hconv) as Hunion.
  pose proof (intersection_only_raises d _ Hgood Hconv) as Hinter.
  pose proof (array_only_raises d _ Hgood Hconv) as Harray.
  pose proof (object_only_raises d _ Hgood Hconv) as Hobject.
  pose proof (number_only_raises d Hgood) as Hnumber.
  pose proof (in_str_set_only_raises allowed (Json.get "type" d) ["number"; "integer"]
                (good_type d Hgood)) as Htype.
  assert (Hwrap : forall m : Result string,
             only_raises allowed m ->
             only_raises allowed (expr ← m; Ok (_wrap_nullable expr d))).
  { intros m Hm. apply only_raises_bind; [done|]. intros; apply only_raises_ok. }
  cbn [schema_to_type_expr_fuel].
  assert (Htail :
    only_raises allowed
      (if Json.eq_str (Json.get "type" d) "string" then
         Ok (_wrap_nullable (string.convert_openapi_string_to_pydantic reg d) d)
       else
         is_num ← Json.in_str_set (Json.get "type" d) ["number"; "integer"];
         if (is_num : bool) then
           expr ← number.convert_openapi_number_to_pydantic reg d;
           Ok (_wrap_nullable expr d)
         else if Json.eq_str (Json.get "type" d) "boolean" then
           Ok (_wrap_nullable (boolean.convert_openapi_boolean_to_pydantic reg d) d)
         else if Json.eq_str (Json.get "type" d) "array" then
           expr ← array.convert_openapi_array_to_pydantic d (schema_to_type_expr_fuel reg fuel);
           Ok (_wrap_nullable expr d)
         else if Json.eq_str (Json.get "type" d) "object" || dhas "properties" d then
           expr ← object.convert_openapi_object_to_pydantic d
                    (schema_to_type_expr_fuel reg fuel);
           Ok (_wrap_nullable expr d)
         else
           match Json.get "enum" d with
           | JList values => Ok (_wrap_nullable (literal_of values) d)
           | _ => Ok (_wrap_nullable "Any" d)
           end)).
  { destruct (Json.eq_str (Json.get "type" d) "string"); [apply only_raises_ok|].
    apply only_raises_bind; [done|]. intros is_num _.
    destruct is_num; [by apply Hwrap|].
    destruct (Json.eq_str _ "boolean"); [apply only_raises_ok|].
    destruct (Json.eq_str _ "array"); [by apply Hwrap|].
    destruct (_ || _); [by apply Hwrap|].
    destruct (Json.get "enum" d); apply only_raises_ok. }
  destruct (Json.get "$ref" d); try (destruct (negb _); apply only_raises_ok).
  all: destruct (Json.get "oneOf" d); try (by apply Hwrap).
  all: destruct (Json.get "allOf" d); try (by apply Hwrap).
  all: exact Htail.
Qed.

End synthesizer.

Lemma synthesizer_raises_TypeError (reg : PydanticSchemaRegistry) (schema : json) :
  only_raises [TypeError] (_schema_to_type_expr reg schema).
Proof.
  apply (schema_to_type_expr_only_raises [TypeError] (fun _ => True)); try done.
  - intros d _. left. apply list_elem_of_here.
  - lia.
Qed.

(** X9. [_schema_to_type_expr] raises nothing but [TypeError], and it
    returns whenever the value under [type] can be hashed in every dict of
    the schema. *)
Theorem _schema_to_type_expr_raises (reg : PydanticSchemaRegistry) (schema : json) :
  only_raises [TypeError] (_schema_to_type_expr reg schema)
  /\ (hashable_types schema -> is_ok (_schema_to_type_expr reg schema) = true).
Proof.
  split; [apply synthesizer_raises_TypeError|].
  intros Hgood. apply only_raises_nil.
  apply (schema_to_type_expr_only_raises [] hashable_types); try done.
  - intros k d. apply hashable_types_get.
  - intros x items Hitems Hx. apply hashable_types_list in Hitems.
    rewrite Forall_forall in Hitems. by apply Hitems.
  - intros d [Ht _]%hashable_types_dict. by right.
  - unfold _schema_to_type_expr. lia.
Qed.

Lemma _schema_to_type_expr_raises_witness :
  is_ok (_schema_to_type_expr empty_registry array_of_union) = true.
Proof.
  apply (proj2 (_schema_to_type_expr_raises empty_registry array_of_union)).
  simpl. repeat split.
Defined.
